(** * Snippet generator: collections and snippets behind ownership-guarded actions

    A shallow embedding of [src/db/tables.ts] (the two tables) and of the
    action handlers of the server module (requireUser, the two ownership
    guards and the eight actions), followed by the properties proved of them.

    Conventions of the embedding
    - text columns are [string]; an optional column, an optional input field
      and a key absent from an update object are [option]: [None] is SQL NULL,
      resp. JavaScript [undefined];
    - dates are [Z] (milliseconds); [new Date()] and [crypto.randomUUID()] are
      read from the environment, so a handler takes the instant [now] and the
      identifier [uuid] as arguments;
    - a table is the list of its rows in insertion order; [id] is the primary
      key, so an insert of an id already present is refused by the store;
    - a handler is a function from the store to the store it leaves behind and
      a result: there is no transaction, so what was written before a throw
      stays written. *)

From Stdlib Require Import List String ZArith Bool Arith Lia Sorted.
Import ListNotations.
Open Scope string_scope.

(* ------------------------------------------------------------------ *)
(** ** Tables (src/db/tables.ts) *)

Module Collection.
Record t : Type := mk {
  id          : string;
  userId      : string;
  name        : string;
  description : option string;
  icon        : option string;
  isDefault   : bool;
  createdAt   : Z;
  updatedAt   : Z
}.
End Collection.

Module Snippet.
Record t : Type := mk {
  id           : string;
  collectionId : string;
  userId       : string;
  title        : string;
  language     : option string;
  content      : string;
  description  : option string;
  tags         : option string;
  isFavorite   : bool;
  isArchived   : bool;
  createdAt    : Z;
  updatedAt    : Z
}.
End Snippet.

Record Store : Type := mkStore {
  SnippetCollections : list Collection.t;
  Snippets           : list Snippet.t
}.

Definition empty_store : Store := mkStore [] [].

(* ------------------------------------------------------------------ *)
(** ** Errors and the action monad *)

(** [UNAUTHORIZED] and [NOT_FOUND] are the two codes the module throws itself.
    [BAD_REQUEST] is the rejection of an input by the action's schema, before
    the handler runs; [CONSTRAINT] is the store refusing a row whose primary
    key is already taken. *)
Inductive ErrorCode : Type :=
| UNAUTHORIZED
| NOT_FOUND
| BAD_REQUEST
| CONSTRAINT.

Inductive Result (A : Type) : Type :=
| Ok (a : A)
| Throw (code : ErrorCode).
Arguments Ok {A} a.
Arguments Throw {A} code.

Definition Action (A : Type) : Type := Store -> Store * Result A.

Definition ret {A} (a : A) : Action A := fun s => (s, Ok a).

Definition throw {A} (code : ErrorCode) : Action A := fun s => (s, Throw code).

Definition bind {A B} (m : Action A) (k : A -> Action B) : Action B :=
  fun s =>
    match m s with
    | (s', Ok a) => k a s'
    | (s', Throw code) => (s', Throw code)
    end.

Declare Scope action_scope.
Delimit Scope action_scope with action.
Notation "x <- m ;; k" := (bind m (fun x => k))
  (at level 61, m at next level, right associativity) : action_scope.
Notation "m ;;; k" := (bind m (fun _ => k))
  (at level 61, right associativity) : action_scope.
Open Scope action_scope.

Definition when_ (b : bool) (m : Action unit) : Action unit :=
  if b then m else ret tt.

(** The store a call leaves behind, whether it returned or threw. *)
Definition store_after {A} (m : Action A) (s : Store) : Store := fst (m s).

(* ------------------------------------------------------------------ *)
(** ** JavaScript values of the inputs *)

(** [if (x)] on a [boolean | undefined]. *)
Definition truthy_bool (x : option bool) : bool :=
  match x with Some true => true | _ => false end.

(** [if (x)] on a [string | undefined]: the empty string is falsy. *)
Definition truthy_string (x : option string) : bool :=
  match x with
  | Some s => negb (String.eqb s EmptyString)
  | None => false
  end.

(** [x ?? d]. *)
Definition nullish {A} (x : option A) (d : A) : A :=
  match x with Some v => v | None => d end.

(** [z.string().min(1)]. *)
Definition min1 (s : string) : bool := Nat.leb 1 (String.length s).

(** An optional field obeys its check when it is present. *)
Definition optional {A} (check : A -> bool) (x : option A) : bool :=
  match x with Some v => check v | None => true end.

(* ------------------------------------------------------------------ *)
(** ** The store's query operations *)

Section Query.
Context {Row : Type}.

(** [db.select().from(T).where(p)] *)
Definition select_where (p : Row -> bool) (rows : list Row) : list Row :=
  filter p rows.

(** [db.update(T).set(patch).where(p)] *)
Definition update_where (p : Row -> bool) (set : Row -> Row)
           (rows : list Row) : list Row :=
  map (fun r => if p r then set r else r) rows.

(** [.orderBy(desc(key))], as a stable insertion sort on the instants.  Two
    things here are the store's and not the source's: the order it gives to
    rows of equal key, and the comparison itself, which the store makes on
    the stored form of a date.  No theorem below depends on the first; the
    one on the order of a page is stated for dates on which the stored form
    orders as the instant does. *)
Fixpoint insert_desc (key : Row -> Z) (x : Row) (l : list Row) : list Row :=
  match l with
  | [] => [x]
  | y :: l' =>
      if (key x <? key y)%Z then y :: insert_desc key x l' else x :: l
  end.

Definition orderBy_desc (key : Row -> Z) (rows : list Row) : list Row :=
  fold_right (insert_desc key) [] rows.

(** [.limit(n).offset(k)], for a query the store answers.  The store can
    refuse a query (an offset outside its integers): what is proved of a
    page is stated for a call that has returned one. *)
Definition limit_offset (n k : Z) (rows : list Row) : list Row :=
  firstn (Z.to_nat n) (skipn (Z.to_nat k) rows).
End Query.

(** The first element of a result set, as in [const [row] = await ...]. *)
Definition first_row {Row} (rows : list Row) : option Row := hd_error rows.

(** Update objects ([updateData], and the literal objects given to [.set]):
    the keys the handlers assign; [None] is a key left out. *)
Module CollectionPatch.
Record t : Type := mk {
  name        : option string;
  description : option string;
  icon        : option string;
  isDefault   : option bool;
  updatedAt   : option Z
}.

Definition apply (p : t) (c : Collection.t) : Collection.t :=
  Collection.mk
    (Collection.id c)
    (Collection.userId c)
    (nullish (name p) (Collection.name c))
    (match description p with Some d => Some d | None => Collection.description c end)
    (match icon p with Some i => Some i | None => Collection.icon c end)
    (nullish (isDefault p) (Collection.isDefault c))
    (Collection.createdAt c)
    (nullish (updatedAt p) (Collection.updatedAt c)).
End CollectionPatch.

Module SnippetPatch.
Record t : Type := mk {
  title        : option string;
  language     : option string;
  content      : option string;
  description  : option string;
  tags         : option string;
  isFavorite   : option bool;
  isArchived   : option bool;
  collectionId : option string;
  updatedAt    : option Z
}.

Definition apply (p : t) (r : Snippet.t) : Snippet.t :=
  Snippet.mk
    (Snippet.id r)
    (nullish (collectionId p) (Snippet.collectionId r))
    (Snippet.userId r)
    (nullish (title p) (Snippet.title r))
    (match language p with Some l => Some l | None => Snippet.language r end)
    (nullish (content p) (Snippet.content r))
    (match description p with Some d => Some d | None => Snippet.description r end)
    (match tags p with Some g => Some g | None => Snippet.tags r end)
    (nullish (isFavorite p) (Snippet.isFavorite r))
    (nullish (isArchived p) (Snippet.isArchived r))
    (Snippet.createdAt r)
    (nullish (updatedAt p) (Snippet.updatedAt r)).
End SnippetPatch.

(** The statements the handlers send to the store.  An insert checks the
    primary key.  The reference from [Snippets.collectionId] to
    [SnippetCollections.id] is not checked here: the only insert and the only
    reassignment of a [collectionId] come after [ensureCollectionOwned] has
    found the collection, and no action deletes a collection. *)
Module Db.
Definition select_collections (p : Collection.t -> bool)
  : Action (list Collection.t) :=
  fun s => (s, Ok (select_where p (SnippetCollections s))).

Definition update_collections (patch : CollectionPatch.t)
           (p : Collection.t -> bool) : Action unit :=
  fun s =>
    (mkStore (update_where p (CollectionPatch.apply patch) (SnippetCollections s))
             (Snippets s),
     Ok tt).

Definition insert_collection (c : Collection.t) : Action unit :=
  fun s =>
    if existsb (fun r => String.eqb (Collection.id r) (Collection.id c))
               (SnippetCollections s)
    then (s, Throw CONSTRAINT)
    else (mkStore (SnippetCollections s ++ [c]) (Snippets s), Ok tt).

Definition select_snippets (p : Snippet.t -> bool) : Action (list Snippet.t) :=
  fun s => (s, Ok (select_where p (Snippets s))).

Definition update_snippets (patch : SnippetPatch.t)
           (p : Snippet.t -> bool) : Action unit :=
  fun s =>
    (mkStore (SnippetCollections s)
             (update_where p (SnippetPatch.apply patch) (Snippets s)),
     Ok tt).

Definition insert_snippet (r : Snippet.t) : Action unit :=
  fun s =>
    if existsb (fun x => String.eqb (Snippet.id x) (Snippet.id r)) (Snippets s)
    then (s, Throw CONSTRAINT)
    else (mkStore (SnippetCollections s) (Snippets s ++ [r]), Ok tt).
End Db.

(* ------------------------------------------------------------------ *)
(** ** The authorization guard *)

Module User.
Record t : Type := mk { id : string }.
End User.

Record Locals : Type := mkLocals { user : option User.t }.

Record ActionAPIContext : Type := mkContext { locals : option Locals }.

(** A context whose request carries the signed-in user [uid]. *)
Definition signed_in (uid : string) : ActionAPIContext :=
  mkContext (Some (mkLocals (Some (User.mk uid)))).

Definition requireUser (context : ActionAPIContext) : Action User.t :=
  match locals context with
  | Some l =>
      match user l with
      | Some u => ret u
      | None => throw UNAUTHORIZED
      end
  | None => throw UNAUTHORIZED
  end.

Definition ensureCollectionOwned (collectionId userId : string)
  : Action Collection.t :=
  rows <- Db.select_collections
            (fun c => String.eqb (Collection.id c) collectionId
                      && String.eqb (Collection.userId c) userId) ;;
  match first_row rows with
  | Some collection => ret collection
  | None => throw NOT_FOUND
  end.

Definition ensureSnippetOwned (snippetId userId : string) : Action Snippet.t :=
  rows <- Db.select_snippets
            (fun r => String.eqb (Snippet.id r) snippetId
                      && String.eqb (Snippet.userId r) userId) ;;
  match first_row rows with
  | Some snippet => ret snippet
  | None => throw NOT_FOUND
  end.

(** [defineAction({ input, handler })]: the input is parsed by the schema
    first, and the handler only sees an input the schema accepted. *)
Definition defineAction {Raw In Out : Type} (schema : Raw -> option In)
           (handler : In -> ActionAPIContext -> Action Out)
           (raw : Raw) (context : ActionAPIContext) : Action Out :=
  match schema raw with
  | Some input => handler input context
  | None => throw BAD_REQUEST
  end.

(** A schema that only checks. *)
Definition checked {In : Type} (ok : In -> bool) (i : In) : option In :=
  if ok i then Some i else None.

(* ------------------------------------------------------------------ *)
(** ** The actions *)

(** What the two list actions return. *)
Record Page (Row : Type) : Type := mkPage {
  items : list Row;
  total : nat
}.
Arguments mkPage {Row} items total.
Arguments items {Row} p.
Arguments total {Row} p.

(** The bulk update both collection writers run when [isDefault] is truthy:
    [.set({ isDefault: false, updatedAt: now }).where(eq(userId, user.id))]. *)
Definition cleared (now : Z) : CollectionPatch.t :=
  CollectionPatch.mk None None None (Some false) (Some now).

Definition clear_defaults (userId : string) (now : Z) : Action unit :=
  Db.update_collections
    (cleared now)
    (fun c => String.eqb (Collection.userId c) userId).

Module CreateSnippetCollection.
Record Input : Type := mk {
  name        : string;
  description : option string;
  icon        : option string;
  isDefault   : option bool
}.

Definition schema : Input -> option Input :=
  checked (fun i => min1 (name i)).

Definition handler (now : Z) (uuid : string)
           (input : Input) (context : ActionAPIContext) : Action Collection.t :=
  user <- requireUser context ;;
  when_ (truthy_bool (isDefault input)) (clear_defaults (User.id user) now) ;;;
  let collection :=
    Collection.mk uuid (User.id user) (name input) (description input)
                  (icon input) (nullish (isDefault input) false) now now in
  Db.insert_collection collection ;;;
  ret collection.
End CreateSnippetCollection.

Definition createSnippetCollection (now : Z) (uuid : string) :=
  defineAction CreateSnippetCollection.schema
               (CreateSnippetCollection.handler now uuid).

Module UpdateSnippetCollection.
Record Input : Type := mk {
  id          : string;
  name        : option string;
  description : option string;
  icon        : option string;
  isDefault   : option bool
}.

Definition schema : Input -> option Input :=
  checked (fun i => min1 (id i) && optional min1 (name i)).

Definition updateData (now : Z) (input : Input) : CollectionPatch.t :=
  CollectionPatch.mk (name input) (description input) (icon input)
                     (isDefault input) (Some now).

(** The handler returns the first row of the final select, which is
    [undefined] when the select is empty. *)
Definition handler (now : Z)
           (input : Input) (context : ActionAPIContext)
  : Action (option Collection.t) :=
  user <- requireUser context ;;
  existing <- ensureCollectionOwned (id input) (User.id user) ;;
  when_ (truthy_bool (isDefault input)) (clear_defaults (User.id user) now) ;;;
  Db.update_collections
    (updateData now input)
    (fun c => String.eqb (Collection.id c) (Collection.id existing)) ;;;
  rows <- Db.select_collections
            (fun c => String.eqb (Collection.id c) (Collection.id existing)) ;;
  ret (first_row rows).
End UpdateSnippetCollection.

Definition updateSnippetCollection (now : Z) :=
  defineAction UpdateSnippetCollection.schema
               (UpdateSnippetCollection.handler now).

(** [page] and [pageSize] of the two list actions:
    [z.number().int().positive().default(1)] and
    [z.number().int().positive().max(100).default(20)].  Numbers are taken as
    mathematical integers. *)
Definition page_ok (page : Z) : bool := (1 <=? page)%Z.
Definition pageSize_ok (pageSize : Z) : bool :=
  (1 <=? pageSize)%Z && (pageSize <=? 100)%Z.

Module ListMySnippetCollections.
Record Raw : Type := mkRaw {
  raw_page     : option Z;
  raw_pageSize : option Z
}.

Record Input : Type := mk {
  page     : Z;
  pageSize : Z
}.

Definition schema (raw : Raw) : option Input :=
  let i := mk (nullish (raw_page raw) 1%Z) (nullish (raw_pageSize raw) 20%Z) in
  if page_ok (page i) && pageSize_ok (pageSize i) then Some i else None.

Definition handler (input : Input) (context : ActionAPIContext)
  : Action (Page Collection.t) :=
  user <- requireUser context ;;
  let offset := ((page input - 1) * pageSize input)%Z in
  fun s =>
    let items :=
      limit_offset (pageSize input) offset
        (orderBy_desc Collection.createdAt
           (select_where
              (fun c => String.eqb (Collection.userId c) (User.id user))
              (SnippetCollections s))) in
    (s, Ok (mkPage items (List.length items))).
End ListMySnippetCollections.

Definition listMySnippetCollections :=
  defineAction ListMySnippetCollections.schema ListMySnippetCollections.handler.

Module CreateSnippet.
Record Input : Type := mk {
  collectionId : string;
  title        : string;
  language     : option string;
  content      : string;
  description  : option string;
  tags         : option string;
  isFavorite   : option bool
}.

Definition schema : Input -> option Input :=
  checked (fun i => min1 (collectionId i) && min1 (title i) && min1 (content i)).

Definition handler (now : Z) (uuid : string)
           (input : Input) (context : ActionAPIContext) : Action Snippet.t :=
  user <- requireUser context ;;
  ensureCollectionOwned (collectionId input) (User.id user) ;;;
  let snippet :=
    Snippet.mk uuid (collectionId input) (User.id user) (title input)
               (language input) (content input) (description input)
               (tags input) (nullish (isFavorite input) false) false now now in
  Db.insert_snippet snippet ;;;
  ret snippet.
End CreateSnippet.

Definition createSnippet (now : Z) (uuid : string) :=
  defineAction CreateSnippet.schema (CreateSnippet.handler now uuid).

Module UpdateSnippet.
Record Input : Type := mk {
  id           : string;
  title        : option string;
  language     : option string;
  content      : option string;
  description  : option string;
  tags         : option string;
  isFavorite   : option bool;
  isArchived   : option bool;
  collectionId : option string
}.

Definition schema : Input -> option Input :=
  checked (fun i => min1 (id i) && optional min1 (title i)
                    && optional min1 (content i)).

(** [updateData] before the collection is looked at. *)
Definition updateData (now : Z) (input : Input) : SnippetPatch.t :=
  SnippetPatch.mk (title input) (language input) (content input)
                  (description input) (tags input) (isFavorite input)
                  (isArchived input) None (Some now).

Definition with_collectionId (cid : string) (p : SnippetPatch.t)
  : SnippetPatch.t :=
  SnippetPatch.mk (SnippetPatch.title p) (SnippetPatch.language p)
                  (SnippetPatch.content p) (SnippetPatch.description p)
                  (SnippetPatch.tags p) (SnippetPatch.isFavorite p)
                  (SnippetPatch.isArchived p) (Some cid)
                  (SnippetPatch.updatedAt p).

(** [collectionId !== undefined && collectionId !== existing.collectionId] *)
Definition moves (input : Input) (existing : Snippet.t) : option string :=
  match collectionId input with
  | Some cid =>
      if String.eqb cid (Snippet.collectionId existing) then None else Some cid
  | None => None
  end.

Definition handler (now : Z)
           (input : Input) (context : ActionAPIContext)
  : Action (option Snippet.t) :=
  user <- requireUser context ;;
  existing <- ensureSnippetOwned (id input) (User.id user) ;;
  patch <- match moves input existing with
           | Some cid =>
               ensureCollectionOwned cid (User.id user) ;;;
               ret (with_collectionId cid (updateData now input))
           | None => ret (updateData now input)
           end ;;
  Db.update_snippets
    patch (fun r => String.eqb (Snippet.id r) (Snippet.id existing)) ;;;
  rows <- Db.select_snippets
            (fun r => String.eqb (Snippet.id r) (Snippet.id existing)) ;;
  ret (first_row rows).
End UpdateSnippet.

Definition updateSnippet (now : Z) :=
  defineAction UpdateSnippet.schema (UpdateSnippet.handler now).

Module ArchiveSnippet.
Record Input : Type := mk { id : string }.

Definition schema : Input -> option Input := checked (fun i => min1 (id i)).

(** [{ isArchived: true, updatedAt: now }] *)
Definition archived (now : Z) : SnippetPatch.t :=
  SnippetPatch.mk None None None None None None (Some true) None (Some now).

Definition handler (now : Z)
           (input : Input) (context : ActionAPIContext) : Action string :=
  user <- requireUser context ;;
  existing <- ensureSnippetOwned (id input) (User.id user) ;;
  Db.update_snippets
    (archived now)
    (fun r => String.eqb (Snippet.id r) (Snippet.id existing)) ;;;
  ret (Snippet.id existing).
End ArchiveSnippet.

Definition archiveSnippet (now : Z) :=
  defineAction ArchiveSnippet.schema (ArchiveSnippet.handler now).

Module ListSnippets.
Record Raw : Type := mkRaw {
  raw_collectionId    : option string;
  raw_includeArchived : option bool;
  raw_page            : option Z;
  raw_pageSize        : option Z
}.

Record Input : Type := mk {
  collectionId    : option string;
  includeArchived : bool;
  page            : Z;
  pageSize        : Z
}.

Definition schema (raw : Raw) : option Input :=
  let i := mk (raw_collectionId raw) (nullish (raw_includeArchived raw) false)
              (nullish (raw_page raw) 1%Z) (nullish (raw_pageSize raw) 20%Z) in
  if page_ok (page i) && pageSize_ok (pageSize i) then Some i else None.

(** [and(...filters)] *)
Definition and_ (filters : list (Snippet.t -> bool)) (r : Snippet.t) : bool :=
  forallb (fun f => f r) filters.

Definition by_user (uid : string) (r : Snippet.t) : bool :=
  String.eqb (Snippet.userId r) uid.
Definition by_collection (cid : string) (r : Snippet.t) : bool :=
  String.eqb (Snippet.collectionId r) cid.
Definition not_archived (r : Snippet.t) : bool :=
  Bool.eqb (Snippet.isArchived r) false.

Definition handler (input : Input) (context : ActionAPIContext)
  : Action (Page Snippet.t) :=
  user <- requireUser context ;;
  let filters := [by_user (User.id user)] in
  (* [if (input.collectionId)]: present and not the empty string *)
  filters <- match collectionId input with
             | Some cid =>
                 if truthy_string (Some cid) then
                   ensureCollectionOwned cid (User.id user) ;;;
                   ret (filters ++ [by_collection cid])%list
                 else ret filters
             | None => ret filters
             end ;;
  let filters :=
    if negb (includeArchived input) then (filters ++ [not_archived])%list
    else filters in
  let offset := ((page input - 1) * pageSize input)%Z in
  fun s =>
    let items :=
      limit_offset (pageSize input) offset
        (orderBy_desc Snippet.updatedAt
           (select_where (and_ filters) (Snippets s))) in
    (s, Ok (mkPage items (List.length items))).

(** The rows the request asks for, said at once: the caller's, of the
    given collection when one is given, and not archived unless archived
    ones are asked for. *)
Definition matches (uid : string) (input : Input) (r : Snippet.t) : bool :=
  by_user uid r
  && (if truthy_string (collectionId input)
      then by_collection (nullish (collectionId input) EmptyString) r
      else true)
  && (includeArchived input || not_archived r).
End ListSnippets.

Definition listSnippets :=
  defineAction ListSnippets.schema ListSnippets.handler.

Module GetSnippet.
Record Input : Type := mk { id : string }.

Definition schema : Input -> option Input := checked (fun i => min1 (id i)).

Definition handler (input : Input) (context : ActionAPIContext)
  : Action Snippet.t :=
  user <- requireUser context ;;
  ensureSnippetOwned (id input) (User.id user).
End GetSnippet.

Definition getSnippet := defineAction GetSnippet.schema GetSnippet.handler.

(* ------------------------------------------------------------------ *)
(** ** Calls and the stores they reach *)

(** One request to the module, with what it reads from its environment. *)
Inductive Call : Type :=
| CreateSnippetCollectionCall (now : Z) (uuid : string)
    (input : CreateSnippetCollection.Input) (context : ActionAPIContext)
| UpdateSnippetCollectionCall (now : Z)
    (input : UpdateSnippetCollection.Input) (context : ActionAPIContext)
| ListMySnippetCollectionsCall
    (input : ListMySnippetCollections.Raw) (context : ActionAPIContext)
| CreateSnippetCall (now : Z) (uuid : string)
    (input : CreateSnippet.Input) (context : ActionAPIContext)
| UpdateSnippetCall (now : Z)
    (input : UpdateSnippet.Input) (context : ActionAPIContext)
| ArchiveSnippetCall (now : Z)
    (input : ArchiveSnippet.Input) (context : ActionAPIContext)
| ListSnippetsCall (input : ListSnippets.Raw) (context : ActionAPIContext)
| GetSnippetCall (input : GetSnippet.Input) (context : ActionAPIContext).

(** The store a call leaves behind, whether it returned or threw. *)
Definition run (c : Call) (s : Store) : Store :=
  match c with
  | CreateSnippetCollectionCall now uuid i ctx =>
      store_after (createSnippetCollection now uuid i ctx) s
  | UpdateSnippetCollectionCall now i ctx =>
      store_after (updateSnippetCollection now i ctx) s
  | ListMySnippetCollectionsCall i ctx =>
      store_after (listMySnippetCollections i ctx) s
  | CreateSnippetCall now uuid i ctx =>
      store_after (createSnippet now uuid i ctx) s
  | UpdateSnippetCall now i ctx => store_after (updateSnippet now i ctx) s
  | ArchiveSnippetCall now i ctx => store_after (archiveSnippet now i ctx) s
  | ListSnippetsCall i ctx => store_after (listSnippets i ctx) s
  | GetSnippetCall i ctx => store_after (getSnippet i ctx) s
  end.

(** The stores the module can produce from the empty one, one call after
    the other. *)
Inductive reachable : Store -> Prop :=
| reachable_empty : reachable empty_store
| reachable_run (c : Call) (s : Store) : reachable s -> reachable (run c s).

(** Primary keys. *)
Definition ids_unique (s : Store) : Prop :=
  NoDup (map Collection.id (SnippetCollections s))
  /\ NoDup (map Snippet.id (Snippets s)).

(** The collections of [uid] that are flagged as default. *)
Definition is_default_of (uid : string) (c : Collection.t) : bool :=
  String.eqb (Collection.userId c) uid && Collection.isDefault c.

Definition defaults_of (uid : string) (s : Store) : list Collection.t :=
  filter (is_default_of uid) (SnippetCollections s).

Definition single_default (s : Store) : Prop :=
  forall uid, (List.length (defaults_of uid s) <= 1)%nat.

(** The row of a key. *)
Definition find_collection (id : string) (s : Store) : option Collection.t :=
  find (fun c => String.eqb (Collection.id c) id) (SnippetCollections s).

Definition find_snippet (id : string) (s : Store) : option Snippet.t :=
  find (fun r => String.eqb (Snippet.id r) id) (Snippets s).

(** No collection stored under [cid] belongs to [uid]: there is none, or it
    is someone else's. *)
Definition not_owned_collection (uid cid : string) (s : Store) : Prop :=
  forall c, In c (SnippetCollections s) ->
            Collection.id c = cid -> Collection.userId c <> uid.

(** The collections after the bulk update of [clear_defaults], when the
    handler runs it ([b]) and when it does not. *)
Definition defaults_cleared (b : bool) (uid : string) (now : Z)
           (rows : list Collection.t) : list Collection.t :=
  if b
  then update_where (fun c => String.eqb (Collection.userId c) uid)
                    (CollectionPatch.apply (cleared now)) rows
  else rows.

(** The row createSnippetCollection builds. *)
Definition new_collection (now : Z) (uuid uid : string)
           (input : CreateSnippetCollection.Input) : Collection.t :=
  Collection.mk uuid uid (CreateSnippetCollection.name input)
                (CreateSnippetCollection.description input)
                (CreateSnippetCollection.icon input)
                (nullish (CreateSnippetCollection.isDefault input) false)
                now now.

(** An action that leaves every store as it found it. *)
Definition read_only {A} (m : Action A) : Prop :=
  forall s, fst (m s) = s.

(** A text column holds nothing: it is NULL or the empty string. *)
Definition is_empty_text (x : option string) : bool :=
  match x with
  | Some v => String.eqb v EmptyString
  | None => true
  end.

(** What a call writes into [isArchived], when it writes it at all. *)
Definition archived_written_by (c : Call) : option bool :=
  match c with
  | ArchiveSnippetCall _ _ _ => Some true
  | UpdateSnippetCall _ input _ => UpdateSnippet.isArchived input
  | _ => None
  end.

(* ------------------------------------------------------------------ *)
(** ** A small store to run the actions on *)

Module Sample.
Definition alice : ActionAPIContext := signed_in "alice".

Definition sql : Collection.t :=
  Collection.mk "c1" "alice" "SQL" (Some "queries") None true 10 10.
Definition go : Collection.t :=
  Collection.mk "c2" "alice" "Go" None (Some "laptop") false 20 20.
Definition shell : Collection.t :=
  Collection.mk "c3" "bob" "Shell" None None true 30 30.

Definition select1 : Snippet.t :=
  Snippet.mk "s1" "c1" "alice" "select" (Some "sql") "SELECT 1" None None
             false false 40 40.
Definition loop : Snippet.t :=
  Snippet.mk "s2" "c2" "alice" "loop" (Some "go") "for {}" None None
             false true 50 50.
Definition ls : Snippet.t :=
  Snippet.mk "s3" "c3" "bob" "ls" None "ls -la" None None false false 60 60.

Definition store : Store := mkStore [sql; go; shell] [select1; loop; ls].

(** Alice's default listing: first page, archived snippets left out. *)
Definition list_default : ListSnippets.Raw :=
  ListSnippets.mkRaw None None None None.
Definition list_default_page : Page Snippet.t := mkPage [select1] 1.

(** Pages of one row. *)
Definition collections_by_one : ListMySnippetCollections.Raw :=
  ListMySnippetCollections.mkRaw None (Some 1%Z).
Definition collections_first_page : Page Collection.t := mkPage [go] 1.
Definition snippets_by_one : ListSnippets.Raw :=
  ListSnippets.mkRaw None (Some true) None (Some 1%Z).
Definition snippets_first_page : Page Snippet.t := mkPage [loop] 1.

(** A listing whose [collectionId] is the empty string. *)
Definition list_empty_collectionId : ListSnippets.Raw :=
  ListSnippets.mkRaw (Some EmptyString) (Some true) None None.

(** Alice empties the description of her SQL collection. *)
Definition empty_description : UpdateSnippetCollection.Input :=
  UpdateSnippetCollection.mk "c1" None (Some EmptyString) None None.

(** Alice replaces the icon of her Go collection and makes it the default. *)
Definition retitle_go : UpdateSnippetCollection.Input :=
  UpdateSnippetCollection.mk "c2" None None (Some "gopher") (Some true).

(** Alice adds a collection and makes it the default. *)
Definition new_default : CreateSnippetCollection.Input :=
  CreateSnippetCollection.mk "Rust" None None (Some true).

(** The row Alice's new default collection is stored as. *)
Definition rust : Collection.t :=
  Collection.mk "c9" "alice" "Rust" None None true 100 100.

(** The Go collection once [retitle_go] is applied at instant 100. *)
Definition go_retitled : Collection.t :=
  Collection.mk "c2" "alice" "Go" None (Some "gopher") true 20 100.

(** Alice creates a collection and a snippet, and archives the snippet. *)
Definition archived_store : Store :=
  run (ArchiveSnippetCall 30 (ArchiveSnippet.mk "s1") alice)
    (run (CreateSnippetCall 20 "s1"
            (CreateSnippet.mk "c1" "select" None "SELECT 1" None None None)
            alice)
       (run (CreateSnippetCollectionCall 10 "c1"
               (CreateSnippetCollection.mk "SQL" None None None) alice)
          empty_store)).

(** An update that only carries [isArchived: false], resp. [true]. *)
Definition unarchive : UpdateSnippet.Input :=
  UpdateSnippet.mk "s1" None None None None None None (Some false) None.
Definition archive_by_update : UpdateSnippet.Input :=
  UpdateSnippet.mk "s1" None None None None None None (Some true) None.

(** Alice files a snippet under Bob's collection. *)
Definition create_in_bobs : CreateSnippet.Input :=
  CreateSnippet.mk "c3" "cat" None "cat file" None None None.

(** Alice renames a snippet, stars it and moves it to Bob's collection. *)
Definition move_to_bobs : UpdateSnippet.Input :=
  UpdateSnippet.mk "s1" (Some "renamed") None None None None (Some true) None
                   (Some "c3").
End Sample.

(* ------------------------------------------------------------------ *)
(** ** Calls seen from outside, and what a well-formed store is *)

(** The request context of a call. *)
Definition call_context (c : Call) : ActionAPIContext :=
  match c with
  | CreateSnippetCollectionCall _ _ _ ctx => ctx
  | UpdateSnippetCollectionCall _ _ ctx => ctx
  | ListMySnippetCollectionsCall _ ctx => ctx
  | CreateSnippetCall _ _ _ ctx => ctx
  | UpdateSnippetCall _ _ ctx => ctx
  | ArchiveSnippetCall _ _ ctx => ctx
  | ListSnippetsCall _ ctx => ctx
  | GetSnippetCall _ ctx => ctx
  end.

(** [locals?.user] is there. *)
Definition has_user (context : ActionAPIContext) : bool :=
  match locals context with
  | Some l => match user l with Some _ => true | None => false end
  | None => false
  end.

(** The code a call ends with when it throws. *)
Definition thrown {A} (r : Result A) : option ErrorCode :=
  match r with
  | Ok _ => None
  | Throw code => Some code
  end.

Definition run_code (c : Call) (s : Store) : option ErrorCode :=
  match c with
  | CreateSnippetCollectionCall now uuid i ctx =>
      thrown (snd (createSnippetCollection now uuid i ctx s))
  | UpdateSnippetCollectionCall now i ctx =>
      thrown (snd (updateSnippetCollection now i ctx s))
  | ListMySnippetCollectionsCall i ctx =>
      thrown (snd (listMySnippetCollections i ctx s))
  | CreateSnippetCall now uuid i ctx =>
      thrown (snd (createSnippet now uuid i ctx s))
  | UpdateSnippetCall now i ctx => thrown (snd (updateSnippet now i ctx s))
  | ArchiveSnippetCall now i ctx => thrown (snd (archiveSnippet now i ctx s))
  | ListSnippetsCall i ctx => thrown (snd (listSnippets i ctx s))
  | GetSnippetCall i ctx => thrown (snd (getSnippet i ctx s))
  end.

(** The input of a call passes the schema of its action. *)
Definition accepted {Raw In : Type} (schema : Raw -> option In) (raw : Raw)
  : bool :=
  match schema raw with Some _ => true | None => false end.

Definition schema_accepts (c : Call) : bool :=
  match c with
  | CreateSnippetCollectionCall _ _ i _ =>
      accepted CreateSnippetCollection.schema i
  | UpdateSnippetCollectionCall _ i _ =>
      accepted UpdateSnippetCollection.schema i
  | ListMySnippetCollectionsCall i _ =>
      accepted ListMySnippetCollections.schema i
  | CreateSnippetCall _ _ i _ => accepted CreateSnippet.schema i
  | UpdateSnippetCall _ i _ => accepted UpdateSnippet.schema i
  | ArchiveSnippetCall _ i _ => accepted ArchiveSnippet.schema i
  | ListSnippetsCall i _ => accepted ListSnippets.schema i
  | GetSnippetCall i _ => accepted GetSnippet.schema i
  end.

(** Every snippet is filed under a stored collection of its own user. *)
Definition refs_owned (s : Store) : Prop :=
  forall r, In r (Snippets s) ->
    exists c, In c (SnippetCollections s)
              /\ Collection.id c = Snippet.collectionId r
              /\ Collection.userId c = Snippet.userId r.

(** [x] may come before [y] in an order by [desc(key)]. *)
Definition desc_by {Row : Type} (key : Row -> Z) (x y : Row) : Prop :=
  (key y <= key x)%Z.

(** The row createSnippet builds. *)
Definition new_snippet (now : Z) (uuid uid : string)
           (input : CreateSnippet.Input) : Snippet.t :=
  Snippet.mk uuid (CreateSnippet.collectionId input) uid
             (CreateSnippet.title input) (CreateSnippet.language input)
             (CreateSnippet.content input) (CreateSnippet.description input)
             (CreateSnippet.tags input)
             (nullish (CreateSnippet.isFavorite input) false) false now now.

(** The update object updateSnippet ends up with. *)
Definition snippet_patch (now : Z) (input : UpdateSnippet.Input)
           (existing : Snippet.t) : SnippetPatch.t :=
  match UpdateSnippet.moves input existing with
  | Some cid =>
      UpdateSnippet.with_collectionId cid (UpdateSnippet.updateData now input)
  | None => UpdateSnippet.updateData now input
  end.

(** No snippet stored under [id] belongs to [uid]. *)
Definition not_owned_snippet (uid id : string) (s : Store) : Prop :=
  forall r, In r (Snippets s) ->
            Snippet.id r = id -> Snippet.userId r <> uid.

(** More rows to run the actions on. *)
Module Scenario.
Definition anonymous : ActionAPIContext := mkContext (Some (mkLocals None)).

(** Alice files a new snippet under her Go collection. *)
Definition file_under_go : CreateSnippet.Input :=
  CreateSnippet.mk "c2" "defer" (Some "go") "defer f()" None (Some "idiom")
                   None.

(** Alice adds a collection without making it the default. *)
Definition plain_collection : CreateSnippetCollection.Input :=
  CreateSnippetCollection.mk "Rust" (Some "crates") None None.
Definition rust_plain : Collection.t :=
  Collection.mk "c9" "alice" "Rust" (Some "crates") None false 100 100.

(** Alice retitles her first snippet and moves it to her Go collection. *)
Definition move_to_go : UpdateSnippet.Input :=
  UpdateSnippet.mk "s1" (Some "select one") None None None None None None
                   (Some "c2").
Definition select1_moved : Snippet.t :=
  Snippet.mk "s1" "c2" "alice" "select one" (Some "sql") "SELECT 1" None None
             false false 40 100.

(** Alice renames her Go collection, leaving [isDefault] out. *)
Definition rename_go : UpdateSnippetCollection.Input :=
  UpdateSnippetCollection.mk "c2" (Some "Golang") None None None.

(** Alice takes the default flag off her SQL collection. *)
Definition undefault_sql : UpdateSnippetCollection.Input :=
  UpdateSnippetCollection.mk "c1" None None None (Some false).

(** Alice lists the snippets of Bob's collection. *)
Definition list_bobs : ListSnippets.Raw :=
  ListSnippets.mkRaw (Some "c3") None None None.

(** Alice lists all her snippets, archived ones too. *)
Definition list_all : ListSnippets.Raw :=
  ListSnippets.mkRaw None (Some true) None None.
Definition list_all_page : Page Snippet.t :=
  mkPage [Sample.loop; Sample.select1] 2.

(** Alice lists the snippets of her Go collection, archived ones too. *)
Definition list_go : ListSnippets.Raw :=
  ListSnippets.mkRaw (Some "c2") (Some true) None None.
Definition list_go_page : Page Snippet.t := mkPage [Sample.loop] 1.

(** Alice lists her collections. *)
Definition list_collections : ListMySnippetCollections.Raw :=
  ListMySnippetCollections.mkRaw None None.
Definition list_collections_page : Page Collection.t :=
  mkPage [Sample.go; Sample.sql] 2.

(** A store where Alice has two active snippets, and the second one. *)
Definition channel : Snippet.t :=
  Snippet.mk "s4" "c2" "alice" "channel" (Some "go") "make(chan int)" None None
             false false 70 70.
Definition two_active : Store :=
  mkStore [Sample.sql; Sample.go] [Sample.select1; channel].
Definition archive_channel : Store :=
  store_after (archiveSnippet 100 (ArchiveSnippet.mk "s4") Sample.alice)
              two_active.
End Scenario.

(** An instant whose ISO form has a four-digit year: from
    0000-01-01T00:00:00.000Z to 9999-12-31T23:59:59.999Z, in milliseconds.
    On these instants the ISO text of a date, which has a fixed width,
    orders as the instant does. *)
Definition four_digit_year (t : Z) : Prop :=
  (-62167219200000 <= t <= 253402300799999)%Z.

(* ------------------------------------------------------------------ *)
(** ** Lists: filters, updates, ordering *)

Section ListFacts.
Context {Row : Type}.
Implicit Types (p q : Row -> bool) (l : list Row).

Lemma hd_filter_find p l : hd_error (filter p l) = find p l.
Proof.
  induction l as [|x l IH]; cbn; [reflexivity|].
  destruct (p x); cbn; [reflexivity | exact IH].
Qed.

Lemma find_weaken p q l x :
  find p l = Some x -> q x = true ->
  find (fun r => p r && q r) l = Some x.
Proof.
  induction l as [|y l IH]; cbn; [discriminate|].
  destruct (p y) eqn:Hp; cbn.
  - intros [= ->] Hq. now rewrite Hq.
  - exact IH.
Qed.

Lemma find_update_where p (key : Row -> bool) set l :
  (forall r, key (set r) = key r) ->
  find key (update_where p set l)
  = option_map (fun r => if p r then set r else r) (find key l).
Proof.
  intros Hkey. unfold update_where.
  induction l as [|x l IH]; cbn; [reflexivity|].
  assert (Hx : key (if p x then set x else x) = key x)
    by (destruct (p x); [apply Hkey | reflexivity]).
  rewrite Hx. destruct (key x); [reflexivity | exact IH].
Qed.

Lemma filter_length_le p q l :
  (forall r, In r l -> p r = true -> q r = true) ->
  (List.length (filter p l) <= List.length (filter q l))%nat.
Proof.
  induction l as [|x l IH]; cbn; intros H; [lia|].
  assert (IH' := IH (fun r Hr => H r (or_intror Hr))).
  destruct (p x) eqn:Hp.
  - rewrite (H x (or_introl eq_refl) Hp). cbn. lia.
  - destruct (q x); cbn; lia.
Qed.

Lemma filter_map_length_le p (g : Row -> Row) l :
  (forall r, In r l -> p (g r) = true -> p r = true) ->
  (List.length (filter p (map g l)) <= List.length (filter p l))%nat.
Proof.
  induction l as [|x l IH]; cbn; intros H; [lia|].
  assert (IH' := IH (fun r Hr => H r (or_intror Hr))).
  destruct (p (g x)) eqn:Hp.
  - rewrite (H x (or_introl eq_refl) Hp). cbn. lia.
  - destruct (p x); cbn; lia.
Qed.

Lemma filter_none p l :
  (forall r, In r l -> p r = false) -> filter p l = [].
Proof.
  induction l as [|x l IH]; cbn; intros H; [reflexivity|].
  rewrite (H x (or_introl eq_refl)). apply IH. intros r Hr. apply H. now right.
Qed.

Lemma In_insert_desc key x y l :
  In y (insert_desc key x l) <-> y = x \/ In y l.
Proof.
  induction l as [|z l IH]; cbn.
  - intuition congruence.
  - destruct (key x <? key z)%Z; cbn; rewrite ?IH; intuition congruence.
Qed.

Lemma In_orderBy_desc key y l : In y (orderBy_desc key l) <-> In y l.
Proof.
  unfold orderBy_desc. induction l as [|x l IH]; cbn; [tauto|].
  rewrite In_insert_desc, IH. intuition congruence.
Qed.

Lemma length_insert_desc key x l :
  List.length (insert_desc key x l) = S (List.length l).
Proof.
  induction l as [|z l IH]; cbn; [reflexivity|].
  destruct (key x <? key z)%Z; cbn; [now rewrite IH | reflexivity].
Qed.

Lemma length_orderBy_desc key l :
  List.length (orderBy_desc key l) = List.length l.
Proof.
  unfold orderBy_desc. induction l as [|x l IH]; cbn; [reflexivity|].
  now rewrite length_insert_desc, IH.
Qed.

Lemma In_firstn_inv (n : nat) y l : In y (firstn n l) -> In y l.
Proof.
  revert l. induction n as [|n IH]; intros [|x l]; cbn; try tauto.
  intros [->|H]; [now left | right; now apply IH].
Qed.

Lemma In_skipn_inv (n : nat) y l : In y (skipn n l) -> In y l.
Proof.
  revert l. induction n as [|n IH]; intros [|x l]; cbn; try tauto.
  intros H. right. now apply IH.
Qed.

Lemma In_limit_offset n k y l : In y (limit_offset n k l) -> In y l.
Proof.
  unfold limit_offset. intros H.
  apply In_firstn_inv in H. now apply In_skipn_inv in H.
Qed.

Lemma length_limit_offset n k l :
  List.length (limit_offset n k l)
  = Nat.min (Z.to_nat n) (List.length l - Z.to_nat k).
Proof. unfold limit_offset. now rewrite length_firstn, length_skipn. Qed.
End ListFacts.

(** A key that occurs once selects at most one row. *)
Lemma unique_key_one {Row} (key : Row -> string) (k : string) (l : list Row) :
  NoDup (map key l) ->
  (List.length (filter (fun r => String.eqb (key r) k) l) <= 1)%nat.
Proof.
  induction l as [|x l IH]; cbn; intros Hnd; [lia|].
  inversion Hnd as [|? ? Hx Hl]; subst.
  destruct (String.eqb_spec (key x) k) as [<-|Hk]; [|now apply IH].
  rewrite filter_none; [cbn; lia|].
  intros r Hr. apply String.eqb_neq. intros E. apply Hx. rewrite <- E.
  now apply in_map.
Qed.

Lemma unique_key_inj {Row} (key : Row -> string) (l : list Row) (x y : Row) :
  NoDup (map key l) -> In x l -> In y l -> key x = key y -> x = y.
Proof.
  induction l as [|z l IH]; cbn; intros Hnd Hx Hy E; [contradiction|].
  inversion Hnd as [|? ? Hz Hl]; subst.
  destruct Hx as [->|Hx], Hy as [->|Hy]; auto.
  - exfalso. apply Hz. rewrite E. now apply in_map.
  - exfalso. apply Hz. rewrite <- E. now apply in_map.
Qed.

(* ------------------------------------------------------------------ *)
(** ** The guards *)

Lemma Ok_inj {A} (a b : A) : Ok a = Ok b -> a = b.
Proof. now intros [= ->]. Qed.

Lemma run_eq {A} (s s' : Store) (r r' : Result A) :
  (s, r) = (s', r') -> s = s' /\ r = r'.
Proof. now intros [= -> ->]. Qed.

Lemma bind_ok {A B} (m : Action A) (k : A -> Action B) s s' a :
  m s = (s', Ok a) -> bind m k s = k a s'.
Proof. unfold bind. now intros ->. Qed.

Lemma bind_throw {A B} (m : Action A) (k : A -> Action B) s s' code :
  m s = (s', Throw code) -> bind m k s = (s', Throw code).
Proof. unfold bind. now intros ->. Qed.

Lemma requireUser_signed_in uid s :
  requireUser (signed_in uid) s = (s, Ok (User.mk uid)).
Proof. reflexivity. Qed.

Lemma requireUser_cases context s :
  (exists u, requireUser context s = (s, Ok u))
  \/ requireUser context s = (s, Throw UNAUTHORIZED).
Proof.
  unfold requireUser, ret, throw.
  destruct (locals context) as [[[u|]]|]; cbn; eauto.
Qed.

Lemma ensureCollectionOwned_cases cid uid s :
  (exists c, ensureCollectionOwned cid uid s = (s, Ok c)
             /\ In c (SnippetCollections s)
             /\ Collection.id c = cid /\ Collection.userId c = uid)
  \/ ensureCollectionOwned cid uid s = (s, Throw NOT_FOUND).
Proof.
  unfold ensureCollectionOwned, bind, Db.select_collections, first_row,
    select_where.
  destruct (filter _ (SnippetCollections s)) as [|c rest] eqn:E; cbn.
  - now right.
  - left. exists c. split; [reflexivity|].
    assert (H : In c (c :: rest)) by now left.
    rewrite <- E in H. apply filter_In in H. destruct H as [Hin Hp].
    apply andb_prop in Hp. destruct Hp as [H1 H2].
    apply String.eqb_eq in H1, H2. auto.
Qed.

Lemma ensureCollectionOwned_throws cid uid s :
  not_owned_collection uid cid s ->
  ensureCollectionOwned cid uid s = (s, Throw NOT_FOUND).
Proof.
  intros H.
  destruct (ensureCollectionOwned_cases cid uid s)
    as [(c & _ & Hin & Hid & Hu)|E]; [|exact E].
  exfalso. exact (H c Hin Hid Hu).
Qed.

Lemma ensureSnippetOwned_cases id uid s :
  (exists r, ensureSnippetOwned id uid s = (s, Ok r)
             /\ In r (Snippets s)
             /\ Snippet.id r = id /\ Snippet.userId r = uid)
  \/ ensureSnippetOwned id uid s = (s, Throw NOT_FOUND).
Proof.
  unfold ensureSnippetOwned, bind, Db.select_snippets, first_row, select_where.
  destruct (filter _ (Snippets s)) as [|r rest] eqn:E; cbn.
  - now right.
  - left. exists r. split; [reflexivity|].
    assert (H : In r (r :: rest)) by now left.
    rewrite <- E in H. apply filter_In in H. destruct H as [Hin Hp].
    apply andb_prop in Hp. destruct Hp as [H1 H2].
    apply String.eqb_eq in H1, H2. auto.
Qed.

(** The row stored under [id], when it is [uid]'s, is the one the guard
    returns. *)
Lemma ensureSnippetOwned_found id uid s r :
  find_snippet id s = Some r -> Snippet.userId r = uid ->
  ensureSnippetOwned id uid s = (s, Ok r).
Proof.
  unfold find_snippet. intros Hf Hu.
  unfold ensureSnippetOwned, bind, Db.select_snippets, first_row, select_where.
  rewrite hd_filter_find.
  rewrite (find_weaken _ (fun x => String.eqb (Snippet.userId x) uid) _ r Hf).
  - reflexivity.
  - now apply String.eqb_eq.
Qed.

Lemma find_snippet_id id s r : find_snippet id s = Some r -> Snippet.id r = id.
Proof.
  unfold find_snippet. intros H. apply find_some in H.
  now apply String.eqb_eq.
Qed.

Lemma checked_accepts {In_ : Type} (ok : In_ -> bool) (i j : In_) :
  checked ok i = Some j -> j = i /\ ok i = true.
Proof. unfold checked. destruct (ok i); [intros [= <-]; auto | discriminate]. Qed.

(* ------------------------------------------------------------------ *)
(** ** Snippets and the collection they are filed under *)

(** C3.  A signed-in caller who creates a snippet in a collection that is
    not theirs (no collection has that id, or another user owns it) gets
    NOT_FOUND, and the call writes nothing: the store, and so its Snippets
    table, is the one before the call. *)
Theorem createSnippet_foreign_collection_not_found :
  forall (now : Z) (uuid uid : string) (input : CreateSnippet.Input) (s : Store),
    CreateSnippet.schema input = Some input ->
    not_owned_collection uid (CreateSnippet.collectionId input) s ->
    createSnippet now uuid input (signed_in uid) s = (s, Throw NOT_FOUND)
    /\ Snippets (store_after (createSnippet now uuid input (signed_in uid)) s)
       = Snippets s.
Proof.
  intros now uuid uid input s Hschema Hnot.
  assert (E : createSnippet now uuid input (signed_in uid) s
              = (s, Throw NOT_FOUND)).
  { unfold createSnippet, defineAction. rewrite Hschema.
    unfold CreateSnippet.handler.
    rewrite (bind_ok _ _ _ _ _ (requireUser_signed_in uid s)).
    apply bind_throw. now apply ensureCollectionOwned_throws. }
  split; [exact E|]. unfold store_after. now rewrite E.
Qed.

Lemma createSnippet_foreign_collection_not_found_witness :
  createSnippet 100 "s9" Sample.create_in_bobs Sample.alice Sample.store
  = (Sample.store, Throw NOT_FOUND)
  /\ Snippets (store_after
                 (createSnippet 100 "s9" Sample.create_in_bobs Sample.alice)
                 Sample.store)
     = Snippets Sample.store.
Proof.
  apply (createSnippet_foreign_collection_not_found 100 "s9" "alice"
           Sample.create_in_bobs Sample.store).
  - reflexivity.
  - intros c Hin Hid. cbn in Hin.
    destruct Hin as [<-|[<-|[<-|[]]]]; cbn in *; discriminate.
Defined.

(** C4.  A caller who moves one of their snippets to a collection that is
    not theirs (none has that id, or another user owns it), the id being
    different from the snippet's current collection, gets NOT_FOUND, and the
    store is the one before the call: the snippet's row keeps every field,
    [updatedAt] and the fields given in the same input included. *)
Theorem updateSnippet_foreign_collection_not_found :
  forall (now : Z) (uid cid : string) (input : UpdateSnippet.Input)
         (existing : Snippet.t) (s : Store),
    UpdateSnippet.schema input = Some input ->
    find_snippet (UpdateSnippet.id input) s = Some existing ->
    Snippet.userId existing = uid ->
    UpdateSnippet.collectionId input = Some cid ->
    cid <> Snippet.collectionId existing ->
    not_owned_collection uid cid s ->
    updateSnippet now input (signed_in uid) s = (s, Throw NOT_FOUND)
    /\ find_snippet (UpdateSnippet.id input)
         (store_after (updateSnippet now input (signed_in uid)) s)
       = Some existing.
Proof.
  intros now uid cid input existing s Hschema Hfind Hu Hcid Hneq Hnot.
  assert (E : updateSnippet now input (signed_in uid) s = (s, Throw NOT_FOUND)).
  { unfold updateSnippet, defineAction. rewrite Hschema.
    unfold UpdateSnippet.handler.
    rewrite (bind_ok _ _ _ _ _ (requireUser_signed_in uid s)).
    rewrite (bind_ok _ _ _ _ _ (ensureSnippetOwned_found _ _ _ _ Hfind Hu)).
    unfold UpdateSnippet.moves. rewrite Hcid.
    apply String.eqb_neq in Hneq. rewrite Hneq.
    apply bind_throw, bind_throw. now apply ensureCollectionOwned_throws. }
  split; [exact E|]. unfold store_after. rewrite E. exact Hfind.
Qed.

Lemma updateSnippet_foreign_collection_not_found_witness :
  updateSnippet 100 Sample.move_to_bobs Sample.alice Sample.store
  = (Sample.store, Throw NOT_FOUND)
  /\ find_snippet "s1"
       (store_after (updateSnippet 100 Sample.move_to_bobs Sample.alice)
                    Sample.store)
     = Some Sample.select1.
Proof.
  apply (updateSnippet_foreign_collection_not_found 100 "alice" "c3"
           Sample.move_to_bobs Sample.select1 Sample.store); try reflexivity.
  - discriminate.
  - intros c Hin Hid. cbn in Hin.
    destruct Hin as [<-|[<-|[<-|[]]]]; cbn in *; discriminate.
Defined.

(* ------------------------------------------------------------------ *)
(** ** Archiving *)

(** The row under [id] after [db.update(Snippets).set(p).where(id = id)]. *)
Lemma find_snippet_update p id s :
  find_snippet id
    (mkStore (SnippetCollections s)
       (update_where (fun r => String.eqb (Snippet.id r) id)
                     (SnippetPatch.apply p) (Snippets s)))
  = option_map (SnippetPatch.apply p) (find_snippet id s).
Proof.
  unfold find_snippet. cbn [Snippets].
  rewrite find_update_where by reflexivity.
  destruct (find _ (Snippets s)) as [r|] eqn:E; cbn; [|reflexivity].
  apply find_some in E. destruct E as [_ E]. now rewrite E.
Qed.

(** What one archive call of the owner does. *)
Lemma archiveSnippet_owned now uid input existing s :
  ArchiveSnippet.schema input = Some input ->
  find_snippet (ArchiveSnippet.id input) s = Some existing ->
  Snippet.userId existing = uid ->
  archiveSnippet now input (signed_in uid) s
  = (mkStore (SnippetCollections s)
       (update_where
          (fun r => String.eqb (Snippet.id r) (ArchiveSnippet.id input))
          (SnippetPatch.apply (ArchiveSnippet.archived now)) (Snippets s)),
     Ok (ArchiveSnippet.id input)).
Proof.
  intros Hschema Hfind Hu.
  unfold archiveSnippet, defineAction. rewrite Hschema.
  unfold ArchiveSnippet.handler.
  rewrite (bind_ok _ _ _ _ _ (requireUser_signed_in uid s)).
  rewrite (bind_ok _ _ _ _ _ (ensureSnippetOwned_found _ _ _ _ Hfind Hu)).
  rewrite (find_snippet_id _ _ _ Hfind). reflexivity.
Qed.

(** C6.  Archiving is idempotent for the owner: two archive calls in a row
    on the same snippet both return its id, none throws, and the snippet's
    row has [isArchived = true] after the first and after the second. *)
Theorem archiveSnippet_twice :
  forall (now1 now2 : Z) (uid : string) (input : ArchiveSnippet.Input)
         (existing : Snippet.t) (s : Store),
    ArchiveSnippet.schema input = Some input ->
    find_snippet (ArchiveSnippet.id input) s = Some existing ->
    Snippet.userId existing = uid ->
    exists s1 s2 r1 r2,
      archiveSnippet now1 input (signed_in uid) s
      = (s1, Ok (ArchiveSnippet.id input))
      /\ find_snippet (ArchiveSnippet.id input) s1 = Some r1
      /\ Snippet.isArchived r1 = true
      /\ archiveSnippet now2 input (signed_in uid) s1
         = (s2, Ok (ArchiveSnippet.id input))
      /\ find_snippet (ArchiveSnippet.id input) s2 = Some r2
      /\ Snippet.isArchived r2 = true.
Proof.
  intros now1 now2 uid input existing s Hschema Hfind Hu.
  pose proof (archiveSnippet_owned now1 uid input existing s Hschema Hfind Hu)
    as E1.
  set (s1 := mkStore _ _) in E1.
  assert (F1 : find_snippet (ArchiveSnippet.id input) s1
               = Some (SnippetPatch.apply (ArchiveSnippet.archived now1) existing)).
  { unfold s1. rewrite find_snippet_update, Hfind. reflexivity. }
  pose proof (archiveSnippet_owned now2 uid input _ s1 Hschema F1 Hu) as E2.
  set (s2 := mkStore _ _) in E2.
  assert (F2 : find_snippet (ArchiveSnippet.id input) s2
               = Some (SnippetPatch.apply (ArchiveSnippet.archived now2)
                         (SnippetPatch.apply (ArchiveSnippet.archived now1)
                            existing))).
  { unfold s2. rewrite find_snippet_update, F1. reflexivity. }
  exists s1, s2. eexists. eexists.
  repeat split; try eassumption; reflexivity.
Qed.

Lemma archiveSnippet_twice_witness :
  exists s1 s2 r1 r2,
    archiveSnippet 100 (ArchiveSnippet.mk "s1") Sample.alice Sample.store
    = (s1, Ok "s1")
    /\ find_snippet "s1" s1 = Some r1
    /\ Snippet.isArchived r1 = true
    /\ archiveSnippet 200 (ArchiveSnippet.mk "s1") Sample.alice s1
       = (s2, Ok "s1")
    /\ find_snippet "s1" s2 = Some r2
    /\ Snippet.isArchived r2 = true.
Proof.
  apply (archiveSnippet_twice 100 200 "alice" (ArchiveSnippet.mk "s1")
           Sample.select1 Sample.store); reflexivity.
Defined.

(* ------------------------------------------------------------------ *)
(** ** Listing *)

(** What a list of snippets that returns has returned. *)
Lemma listSnippets_returns raw context s s' page :
  listSnippets raw context s = (s', Ok page) ->
  exists input u,
    ListSnippets.schema raw = Some input
    /\ requireUser context s = (s, Ok u)
    /\ s' = s
    /\ items page
       = limit_offset (ListSnippets.pageSize input)
           ((ListSnippets.page input - 1) * ListSnippets.pageSize input)
           (orderBy_desc Snippet.updatedAt
              (select_where (ListSnippets.matches (User.id u) input)
                            (Snippets s)))
    /\ total page = List.length (items page).
Proof.
  unfold listSnippets, defineAction.
  destruct (ListSnippets.schema raw) as [input|]; [|discriminate].
  unfold ListSnippets.handler.
  destruct (requireUser_cases context s) as [[u Eu]|Eu];
    [rewrite (bind_ok _ _ _ _ _ Eu) | rewrite (bind_throw _ _ _ _ _ Eu);
                                       discriminate].
  intros H. exists input, u. split; [reflexivity|]. split; [exact Eu|].
  assert (Hfilters : forall f,
             (forall r, f r = ListSnippets.matches (User.id u) input r) ->
             forall n k,
               limit_offset n k
                 (orderBy_desc Snippet.updatedAt (select_where f (Snippets s)))
               = limit_offset n k
                   (orderBy_desc Snippet.updatedAt
                      (select_where (ListSnippets.matches (User.id u) input)
                                    (Snippets s)))).
  { intros f Hf n k. unfold select_where. now rewrite (filter_ext _ _ Hf). }
  assert (Hdone : forall f,
             (forall r, f r = ListSnippets.matches (User.id u) input r) ->
             (s, Ok (mkPage
                       (limit_offset (ListSnippets.pageSize input)
                          ((ListSnippets.page input - 1)
                           * ListSnippets.pageSize input)
                          (orderBy_desc Snippet.updatedAt
                             (select_where f (Snippets s))))
                       (List.length
                          (limit_offset (ListSnippets.pageSize input)
                             ((ListSnippets.page input - 1)
                              * ListSnippets.pageSize input)
                             (orderBy_desc Snippet.updatedAt
                                (select_where f (Snippets s)))))))
             = (s', Ok page) ->
             s' = s
             /\ items page
                = limit_offset (ListSnippets.pageSize input)
                    ((ListSnippets.page input - 1) * ListSnippets.pageSize input)
                    (orderBy_desc Snippet.updatedAt
                       (select_where (ListSnippets.matches (User.id u) input)
                                     (Snippets s)))
             /\ total page = List.length (items page)).
  { intros f Hf E. injection E as <- <-. cbn [items total].
    rewrite (Hfilters f Hf). auto. }
  destruct (ListSnippets.collectionId input) as [cid|] eqn:Ecid.
  - destruct (truthy_string (Some cid)) eqn:Et.
    + destruct (ensureCollectionOwned_cases cid (User.id u) s)
        as [(c & Ec & _)|Ec].
      * rewrite (bind_ok _ _ _ _ _ (bind_ok _ _ _ _ _ Ec)) in H.
        unfold ret in H. apply Hdone in H; [exact H|].
        intros r. unfold ListSnippets.and_, ListSnippets.matches.
        rewrite Ecid, Et.
        destruct (ListSnippets.includeArchived input); cbn;
          rewrite ?andb_true_r, ?andb_assoc; reflexivity.
      * rewrite (bind_throw _ _ _ _ _ (bind_throw _ _ _ _ _ Ec)) in H.
        discriminate.
    + unfold bind, ret in H. apply Hdone in H; [exact H|].
      intros r. unfold ListSnippets.and_, ListSnippets.matches.
      rewrite Ecid, Et.
      destruct (ListSnippets.includeArchived input); cbn;
        rewrite ?andb_true_r, ?andb_assoc; reflexivity.
  - unfold bind, ret in H. apply Hdone in H; [exact H|].
    intros r. unfold ListSnippets.and_, ListSnippets.matches.
    rewrite Ecid. cbn [truthy_string].
    destruct (ListSnippets.includeArchived input); cbn;
      rewrite ?andb_true_r, ?andb_assoc; reflexivity.
Qed.

(** What a list of collections that returns has returned. *)
Lemma listMySnippetCollections_returns raw context s s' page :
  listMySnippetCollections raw context s = (s', Ok page) ->
  exists input u,
    ListMySnippetCollections.schema raw = Some input
    /\ requireUser context s = (s, Ok u)
    /\ s' = s
    /\ items page
       = limit_offset (ListMySnippetCollections.pageSize input)
           ((ListMySnippetCollections.page input - 1)
            * ListMySnippetCollections.pageSize input)
           (orderBy_desc Collection.createdAt
              (select_where
                 (fun c => String.eqb (Collection.userId c) (User.id u))
                 (SnippetCollections s)))
    /\ total page = List.length (items page).
Proof.
  unfold listMySnippetCollections, defineAction.
  destruct (ListMySnippetCollections.schema raw) as [input|]; [|discriminate].
  unfold ListMySnippetCollections.handler.
  destruct (requireUser_cases context s) as [[u Eu]|Eu];
    [rewrite (bind_ok _ _ _ _ _ Eu) | rewrite (bind_throw _ _ _ _ _ Eu);
                                       discriminate].
  intros H. injection H as <- <-. exists input, u. cbn [items total]. auto.
Qed.

Lemma ListSnippets_schema_fields raw input :
  ListSnippets.schema raw = Some input ->
  input = ListSnippets.mk (ListSnippets.raw_collectionId raw)
            (nullish (ListSnippets.raw_includeArchived raw) false)
            (nullish (ListSnippets.raw_page raw) 1%Z)
            (nullish (ListSnippets.raw_pageSize raw) 20%Z).
Proof.
  unfold ListSnippets.schema. cbn.
  destruct (_ && _); [now intros [= <-] | discriminate].
Qed.

(** C7.  When archived snippets are not asked for ([includeArchived] false,
    or left out, which the schema reads as false), no row of the page that
    listSnippets returns is archived. *)
Theorem listSnippets_excludes_archived :
  forall (raw : ListSnippets.Raw) (context : ActionAPIContext)
         (s s' : Store) (page : Page Snippet.t) (r : Snippet.t),
    ListSnippets.raw_includeArchived raw = Some false
    \/ ListSnippets.raw_includeArchived raw = None ->
    listSnippets raw context s = (s', Ok page) ->
    In r (items page) ->
    Snippet.isArchived r = false.
Proof.
  intros raw context s s' page r Hinc Hrun Hin.
  apply listSnippets_returns in Hrun.
  destruct Hrun as (input & u & Hschema & _ & _ & Hitems & _).
  apply ListSnippets_schema_fields in Hschema.
  assert (Hfalse : ListSnippets.includeArchived input = false)
    by (subst input; cbn; destruct Hinc as [-> | ->]; reflexivity).
  rewrite Hitems in Hin.
  apply In_limit_offset, In_orderBy_desc in Hin.
  unfold select_where in Hin. apply filter_In in Hin. destruct Hin as [_ Hm].
  unfold ListSnippets.matches in Hm. rewrite Hfalse in Hm.
  apply andb_prop in Hm. destruct Hm as [_ Hm]. cbn in Hm.
  unfold ListSnippets.not_archived in Hm. now apply Bool.eqb_prop in Hm.
Qed.

Lemma listSnippets_excludes_archived_witness :
  listSnippets Sample.list_default Sample.alice Sample.store
  = (Sample.store, Ok Sample.list_default_page)
  /\ In Sample.select1 (items Sample.list_default_page)
  /\ Snippet.isArchived Sample.select1 = false.
Proof.
  assert (Hrun : listSnippets Sample.list_default Sample.alice Sample.store
                 = (Sample.store, Ok Sample.list_default_page))
    by reflexivity.
  assert (Hin : In Sample.select1 (items Sample.list_default_page))
    by (cbn; auto).
  split; [exact Hrun|]. split; [exact Hin|].
  apply (listSnippets_excludes_archived Sample.list_default Sample.alice
           Sample.store Sample.store Sample.list_default_page Sample.select1).
  - right. reflexivity.
  - exact Hrun.
  - exact Hin.
Defined.

(** C8.  In what listMySnippetCollections and listSnippets return, [total]
    is the length of [items], the page that offset and limit leave: the
    matching rows past the offset, [pageSize] of them at most, and not the
    number of all matching rows. *)
Theorem list_total_is_page_length :
  forall (uid : string) (s : Store),
    (forall raw s' page,
        listMySnippetCollections raw (signed_in uid) s = (s', Ok page) ->
        total page = List.length (items page)
        /\ exists input,
            ListMySnippetCollections.schema raw = Some input
            /\ total page
               = Nat.min
                   (Z.to_nat (ListMySnippetCollections.pageSize input))
                   (List.length
                      (select_where
                         (fun c => String.eqb (Collection.userId c) uid)
                         (SnippetCollections s))
                    - Z.to_nat ((ListMySnippetCollections.page input - 1)
                                * ListMySnippetCollections.pageSize input)))
    /\ (forall raw s' page,
           listSnippets raw (signed_in uid) s = (s', Ok page) ->
           total page = List.length (items page)
           /\ exists input,
               ListSnippets.schema raw = Some input
               /\ total page
                  = Nat.min
                      (Z.to_nat (ListSnippets.pageSize input))
                      (List.length
                         (select_where (ListSnippets.matches uid input)
                                       (Snippets s))
                       - Z.to_nat ((ListSnippets.page input - 1)
                                   * ListSnippets.pageSize input))).
Proof.
  intros uid s. split; intros raw s' page Hrun.
  - apply listMySnippetCollections_returns in Hrun.
    destruct Hrun as (input & u & Hschema & Hu & _ & Hitems & Htotal).
    rewrite requireUser_signed_in in Hu. injection Hu as <-.
    split; [exact Htotal|]. exists input. split; [exact Hschema|].
    rewrite Htotal, Hitems, length_limit_offset, length_orderBy_desc.
    reflexivity.
  - apply listSnippets_returns in Hrun.
    destruct Hrun as (input & u & Hschema & Hu & _ & Hitems & Htotal).
    rewrite requireUser_signed_in in Hu. injection Hu as <-.
    split; [exact Htotal|]. exists input. split; [exact Hschema|].
    rewrite Htotal, Hitems, length_limit_offset, length_orderBy_desc.
    reflexivity.
Qed.

Lemma list_total_is_page_length_witness :
  (listMySnippetCollections Sample.collections_by_one Sample.alice Sample.store
   = (Sample.store, Ok Sample.collections_first_page)
   /\ total Sample.collections_first_page
      = List.length (items Sample.collections_first_page))
  /\ (listSnippets Sample.snippets_by_one Sample.alice Sample.store
      = (Sample.store, Ok Sample.snippets_first_page)
      /\ total Sample.snippets_first_page
         = List.length (items Sample.snippets_first_page)).
Proof.
  assert (H1 : listMySnippetCollections Sample.collections_by_one Sample.alice
                 Sample.store
               = (Sample.store, Ok Sample.collections_first_page))
    by reflexivity.
  assert (H2 : listSnippets Sample.snippets_by_one Sample.alice Sample.store
               = (Sample.store, Ok Sample.snippets_first_page))
    by reflexivity.
  split; (split; [assumption|]).
  - exact (proj1 (proj1 (list_total_is_page_length "alice" Sample.store)
                    Sample.collections_by_one Sample.store
                    Sample.collections_first_page H1)).
  - exact (proj1 (proj2 (list_total_is_page_length "alice" Sample.store)
                    Sample.snippets_by_one Sample.store
                    Sample.snippets_first_page H2)).
Defined.

(** Alice has two collections and two snippets, and a page of one row
    reports a total of one. *)
Example total_is_not_the_match_count :
  total Sample.collections_first_page = 1%nat
  /\ List.length (select_where
                    (fun c => String.eqb (Collection.userId c) "alice")
                    (SnippetCollections Sample.store)) = 2%nat
  /\ total Sample.snippets_first_page = 1%nat
  /\ List.length (select_where (ListSnippets.by_user "alice")
                               (Snippets Sample.store)) = 2%nat.
Proof. repeat split. Qed.



(** The page of that call: Alice's snippets of both her collections. *)
Example list_empty_collectionId_page :
  listSnippets Sample.list_empty_collectionId Sample.alice Sample.store
  = (Sample.store, Ok (mkPage [Sample.loop; Sample.select1] 2)).
Proof. reflexivity. Qed.

(* ------------------------------------------------------------------ *)
(** ** Writing collections *)

Lemma CollectionPatch_apply_userId p c :
  Collection.userId (CollectionPatch.apply p c) = Collection.userId c.
Proof. reflexivity. Qed.

Lemma find_collection_id id s c :
  find_collection id s = Some c -> Collection.id c = id.
Proof.
  unfold find_collection. intros H. apply find_some in H.
  now apply String.eqb_eq.
Qed.

Lemma ensureCollectionOwned_found id uid s c :
  find_collection id s = Some c -> Collection.userId c = uid ->
  ensureCollectionOwned id uid s = (s, Ok c).
Proof.
  unfold find_collection. intros Hf Hu.
  unfold ensureCollectionOwned, bind, Db.select_collections, first_row,
    select_where.
  rewrite hd_filter_find.
  rewrite (find_weaken _ (fun x => String.eqb (Collection.userId x) uid) _ c Hf).
  - reflexivity.
  - now apply String.eqb_eq.
Qed.

Lemma when_clear_defaults b uid now s :
  when_ b (clear_defaults uid now) s
  = (mkStore (defaults_cleared b uid now (SnippetCollections s)) (Snippets s),
     Ok tt).
Proof. destruct b; [reflexivity | now destruct s]. Qed.

(** What createSnippetCollection does once the caller is known. *)
Lemma createSnippetCollection_run now uuid input context u s :
  CreateSnippetCollection.schema input = Some input ->
  requireUser context s = (s, Ok u) ->
  createSnippetCollection now uuid input context s
  = let rows :=
      defaults_cleared
        (truthy_bool (CreateSnippetCollection.isDefault input)) (User.id u) now
        (SnippetCollections s) in
    if existsb (fun r => String.eqb (Collection.id r) uuid) rows
    then (mkStore rows (Snippets s), Throw CONSTRAINT)
    else (mkStore (rows ++ [new_collection now uuid (User.id u) input])
                  (Snippets s),
          Ok (new_collection now uuid (User.id u) input)).
Proof.
  intros Hschema Hreq. unfold createSnippetCollection, defineAction.
  rewrite Hschema. unfold CreateSnippetCollection.handler.
  rewrite (bind_ok _ _ _ _ _ Hreq).
  rewrite (bind_ok _ _ _ _ _ (when_clear_defaults _ _ _ _)).
  cbv zeta. fold (new_collection now uuid (User.id u) input).
  unfold bind, Db.insert_collection.
  cbn [SnippetCollections Snippets Collection.id new_collection].
  destruct (existsb _ _); reflexivity.
Qed.

Lemma createSnippetCollection_signed_in now uuid uid input s :
  CreateSnippetCollection.schema input = Some input ->
  createSnippetCollection now uuid input (signed_in uid) s
  = let rows :=
      defaults_cleared
        (truthy_bool (CreateSnippetCollection.isDefault input)) uid now
        (SnippetCollections s) in
    if existsb (fun r => String.eqb (Collection.id r) uuid) rows
    then (mkStore rows (Snippets s), Throw CONSTRAINT)
    else (mkStore (rows ++ [new_collection now uuid uid input]) (Snippets s),
          Ok (new_collection now uuid uid input)).
Proof.
  intros Hschema.
  exact (createSnippetCollection_run now uuid input (signed_in uid)
           (User.mk uid) s Hschema (requireUser_signed_in uid s)).
Qed.

(** What updateSnippetCollection does once the guard has let it through. *)
Lemma updateSnippetCollection_run now input context u existing s :
  UpdateSnippetCollection.schema input = Some input ->
  requireUser context s = (s, Ok u) ->
  ensureCollectionOwned (UpdateSnippetCollection.id input) (User.id u) s
  = (s, Ok existing) ->
  updateSnippetCollection now input context s
  = let s' :=
      mkStore
        (update_where
           (fun c => String.eqb (Collection.id c)
                                (UpdateSnippetCollection.id input))
           (CollectionPatch.apply (UpdateSnippetCollection.updateData now input))
           (defaults_cleared
              (truthy_bool (UpdateSnippetCollection.isDefault input))
              (User.id u) now (SnippetCollections s)))
        (Snippets s) in
    (s', Ok (find_collection (UpdateSnippetCollection.id input) s')).
Proof.
  intros Hschema Hreq Hown. unfold updateSnippetCollection, defineAction.
  rewrite Hschema. unfold UpdateSnippetCollection.handler.
  rewrite (bind_ok _ _ _ _ _ Hreq).
  rewrite (bind_ok _ _ _ _ _ Hown).
  rewrite (bind_ok _ _ _ _ _ (when_clear_defaults _ _ _ _)).
  assert (Hid : Collection.id existing = UpdateSnippetCollection.id input).
  { destruct (ensureCollectionOwned_cases
                (UpdateSnippetCollection.id input) (User.id u) s)
      as [(c & Ec & _ & Hc & _)|Ec]; rewrite Ec in Hown.
    - now injection Hown as <-.
    - discriminate. }
  rewrite Hid.
  unfold bind, Db.update_collections, Db.select_collections, ret, first_row,
    select_where, find_collection.
  cbn [SnippetCollections Snippets]. now rewrite hd_filter_find.
Qed.

(** What updateSnippetCollection does for the owner of the collection. *)
Lemma updateSnippetCollection_owned now uid input existing s :
  UpdateSnippetCollection.schema input = Some input ->
  find_collection (UpdateSnippetCollection.id input) s = Some existing ->
  Collection.userId existing = uid ->
  updateSnippetCollection now input (signed_in uid) s
  = let s' :=
      mkStore
        (update_where
           (fun c => String.eqb (Collection.id c)
                                (UpdateSnippetCollection.id input))
           (CollectionPatch.apply (UpdateSnippetCollection.updateData now input))
           (defaults_cleared
              (truthy_bool (UpdateSnippetCollection.isDefault input)) uid now
              (SnippetCollections s)))
        (Snippets s) in
    (s', Ok (find_collection (UpdateSnippetCollection.id input) s')).
Proof.
  intros Hschema Hfind Hu.
  exact (updateSnippetCollection_run now input (signed_in uid) (User.mk uid)
           existing s Hschema (requireUser_signed_in uid s)
           (ensureCollectionOwned_found _ _ _ _ Hfind Hu)).
Qed.

(** The row under [id] after the two updates of updateSnippetCollection. *)
Lemma find_collection_updated p b uid now id rows snippets existing :
  find_collection id (mkStore rows snippets) = Some existing ->
  Collection.userId existing = uid ->
  find_collection id
    (mkStore
       (update_where (fun c => String.eqb (Collection.id c) id)
                     (CollectionPatch.apply p)
                     (defaults_cleared b uid now rows))
       snippets)
  = Some (CollectionPatch.apply p
            (if b then CollectionPatch.apply (cleared now) existing
             else existing)).
Proof.
  unfold find_collection. cbn [SnippetCollections]. intros Hf Hu.
  rewrite find_update_where by reflexivity.
  assert (Hid : String.eqb (Collection.id existing) id = true)
    by (apply find_some in Hf; tauto).
  unfold defaults_cleared. destruct b.
  - rewrite find_update_where by reflexivity. rewrite Hf. cbn [option_map].
    assert (Hu' : String.eqb (Collection.userId existing) uid = true)
      by now apply String.eqb_eq.
    rewrite Hu'. cbn [CollectionPatch.apply Collection.id]. now rewrite Hid.
  - rewrite Hf. cbn [option_map]. now rewrite Hid.
Qed.

(** C5 as stated fails: the schema accepts the empty string for
    [description], and the update stores it over a description that held
    text. *)
Lemma updateSnippetCollection_empties_description :
  UpdateSnippetCollection.schema Sample.empty_description
  = Some Sample.empty_description
  /\ option_map Collection.description (find_collection "c1" Sample.store)
     = Some (Some "queries")
  /\ is_empty_text (Some "queries") = false
  /\ option_map Collection.description
       (find_collection "c1"
          (store_after
             (updateSnippetCollection 100 Sample.empty_description Sample.alice)
             Sample.store))
     = Some (Some EmptyString)
  /\ is_empty_text (Some EmptyString) = true.
Proof. repeat split. Qed.

(** C5, amended.  For the owner of a collection and an input the schema
    accepts, updateSnippetCollection returns the row it has stored, and this
    row's [description] (resp. [icon]) is the one given in the input, the
    empty string included, or the old one when the input gives none.  Hence
    the update never turns a present description or icon into NULL. *)
Theorem updateSnippetCollection_text_set_or_kept :
  forall (now : Z) (uid : string) (input : UpdateSnippetCollection.Input)
         (existing : Collection.t) (s : Store),
    UpdateSnippetCollection.schema input = Some input ->
    find_collection (UpdateSnippetCollection.id input) s = Some existing ->
    Collection.userId existing = uid ->
    exists s' row,
      updateSnippetCollection now input (signed_in uid) s = (s', Ok (Some row))
      /\ find_collection (UpdateSnippetCollection.id input) s' = Some row
      /\ Collection.description row
         = match UpdateSnippetCollection.description input with
           | Some d => Some d
           | None => Collection.description existing
           end
      /\ Collection.icon row
         = match UpdateSnippetCollection.icon input with
           | Some i => Some i
           | None => Collection.icon existing
           end
      /\ (Collection.description row = None ->
          Collection.description existing = None)
      /\ (Collection.icon row = None -> Collection.icon existing = None).
Proof.
  intros now uid input existing s Hschema Hfind Hu.
  rewrite (updateSnippetCollection_owned now uid input existing s
             Hschema Hfind Hu).
  cbv zeta.
  assert (Hfind' : find_collection (UpdateSnippetCollection.id input)
                     (mkStore (SnippetCollections s) (Snippets s))
                   = Some existing) by now destruct s.
  pose proof (find_collection_updated
                (UpdateSnippetCollection.updateData now input)
                (truthy_bool (UpdateSnippetCollection.isDefault input))
                uid now _ _ _ _ Hfind' Hu) as F.
  eexists. eexists. split; [rewrite F; reflexivity|]. split; [exact F|].
  destruct (truthy_bool (UpdateSnippetCollection.isDefault input));
    cbn [CollectionPatch.apply Collection.description Collection.icon
         UpdateSnippetCollection.updateData CollectionPatch.description
         CollectionPatch.icon cleared];
    destruct (UpdateSnippetCollection.description input),
             (UpdateSnippetCollection.icon input);
    repeat split; auto; discriminate.
Qed.

Lemma updateSnippetCollection_text_set_or_kept_witness :
  exists s' row,
    updateSnippetCollection 100 Sample.retitle_go Sample.alice Sample.store
    = (s', Ok (Some row))
    /\ find_collection "c2" s' = Some row
    /\ Collection.description row = None
    /\ Collection.icon row = Some "gopher"
    /\ (Collection.description row = None -> @None string = None)
    /\ (Collection.icon row = None -> Some "laptop" = None).
Proof.
  apply (updateSnippetCollection_text_set_or_kept 100 "alice"
           Sample.retitle_go Sample.go Sample.store); reflexivity.
Defined.

(** The rows of [uid] after the bulk update. *)
Lemma In_defaults_cleared uid now rows c :
  In c rows -> Collection.userId c = uid ->
  In (CollectionPatch.apply (cleared now) c) (defaults_cleared true uid now rows).
Proof.
  intros Hin Hu. unfold defaults_cleared, update_where.
  apply in_map_iff. exists c. split; [|exact Hin].
  apply String.eqb_eq in Hu. now rewrite Hu.
Qed.

Lemma defaults_cleared_inv uid now rows c' :
  In c' (defaults_cleared true uid now rows) ->
  Collection.userId c' = uid ->
  Collection.isDefault c' = false /\ Collection.updatedAt c' = now.
Proof.
  unfold defaults_cleared, update_where. intros Hin Hu.
  apply in_map_iff in Hin. destruct Hin as (c & <- & _).
  destruct (String.eqb_spec (Collection.userId c) uid) as [_|Hne].
  - split; reflexivity.
  - contradiction.
Qed.

(** C9.  With [isDefault = true] in the input, both collection writers stamp
    every collection of the caller, not only the one written: a collection
    [c] of the caller other than the target is stored afterwards with
    [isDefault = false] and [updatedAt = now], its other fields as before,
    and every collection of the caller has [updatedAt = now]. *)
Theorem default_clearing_stamps_siblings :
  forall (now : Z) (uid : string) (s : Store) (c : Collection.t),
    In c (SnippetCollections s) ->
    Collection.userId c = uid ->
    let stamped :=
      Collection.mk (Collection.id c) (Collection.userId c) (Collection.name c)
                    (Collection.description c) (Collection.icon c) false
                    (Collection.createdAt c) now in
    (forall uuid input,
        CreateSnippetCollection.schema input = Some input ->
        CreateSnippetCollection.isDefault input = Some true ->
        let s' := store_after
                    (createSnippetCollection now uuid input (signed_in uid)) s in
        In stamped (SnippetCollections s')
        /\ forall c', In c' (SnippetCollections s') ->
                      Collection.userId c' = uid ->
                      Collection.updatedAt c' = now)
    /\ (forall input existing,
           UpdateSnippetCollection.schema input = Some input ->
           UpdateSnippetCollection.isDefault input = Some true ->
           find_collection (UpdateSnippetCollection.id input) s = Some existing ->
           Collection.userId existing = uid ->
           Collection.id c <> UpdateSnippetCollection.id input ->
           let s' := store_after
                       (updateSnippetCollection now input (signed_in uid)) s in
           In stamped (SnippetCollections s')
           /\ forall c', In c' (SnippetCollections s') ->
                         Collection.userId c' = uid ->
                         Collection.updatedAt c' = now).
Proof.
  intros now uid s c Hin Hu stamped.
  assert (Hst : stamped = CollectionPatch.apply (cleared now) c) by reflexivity.
  split.
  - intros uuid input Hschema Hdef s'. subst s'. unfold store_after.
    rewrite (createSnippetCollection_signed_in _ _ _ _ _ Hschema).
    rewrite Hdef. cbv zeta. cbn [truthy_bool].
    pose proof (In_defaults_cleared uid now _ c Hin Hu) as Hc.
    rewrite <- Hst in Hc.
    destruct (existsb _ _); cbn [fst SnippetCollections].
    + split; [exact Hc|]. intros c' Hc' Hu'.
      now apply (defaults_cleared_inv uid now _ c' Hc' Hu').
    + split; [apply in_or_app; now left|]. intros c' Hc' Hu'.
      apply in_app_or in Hc'. destruct Hc' as [Hc'|[<-|[]]].
      * now apply (defaults_cleared_inv uid now _ c' Hc' Hu').
      * reflexivity.
  - intros input existing Hschema Hdef Hfind Hex Hne s'. subst s'.
    unfold store_after.
    rewrite (updateSnippetCollection_owned _ _ _ _ _ Hschema Hfind Hex).
    rewrite Hdef. cbv zeta. cbn [truthy_bool fst SnippetCollections].
    split.
    + unfold update_where at 1. apply in_map_iff. exists stamped. split.
      * apply String.eqb_neq in Hne. subst stamped.
        cbn [Collection.id]. now rewrite Hne.
      * rewrite Hst. now apply In_defaults_cleared.
    + intros c' Hc' Hu'. unfold update_where at 1 in Hc'.
      apply in_map_iff in Hc'. destruct Hc' as (c0 & <- & Hc0).
      destruct (String.eqb _ _); [reflexivity|].
      now apply (defaults_cleared_inv uid now _ c0 Hc0 Hu').
Qed.

Lemma default_clearing_stamps_siblings_witness :
  (In (Collection.mk "c1" "alice" "SQL" (Some "queries") None false 10 100)
      (SnippetCollections
         (store_after
            (createSnippetCollection 100 "c9" Sample.new_default Sample.alice)
            Sample.store))
   /\ forall c',
       In c' (SnippetCollections
                (store_after
                   (createSnippetCollection 100 "c9" Sample.new_default
                                            Sample.alice)
                   Sample.store)) ->
       Collection.userId c' = "alice" -> Collection.updatedAt c' = 100%Z)
  /\ (In (Collection.mk "c1" "alice" "SQL" (Some "queries") None false 10 100)
         (SnippetCollections
            (store_after
               (updateSnippetCollection 100 Sample.retitle_go Sample.alice)
               Sample.store))
      /\ forall c',
          In c' (SnippetCollections
                   (store_after
                      (updateSnippetCollection 100 Sample.retitle_go
                                               Sample.alice)
                      Sample.store)) ->
          Collection.userId c' = "alice" -> Collection.updatedAt c' = 100%Z).
Proof.
  assert (Hin : In Sample.sql (SnippetCollections Sample.store))
    by (cbn; auto).
  pose proof (default_clearing_stamps_siblings 100 "alice" Sample.store
                Sample.sql Hin eq_refl) as [Hcreate Hupdate].
  split.
  - apply (Hcreate "c9" Sample.new_default); reflexivity.
  - apply (Hupdate Sample.retitle_go Sample.go); try reflexivity.
    discriminate.
Defined.

(* ------------------------------------------------------------------ *)
(** ** One default collection per user *)

Lemma defineAction_checked {In_ Out : Type} (ok : In_ -> bool)
      (handler : In_ -> ActionAPIContext -> Action Out) i context s :
  defineAction (checked ok) handler i context s = (s, Throw BAD_REQUEST)
  \/ (checked ok i = Some i
      /\ defineAction (checked ok) handler i context s = handler i context s).
Proof.
  unfold defineAction, checked. destruct (ok i); [right | left]; auto.
Qed.

Lemma ids_update_collections p q rows :
  map Collection.id (update_where p (CollectionPatch.apply q) rows)
  = map Collection.id rows.
Proof.
  unfold update_where. rewrite map_map. apply map_ext.
  intros c. now destruct (p c).
Qed.

Lemma ids_defaults_cleared b uid now rows :
  map Collection.id (defaults_cleared b uid now rows) = map Collection.id rows.
Proof. destruct b; [apply ids_update_collections | reflexivity]. Qed.

Lemma ids_update_snippets p q rows :
  map Snippet.id (update_where p (SnippetPatch.apply q) rows)
  = map Snippet.id rows.
Proof.
  unfold update_where. rewrite map_map. apply map_ext.
  intros r. now destruct (p r).
Qed.

Lemma NoDup_insert {Row} (key : Row -> string) (rows : list Row) (x : Row) :
  NoDup (map key rows) ->
  existsb (fun r => String.eqb (key r) (key x)) rows = false ->
  NoDup (map key (rows ++ [x])).
Proof.
  intros Hnd Hex. rewrite map_app. cbn.
  apply NoDup_app; [exact Hnd | repeat constructor; intros [] |].
  intros k Hk [<-|[]]. apply in_map_iff in Hk. destruct Hk as (r & Hr & Hin).
  assert (Hex' : existsb (fun r => String.eqb (key r) (key x)) rows = true).
  { apply existsb_exists. exists r. split; [exact Hin|].
    now apply String.eqb_eq. }
  rewrite Hex in Hex'. discriminate.
Qed.

Lemma defaults_cleared_le uid' b uid now rows :
  (List.length (filter (is_default_of uid') (defaults_cleared b uid now rows))
   <= List.length (filter (is_default_of uid') rows))%nat.
Proof.
  destruct b; [|cbn; lia]. unfold defaults_cleared, update_where.
  apply filter_map_length_le. intros c _.
  destruct (String.eqb (Collection.userId c) uid); [|auto].
  unfold is_default_of. cbn. rewrite andb_false_r. discriminate.
Qed.

Lemma defaults_cleared_none uid now rows :
  filter (is_default_of uid) (defaults_cleared true uid now rows) = [].
Proof.
  apply filter_none. intros c Hc. unfold is_default_of.
  destruct (String.eqb_spec (Collection.userId c) uid) as [Hu|]; [|reflexivity].
  now rewrite (proj1 (defaults_cleared_inv uid now rows c Hc Hu)).
Qed.

(** A collection found by its key is the only row under that key. *)
Lemma find_collection_unique s c :
  NoDup (map Collection.id (SnippetCollections s)) ->
  In c (SnippetCollections s) ->
  find_collection (Collection.id c) s = Some c.
Proof.
  intros Hnd Hin. unfold find_collection.
  destruct (find _ (SnippetCollections s)) as [c'|] eqn:E.
  - apply find_some in E. destruct E as [Hin' E]. apply String.eqb_eq in E.
    f_equal. exact (unique_key_inj Collection.id _ c' c Hnd Hin' Hin E).
  - exfalso. apply (find_none _ _ E) in Hin.
    now rewrite String.eqb_refl in Hin.
Qed.

Lemma createSnippetCollection_invariant now uuid input context s :
  ids_unique s -> single_default s ->
  ids_unique (store_after (createSnippetCollection now uuid input context) s)
  /\ single_default
       (store_after (createSnippetCollection now uuid input context) s).
Proof.
  intros Hids Hone. unfold store_after.
  destruct (defineAction_checked
              (fun i => min1 (CreateSnippetCollection.name i))
              (CreateSnippetCollection.handler now uuid) input context s)
    as [E|[Hschema _]].
  { unfold createSnippetCollection, CreateSnippetCollection.schema.
    rewrite E. auto. }
  destruct (requireUser_cases context s) as [[u Eu]|Eu].
  2:{ unfold createSnippetCollection, defineAction,
        CreateSnippetCollection.schema.
      rewrite Hschema. unfold CreateSnippetCollection.handler.
      rewrite (bind_throw _ _ _ _ _ Eu). auto. }
  rewrite (createSnippetCollection_run now uuid input context u s Hschema Eu).
  cbv zeta. destruct Hids as [Hc Hs].
  set (b := truthy_bool (CreateSnippetCollection.isDefault input)).
  set (rows := defaults_cleared b (User.id u) now (SnippetCollections s)).
  assert (Hrows : forall uid',
             (List.length (filter (is_default_of uid') rows) <= 1)%nat).
  { intros uid'. specialize (Hone uid'). unfold defaults_of in Hone.
    pose proof (defaults_cleared_le uid' b (User.id u) now
                  (SnippetCollections s)). fold rows in H. lia. }
  destruct (existsb _ rows) eqn:Eex; cbn [fst]; split.
  - split; cbn [SnippetCollections Snippets]; [|exact Hs].
    unfold rows. now rewrite ids_defaults_cleared.
  - intros uid'. unfold defaults_of. cbn [SnippetCollections]. apply Hrows.
  - split; cbn [SnippetCollections Snippets]; [|exact Hs].
    apply NoDup_insert.
    + unfold rows. now rewrite ids_defaults_cleared.
    + exact Eex.
  - intros uid'. unfold defaults_of. cbn [SnippetCollections].
    rewrite filter_app, length_app. cbn [filter].
    destruct (is_default_of uid' (new_collection now uuid (User.id u) input))
      eqn:Enew; cbn [List.length]; [|specialize (Hrows uid'); lia].
    unfold is_default_of, new_collection in Enew. cbn in Enew.
    apply andb_prop in Enew. destruct Enew as [Hu Hd].
    apply String.eqb_eq in Hu. subst uid'.
    assert (Hb : b = true).
    { unfold b. destruct (CreateSnippetCollection.isDefault input) as [[|]|];
        cbn in Hd; try discriminate; reflexivity. }
    unfold rows. rewrite Hb, defaults_cleared_none. cbn. lia.
Qed.

Lemma updateSnippetCollection_invariant now input context s :
  ids_unique s -> single_default s ->
  ids_unique (store_after (updateSnippetCollection now input context) s)
  /\ single_default (store_after (updateSnippetCollection now input context) s).
Proof.
  intros Hids Hone. unfold store_after.
  destruct (defineAction_checked
              (fun i => min1 (UpdateSnippetCollection.id i)
                        && optional min1 (UpdateSnippetCollection.name i))
              (UpdateSnippetCollection.handler now) input context s)
    as [E|[Hschema _]].
  { unfold updateSnippetCollection, UpdateSnippetCollection.schema.
    rewrite E. auto. }
  destruct (requireUser_cases context s) as [[u Eu]|Eu].
  2:{ unfold updateSnippetCollection, defineAction,
        UpdateSnippetCollection.schema.
      rewrite Hschema. unfold UpdateSnippetCollection.handler.
      rewrite (bind_throw _ _ _ _ _ Eu). auto. }
  destruct (ensureCollectionOwned_cases
              (UpdateSnippetCollection.id input) (User.id u) s)
    as [(existing & Eown & Hin & Hid & Hu)|Eown].
  2:{ unfold updateSnippetCollection, defineAction,
        UpdateSnippetCollection.schema.
      rewrite Hschema. unfold UpdateSnippetCollection.handler.
      rewrite (bind_ok _ _ _ _ _ Eu), (bind_throw _ _ _ _ _ Eown). auto. }
  rewrite (updateSnippetCollection_run now input context u existing s
             Hschema Eu Eown).
  cbv zeta. cbn [fst]. destruct Hids as [Hc Hs].
  set (k := UpdateSnippetCollection.id input) in *.
  set (b := truthy_bool (UpdateSnippetCollection.isDefault input)).
  set (rows := defaults_cleared b (User.id u) now (SnippetCollections s)).
  set (upd := CollectionPatch.apply
                (UpdateSnippetCollection.updateData now input)).
  assert (Hids' : NoDup (map Collection.id
                           (update_where
                              (fun c => String.eqb (Collection.id c) k)
                              upd rows))).
  { unfold upd. rewrite ids_update_collections. unfold rows.
    now rewrite ids_defaults_cleared. }
  split; [split; cbn [SnippetCollections Snippets]; assumption|].
  intros uid'. unfold defaults_of. cbn [SnippetCollections].
  (* the rows under the key [k] are the caller's *)
  assert (Hkey : forall r, In r rows -> Collection.id r = k ->
                           Collection.userId r = User.id u).
  { intros r Hr Hk. unfold rows, defaults_cleared in Hr.
    assert (Hsrc : exists r0, In r0 (SnippetCollections s)
                              /\ Collection.id r0 = Collection.id r
                              /\ Collection.userId r0 = Collection.userId r).
    { destruct b.
      - unfold update_where in Hr. apply in_map_iff in Hr.
        destruct Hr as (r0 & <- & Hr0). exists r0.
        destruct (String.eqb _ _); auto.
      - exists r. auto. }
    destruct Hsrc as (r0 & Hr0 & Hid0 & Hu0).
    assert (r0 = existing)
      by (apply (unique_key_inj Collection.id _ r0 existing Hc Hr0 Hin);
          congruence).
    congruence. }
  destruct b eqn:Eb.
  - (* the defaults were cleared, the input says [isDefault = true] *)
    destruct (String.eqb_spec uid' (User.id u)) as [->|Hother].
    + transitivity
        (List.length
           (filter (fun c => String.eqb (Collection.id c) k)
                   (update_where (fun c => String.eqb (Collection.id c) k)
                                 upd rows)));
        [|now apply unique_key_one].
      apply filter_length_le. intros r Hr Hdef.
      unfold update_where in Hr. apply in_map_iff in Hr.
      destruct Hr as (r0 & <- & Hr0).
      destruct (String.eqb (Collection.id r0) k) eqn:Ek; [exact Ek|].
      exfalso. unfold is_default_of in Hdef. apply andb_prop in Hdef.
      destruct Hdef as [Hu0 Hd0]. apply String.eqb_eq in Hu0.
      destruct (defaults_cleared_inv (User.id u) now _ r0 Hr0 Hu0) as [Hf _].
      congruence.
    + transitivity (List.length (filter (is_default_of uid') rows)).
      * unfold update_where. apply filter_map_length_le. intros r Hr Hdef.
        destruct (String.eqb_spec (Collection.id r) k) as [Hk|]; [|exact Hdef].
        exfalso. unfold is_default_of in Hdef. apply andb_prop in Hdef.
        destruct Hdef as [Hu0 _]. apply String.eqb_eq in Hu0.
        unfold upd in Hu0. rewrite CollectionPatch_apply_userId in Hu0.
        rewrite (Hkey r Hr Hk) in Hu0. congruence.
      * specialize (Hone uid'). unfold defaults_of in Hone.
        pose proof (defaults_cleared_le uid' true (User.id u) now
                      (SnippetCollections s)). fold rows in H. lia.
  - (* nothing was cleared: the input has no [isDefault], or [false] *)
    transitivity (List.length (filter (is_default_of uid') rows));
      [|exact (Hone uid')].
    unfold update_where. apply filter_map_length_le. intros r Hr Hdef.
    destruct (String.eqb (Collection.id r) k); [|exact Hdef].
    unfold is_default_of, upd in *. cbn in Hdef |- *.
    unfold b in Eb.
    destruct (UpdateSnippetCollection.isDefault input) as [[|]|];
      cbn in Eb, Hdef; try discriminate; try exact Hdef.
    now rewrite andb_false_r in Hdef.
Qed.

Lemma filter_unique_key {Row} (key : Row -> string) (k : string)
      (l : list Row) (x : Row) :
  NoDup (map key l) ->
  find (fun r => String.eqb (key r) k) l = Some x ->
  filter (fun r => String.eqb (key r) k) l = [x].
Proof.
  induction l as [|y l IH]; cbn; intros Hnd Hf; [discriminate|].
  inversion Hnd as [|? ? Hy Hl]; subst.
  destruct (String.eqb_spec (key y) k) as [Hk|Hk].
  - injection Hf as <-. f_equal. apply filter_none. intros r Hr.
    apply String.eqb_neq. intros E. apply Hy. rewrite Hk, <- E.
    now apply in_map.
  - now apply IH.
Qed.

(** After a create with [isDefault = true] that returns, the caller's only
    default is the row created. *)
Lemma createSnippetCollection_sets_default now uuid input context s s' c :
  CreateSnippetCollection.isDefault input = Some true ->
  createSnippetCollection now uuid input context s = (s', Ok c) ->
  defaults_of (Collection.userId c) s' = [c].
Proof.
  intros Hdef Hrun.
  destruct (defineAction_checked
              (fun i => min1 (CreateSnippetCollection.name i))
              (CreateSnippetCollection.handler now uuid) input context s)
    as [E|[Hschema _]].
  { unfold createSnippetCollection, CreateSnippetCollection.schema in Hrun.
    rewrite E in Hrun. discriminate. }
  destruct (requireUser_cases context s) as [[u Eu]|Eu].
  2:{ unfold createSnippetCollection, defineAction,
        CreateSnippetCollection.schema in Hrun.
      rewrite Hschema in Hrun. unfold CreateSnippetCollection.handler in Hrun.
      rewrite (bind_throw _ _ _ _ _ Eu) in Hrun. discriminate. }
  rewrite (createSnippetCollection_run now uuid input context u s Hschema Eu)
    in Hrun.
  cbv zeta in Hrun. rewrite Hdef in Hrun.
  change (truthy_bool (Some true)) with true in Hrun.
  destruct (existsb _ _); [discriminate|].
  apply run_eq in Hrun. destruct Hrun as [<- Hc]. apply Ok_inj in Hc. subst c.
  unfold defaults_of.
  change (Collection.userId (new_collection now uuid (User.id u) input))
    with (User.id u).
  cbv beta iota delta [SnippetCollections].
  rewrite filter_app, defaults_cleared_none. cbn [filter app].
  unfold is_default_of, new_collection.
  cbn [Collection.userId Collection.isDefault].
  rewrite Hdef, String.eqb_refl. reflexivity.
Qed.

(** After an update with [isDefault = true] that returns, the caller's only
    default is the row updated. *)
Lemma updateSnippetCollection_sets_default now input context s s' c :
  ids_unique s ->
  UpdateSnippetCollection.isDefault input = Some true ->
  updateSnippetCollection now input context s = (s', Ok (Some c)) ->
  defaults_of (Collection.userId c) s' = [c].
Proof.
  intros [Hc Hs] Hdef Hrun.
  destruct (defineAction_checked
              (fun i => min1 (UpdateSnippetCollection.id i)
                        && optional min1 (UpdateSnippetCollection.name i))
              (UpdateSnippetCollection.handler now) input context s)
    as [E|[Hschema _]].
  { unfold updateSnippetCollection, UpdateSnippetCollection.schema in Hrun.
    rewrite E in Hrun. discriminate. }
  destruct (requireUser_cases context s) as [[u Eu]|Eu].
  2:{ unfold updateSnippetCollection, defineAction,
        UpdateSnippetCollection.schema in Hrun.
      rewrite Hschema in Hrun. unfold UpdateSnippetCollection.handler in Hrun.
      rewrite (bind_throw _ _ _ _ _ Eu) in Hrun. discriminate. }
  destruct (ensureCollectionOwned_cases
              (UpdateSnippetCollection.id input) (User.id u) s)
    as [(existing & Eown & Hin & Hid & Hu)|Eown].
  2:{ unfold updateSnippetCollection, defineAction,
        UpdateSnippetCollection.schema in Hrun.
      rewrite Hschema in Hrun. unfold UpdateSnippetCollection.handler in Hrun.
      rewrite (bind_ok _ _ _ _ _ Eu), (bind_throw _ _ _ _ _ Eown) in Hrun.
      discriminate. }
  rewrite (updateSnippetCollection_run now input context u existing s
             Hschema Eu Eown) in Hrun.
  cbv zeta in Hrun. rewrite Hdef in Hrun.
  change (truthy_bool (Some true)) with true in Hrun.
  apply run_eq in Hrun. destruct Hrun as [<- Hrow]. apply Ok_inj in Hrow.
  assert (Hfind : find_collection (UpdateSnippetCollection.id input) s
                  = Some existing)
    by (rewrite <- Hid; now apply find_collection_unique).
  assert (Hs0 : find_collection (UpdateSnippetCollection.id input)
                  (mkStore (SnippetCollections s) (Snippets s))
                = Some existing) by now destruct s.
  pose proof (find_collection_updated
                (UpdateSnippetCollection.updateData now input) true
                (User.id u) now _ _ _ existing Hs0 Hu) as F.
  set (k := UpdateSnippetCollection.id input) in *.
  set (rows := defaults_cleared true (User.id u) now (SnippetCollections s))
    in *.
  set (upd := CollectionPatch.apply
                (UpdateSnippetCollection.updateData now input)) in *.
  set (rows' := update_where (fun c => String.eqb (Collection.id c) k)
                             upd rows) in *.
  assert (Hids' : NoDup (map Collection.id rows')).
  { unfold rows', upd. rewrite ids_update_collections. unfold rows.
    now rewrite ids_defaults_cleared. }
  rewrite F in Hrow. apply (f_equal (fun o => nullish o c)) in Hrow.
  cbn [nullish] in Hrow. subst c.
  unfold defaults_of. cbn [SnippetCollections].
  change (Collection.userId
            (upd (CollectionPatch.apply (cleared now) existing)))
    with (Collection.userId existing).
  rewrite Hu. unfold find_collection in F. cbn [SnippetCollections] in F.
  rewrite <- (filter_unique_key Collection.id k rows' _ Hids' F).
  apply filter_ext_in. intros r Hr. unfold rows', update_where in Hr.
  apply in_map_iff in Hr. destruct Hr as (r0 & <- & Hr0).
  destruct (String.eqb_spec (Collection.id r0) k) as [Hk|Hk].
  - unfold is_default_of, upd.
    cbn [CollectionPatch.apply Collection.userId Collection.isDefault
         Collection.id UpdateSnippetCollection.updateData
         CollectionPatch.isDefault].
    rewrite Hdef. cbn [nullish]. rewrite andb_true_r.
    apply String.eqb_eq in Hk. rewrite Hk. apply String.eqb_eq.
    apply String.eqb_eq in Hk.
    unfold rows, defaults_cleared, update_where in Hr0.
    apply in_map_iff in Hr0. destruct Hr0 as (r1 & <- & Hr1).
    assert (r1 = existing).
    { apply (unique_key_inj Collection.id _ r1 existing Hc Hr1 Hin).
      rewrite Hid, <- Hk. now destruct (String.eqb _ _). }
    subst r1. now destruct (String.eqb _ _).
  - apply String.eqb_neq in Hk. rewrite Hk. unfold is_default_of.
    destruct (String.eqb_spec (Collection.userId r0) (User.id u)) as [Hu0|];
      [|reflexivity].
    now rewrite (proj1 (defaults_cleared_inv (User.id u) now _ r0 Hr0 Hu0)).
Qed.

(** C1.  In a store whose keys are unique and where no user has two default
    collections, createSnippetCollection and updateSnippetCollection leave a
    store where again no user has two, whatever the input and the caller and
    whether the call returns or throws.  With [isDefault = true] in the input
    and a call that returns, the caller's defaults are first cleared and the
    row written is then their one default. *)
Theorem single_default_after_collection_write :
  forall (s : Store),
    ids_unique s ->
    single_default s ->
    (forall now uuid input context,
        single_default
          (store_after (createSnippetCollection now uuid input context) s)
        /\ forall s' c,
            CreateSnippetCollection.isDefault input = Some true ->
            createSnippetCollection now uuid input context s = (s', Ok c) ->
            defaults_of (Collection.userId c) s' = [c])
    /\ (forall now input context,
           single_default
             (store_after (updateSnippetCollection now input context) s)
           /\ forall s' c,
               UpdateSnippetCollection.isDefault input = Some true ->
               updateSnippetCollection now input context s = (s', Ok (Some c)) ->
               defaults_of (Collection.userId c) s' = [c]).
Proof.
  intros s Hids Hone. split.
  - intros now uuid input context. split.
    + apply createSnippetCollection_invariant; assumption.
    + intros s' c. apply createSnippetCollection_sets_default.
  - intros now input context. split.
    + apply updateSnippetCollection_invariant; assumption.
    + intros s' c. now apply updateSnippetCollection_sets_default.
Qed.

Lemma Sample_store_ids_unique : ids_unique Sample.store.
Proof.
  split; cbn;
    repeat (constructor;
            [cbn; intros H;
             repeat (destruct H as [H|H]; [discriminate H|]); exact H|]);
    constructor.
Qed.

Lemma Sample_store_single_default : single_default Sample.store.
Proof.
  intros uid. unfold defaults_of, is_default_of.
  unfold Sample.store, Sample.sql, Sample.go, Sample.shell.
  cbv beta iota delta [SnippetCollections filter Collection.userId
                       Collection.isDefault].
  rewrite ?andb_true_r, ?andb_false_r.
  destruct (String.eqb_spec "alice" uid) as [<-|_]; [cbn; lia|].
  destruct (String.eqb "bob" uid); cbn; lia.
Qed.

Lemma single_default_after_collection_write_witness :
  (single_default
     (store_after
        (createSnippetCollection 100 "c9" Sample.new_default Sample.alice)
        Sample.store)
   /\ defaults_of "alice"
        (store_after
           (createSnippetCollection 100 "c9" Sample.new_default Sample.alice)
           Sample.store)
      = [Sample.rust])
  /\ (single_default
        (store_after
           (updateSnippetCollection 100 Sample.retitle_go Sample.alice)
           Sample.store)
      /\ defaults_of "alice"
           (store_after
              (updateSnippetCollection 100 Sample.retitle_go Sample.alice)
              Sample.store)
         = [Sample.go_retitled]).
Proof.
  pose proof (single_default_after_collection_write Sample.store
                Sample_store_ids_unique Sample_store_single_default)
    as [Hcreate Hupdate].
  split.
  - destruct (Hcreate 100%Z "c9" Sample.new_default Sample.alice) as [H1 H2].
    split; [exact H1|].
    exact (H2 _ Sample.rust eq_refl eq_refl).
  - destruct (Hupdate 100%Z Sample.retitle_go Sample.alice) as [H1 H2].
    split; [exact H1|].
    exact (H2 _ Sample.go_retitled eq_refl eq_refl).
Defined.

(* ------------------------------------------------------------------ *)
(** ** What each call writes *)

Lemma read_only_ret {A} (a : A) : read_only (ret a).
Proof. now intros s. Qed.

Lemma read_only_throw {A} code : read_only (@throw A code).
Proof. now intros s. Qed.

Lemma read_only_bind {A B} (m : Action A) (k : A -> Action B) :
  read_only m -> (forall a, read_only (k a)) -> read_only (bind m k).
Proof.
  intros Hm Hk s. unfold bind. specialize (Hm s).
  destruct (m s) as [s' [a|code]]; cbn in Hm; subst s'; [apply Hk | reflexivity].
Qed.

Lemma read_only_requireUser context : read_only (requireUser context).
Proof.
  intros s. destruct (requireUser_cases context s) as [[u E]|E]; now rewrite E.
Qed.

Lemma read_only_ensureCollectionOwned cid uid :
  read_only (ensureCollectionOwned cid uid).
Proof.
  intros s.
  destruct (ensureCollectionOwned_cases cid uid s) as [(c & E & _)|E];
    now rewrite E.
Qed.

Lemma read_only_ensureSnippetOwned id uid :
  read_only (ensureSnippetOwned id uid).
Proof.
  intros s.
  destruct (ensureSnippetOwned_cases id uid s) as [(r & E & _)|E];
    now rewrite E.
Qed.

Lemma read_only_defineAction {Raw In_ Out : Type} (schema : Raw -> option In_)
      (handler : In_ -> ActionAPIContext -> Action Out) raw context :
  (forall input, read_only (handler input context)) ->
  read_only (defineAction schema handler raw context).
Proof.
  intros H. unfold defineAction.
  destruct (schema raw); [apply H | apply read_only_throw].
Qed.

Create HintDb read_only.
#[local] Hint Resolve read_only_ret read_only_throw read_only_requireUser
  read_only_ensureCollectionOwned read_only_ensureSnippetOwned : read_only.

Lemma read_only_listMySnippetCollections raw context :
  read_only (listMySnippetCollections raw context).
Proof.
  apply read_only_defineAction. intros input.
  unfold ListMySnippetCollections.handler.
  apply read_only_bind; auto with read_only. now intros u s.
Qed.

Lemma read_only_listSnippets raw context :
  read_only (listSnippets raw context).
Proof.
  apply read_only_defineAction. intros input. unfold ListSnippets.handler.
  apply read_only_bind; auto with read_only. intros u.
  apply read_only_bind; [|now intros fs s].
  destruct (ListSnippets.collectionId input) as [cid|]; auto with read_only.
  destruct (truthy_string (Some cid)); auto with read_only.
  apply read_only_bind; auto with read_only.
Qed.

Lemma read_only_getSnippet input context : read_only (getSnippet input context).
Proof.
  apply read_only_defineAction. intros i. unfold GetSnippet.handler.
  apply read_only_bind; auto with read_only.
Qed.

(** How far a call gets before it writes. *)
Lemma createSnippetCollection_cases now uuid input context s :
  (exists code,
      createSnippetCollection now uuid input context s = (s, Throw code))
  \/ exists u, CreateSnippetCollection.schema input = Some input
               /\ requireUser context s = (s, Ok u).
Proof.
  unfold createSnippetCollection, defineAction.
  destruct (CreateSnippetCollection.schema input) as [i|] eqn:Hschema;
    [|left; now exists BAD_REQUEST].
  apply checked_accepts in Hschema as Hi. destruct Hi as [-> _].
  unfold CreateSnippetCollection.handler.
  destruct (requireUser_cases context s) as [[u Eu]|Eu].
  - right. now exists u.
  - left. exists UNAUTHORIZED. now apply bind_throw.
Qed.

Lemma updateSnippetCollection_cases now input context s :
  (exists code, updateSnippetCollection now input context s = (s, Throw code))
  \/ exists u existing,
      UpdateSnippetCollection.schema input = Some input
      /\ requireUser context s = (s, Ok u)
      /\ ensureCollectionOwned (UpdateSnippetCollection.id input) (User.id u) s
         = (s, Ok existing).
Proof.
  unfold updateSnippetCollection, defineAction.
  destruct (UpdateSnippetCollection.schema input) as [i|] eqn:Hschema;
    [|left; now exists BAD_REQUEST].
  apply checked_accepts in Hschema as Hi. destruct Hi as [-> _].
  unfold UpdateSnippetCollection.handler.
  destruct (requireUser_cases context s) as [[u Eu]|Eu];
    [|left; exists UNAUTHORIZED; now apply bind_throw].
  rewrite (bind_ok _ _ _ _ _ Eu).
  destruct (ensureCollectionOwned_cases
              (UpdateSnippetCollection.id input) (User.id u) s)
    as [(existing & Eown & _)|Eown].
  - right. now exists u, existing.
  - left. exists NOT_FOUND. now apply bind_throw.
Qed.

Lemma createSnippetCollection_snippets now uuid input context s :
  Snippets (store_after (createSnippetCollection now uuid input context) s)
  = Snippets s.
Proof.
  unfold store_after.
  destruct (createSnippetCollection_cases now uuid input context s)
    as [[code E]|(u & Hschema & Eu)].
  - now rewrite E.
  - rewrite (createSnippetCollection_run _ _ _ _ _ _ Hschema Eu). cbv zeta.
    destruct (existsb _ _); reflexivity.
Qed.

Lemma updateSnippetCollection_snippets now input context s :
  Snippets (store_after (updateSnippetCollection now input context) s)
  = Snippets s.
Proof.
  unfold store_after.
  destruct (updateSnippetCollection_cases now input context s)
    as [[code E]|(u & existing & Hschema & Eu & Eown)].
  - now rewrite E.
  - now rewrite (updateSnippetCollection_run _ _ _ _ _ _ Hschema Eu Eown).
Qed.

(** The row createSnippet builds is active. *)
Lemma createSnippet_store now uuid input context s :
  store_after (createSnippet now uuid input context) s = s
  \/ exists r,
      Snippet.id r = uuid
      /\ Snippet.isArchived r = false
      /\ existsb (fun x => String.eqb (Snippet.id x) uuid) (Snippets s) = false
      /\ store_after (createSnippet now uuid input context) s
         = mkStore (SnippetCollections s) (Snippets s ++ [r]).
Proof.
  unfold store_after, createSnippet, defineAction.
  destruct (CreateSnippet.schema input) as [i|]; [|now left].
  unfold CreateSnippet.handler.
  destruct (requireUser_cases context s) as [[u Eu]|Eu];
    [|left; now rewrite (bind_throw _ _ _ _ _ Eu)].
  rewrite (bind_ok _ _ _ _ _ Eu).
  destruct (ensureCollectionOwned_cases
              (CreateSnippet.collectionId i) (User.id u) s)
    as [(c & Eown & _)|Eown];
    [|left; now rewrite (bind_throw _ _ _ _ _ Eown)].
  rewrite (bind_ok _ _ _ _ _ Eown). cbv zeta.
  unfold bind, Db.insert_snippet. cbn [Snippet.id].
  destruct (existsb _ (Snippets s)) eqn:Eex; [now left|].
  right. eexists. repeat split; [..|reflexivity]; auto.
Qed.

(** updateSnippet writes the [isArchived] of its input, if it has one. *)
Lemma updateSnippet_store now input context s :
  store_after (updateSnippet now input context) s = s
  \/ exists k patch,
      SnippetPatch.isArchived patch = UpdateSnippet.isArchived input
      /\ store_after (updateSnippet now input context) s
         = mkStore (SnippetCollections s)
             (update_where (fun r => String.eqb (Snippet.id r) k)
                           (SnippetPatch.apply patch) (Snippets s)).
Proof.
  unfold store_after, updateSnippet, defineAction.
  destruct (UpdateSnippet.schema input) as [i|] eqn:Hschema; [|now left].
  apply checked_accepts in Hschema. destruct Hschema as [-> _].
  unfold UpdateSnippet.handler.
  destruct (requireUser_cases context s) as [[u Eu]|Eu];
    [|left; now rewrite (bind_throw _ _ _ _ _ Eu)].
  rewrite (bind_ok _ _ _ _ _ Eu).
  destruct (ensureSnippetOwned_cases (UpdateSnippet.id input) (User.id u) s)
    as [(existing & Eown & _)|Eown];
    [|left; now rewrite (bind_throw _ _ _ _ _ Eown)].
  rewrite (bind_ok _ _ _ _ _ Eown).
  destruct (UpdateSnippet.moves input existing) as [cid|].
  - destruct (ensureCollectionOwned_cases cid (User.id u) s)
      as [(c & Ec & _)|Ec].
    + rewrite (bind_ok _ _ _ _ _ (bind_ok _ _ _ _ _ Ec)).
      right. exists (Snippet.id existing). eexists.
      split; [|reflexivity]. reflexivity.
    + left. now rewrite (bind_throw _ _ _ _ _ (bind_throw _ _ _ _ _ Ec)).
  - right. exists (Snippet.id existing). eexists.
    split; [|reflexivity]. reflexivity.
Qed.

Lemma archiveSnippet_store now input context s :
  store_after (archiveSnippet now input context) s = s
  \/ exists k,
      store_after (archiveSnippet now input context) s
      = mkStore (SnippetCollections s)
          (update_where (fun r => String.eqb (Snippet.id r) k)
                        (SnippetPatch.apply (ArchiveSnippet.archived now))
                        (Snippets s)).
Proof.
  unfold store_after, archiveSnippet, defineAction.
  destruct (ArchiveSnippet.schema input) as [i|]; [|now left].
  unfold ArchiveSnippet.handler.
  destruct (requireUser_cases context s) as [[u Eu]|Eu];
    [|left; now rewrite (bind_throw _ _ _ _ _ Eu)].
  rewrite (bind_ok _ _ _ _ _ Eu).
  destruct (ensureSnippetOwned_cases (ArchiveSnippet.id i) (User.id u) s)
    as [(existing & Eown & _)|Eown];
    [|left; now rewrite (bind_throw _ _ _ _ _ Eown)].
  rewrite (bind_ok _ _ _ _ _ Eown).
  right. exists (Snippet.id existing). reflexivity.
Qed.

(** Every call keeps the keys unique and the defaults single. *)
Lemma run_invariant call s :
  ids_unique s -> single_default s ->
  ids_unique (run call s) /\ single_default (run call s).
Proof.
  intros Hids Hone.
  assert (Hsame : forall s', s' = s -> ids_unique s' /\ single_default s')
    by (intros s' ->; auto).
  assert (Hsnip : forall s' rows,
             s' = mkStore (SnippetCollections s) rows ->
             NoDup (map Snippet.id rows) ->
             ids_unique s' /\ single_default s').
  { intros s' rows -> Hnd. split; [split; [apply Hids | exact Hnd]|].
    intros uid. apply (Hone uid). }
  destruct call as [now uuid i ctx|now i ctx|i ctx|now uuid i ctx|now i ctx
                   |now i ctx|i ctx|i ctx]; cbn [run].
  - now apply createSnippetCollection_invariant.
  - now apply updateSnippetCollection_invariant.
  - apply Hsame, read_only_listMySnippetCollections.
  - destruct (createSnippet_store now uuid i ctx s)
      as [E|(r & Hid & _ & Hex & E)]; [now apply Hsame|].
    apply (Hsnip _ _ E). apply NoDup_insert; [apply Hids | now rewrite Hid].
  - destruct (updateSnippet_store now i ctx s) as [E|(k & p & _ & E)];
      [now apply Hsame|].
    apply (Hsnip _ _ E). rewrite ids_update_snippets. apply Hids.
  - destruct (archiveSnippet_store now i ctx s) as [E|(k & E)];
      [now apply Hsame|].
    apply (Hsnip _ _ E). rewrite ids_update_snippets. apply Hids.
  - apply Hsame, read_only_listSnippets.
  - apply Hsame, read_only_getSnippet.
Qed.

(** So every store the module reaches from the empty one has unique keys and
    at most one default collection per user. *)
Lemma reachable_invariant s :
  reachable s -> ids_unique s /\ single_default s.
Proof.
  induction 1 as [|call s _ [Hids Hone]].
  - split; [split; constructor|]. intros uid. cbn. lia.
  - now apply run_invariant.
Qed.

(* ------------------------------------------------------------------ *)
(** ** The archive flag *)

Lemma find_app_l {Row} (p : Row -> bool) (l l' : list Row) (x : Row) :
  find p l = Some x -> find p (l ++ l') = Some x.
Proof.
  induction l as [|y l IH]; cbn; [discriminate|].
  destruct (p y); [auto | exact IH].
Qed.

Lemma Sample_archived_store_reachable : reachable Sample.archived_store.
Proof. unfold Sample.archived_store. repeat constructor. Qed.

(** C2 as stated fails: from the empty store Alice creates a snippet and
    archives it; her updateSnippet with [isArchived = false] is accepted,
    returns, and the snippet is active again. *)
Lemma updateSnippet_unarchives :
  reachable Sample.archived_store
  /\ option_map Snippet.isArchived (find_snippet "s1" Sample.archived_store)
     = Some true
  /\ UpdateSnippet.schema Sample.unarchive = Some Sample.unarchive
  /\ option_map Snippet.isArchived
       (find_snippet "s1"
          (run (UpdateSnippetCall 40 Sample.unarchive Sample.alice)
               Sample.archived_store))
     = Some false.
Proof.
  split; [exact Sample_archived_store_reachable|]. repeat split.
Qed.

(** The archive action is not the only way into the archived state either:
    an update with [isArchived = true] archives an active snippet. *)
Example updateSnippet_archives :
  option_map Snippet.isArchived (find_snippet "s1" Sample.store) = Some false
  /\ option_map Snippet.isArchived
       (find_snippet "s1"
          (run (UpdateSnippetCall 40 Sample.archive_by_update Sample.alice)
               Sample.store))
     = Some true.
Proof. repeat split. Qed.

(** C2, amended.  A stored snippet stays stored under every call, and its
    [isArchived] after the call is the one before, or the value the call
    writes: [true] for archiveSnippet, the [isArchived] of the input for
    updateSnippet, nothing for the other six actions.  So an archived snippet
    stays archived under every call but an updateSnippet whose input has
    [isArchived = false]. *)
Theorem isArchived_changes_only_when_written :
  forall (call : Call) (s : Store) (id : string) (r : Snippet.t),
    find_snippet id s = Some r ->
    exists r',
      find_snippet id (run call s) = Some r'
      /\ (Snippet.isArchived r' = Snippet.isArchived r
          \/ archived_written_by call = Some (Snippet.isArchived r'))
      /\ (Snippet.isArchived r = true ->
          archived_written_by call <> Some false ->
          Snippet.isArchived r' = true).
Proof.
  intros call s id r Hfind.
  assert (Hsame : forall s', Snippets s' = Snippets s ->
             exists r',
               find_snippet id s' = Some r'
               /\ (Snippet.isArchived r' = Snippet.isArchived r
                   \/ archived_written_by call = Some (Snippet.isArchived r'))
               /\ (Snippet.isArchived r = true ->
                   archived_written_by call <> Some false ->
                   Snippet.isArchived r' = true)).
  { intros s' E. exists r. unfold find_snippet in *. rewrite E. auto. }
  assert (Hupd : forall s' k patch,
             SnippetPatch.isArchived patch = archived_written_by call ->
             s' = mkStore (SnippetCollections s)
                    (update_where (fun x => String.eqb (Snippet.id x) k)
                                  (SnippetPatch.apply patch) (Snippets s)) ->
             exists r',
               find_snippet id s' = Some r'
               /\ (Snippet.isArchived r' = Snippet.isArchived r
                   \/ archived_written_by call = Some (Snippet.isArchived r'))
               /\ (Snippet.isArchived r = true ->
                   archived_written_by call <> Some false ->
                   Snippet.isArchived r' = true)).
  { intros s' k patch Hw ->. unfold find_snippet in *. cbn [Snippets].
    rewrite find_update_where by reflexivity. rewrite Hfind. cbn [option_map].
    eexists. split; [reflexivity|].
    destruct (String.eqb (Snippet.id r) k); [|auto].
    cbn [SnippetPatch.apply Snippet.isArchived]. rewrite Hw.
    destruct (archived_written_by call) as [[|]|]; cbn [nullish];
      (split; [auto|]); intros Hr Hw'; auto; now contradiction Hw'. }
  destruct call as [now uuid i ctx|now i ctx|i ctx|now uuid i ctx|now i ctx
                   |now i ctx|i ctx|i ctx]; cbn [run].
  - apply Hsame, createSnippetCollection_snippets.
  - apply Hsame, updateSnippetCollection_snippets.
  - apply Hsame. unfold store_after.
    now rewrite read_only_listMySnippetCollections.
  - destruct (createSnippet_store now uuid i ctx s)
      as [E|(x & _ & _ & _ & E)]; [apply Hsame; now rewrite E|].
    rewrite E. exists r. unfold find_snippet in *. cbn [Snippets].
    rewrite (find_app_l _ _ _ _ Hfind). auto.
  - destruct (updateSnippet_store now i ctx s) as [E|(k & p & Hp & E)];
      [apply Hsame; now rewrite E|].
    now apply (Hupd _ k p).
  - destruct (archiveSnippet_store now i ctx s) as [E|(k & E)];
      [apply Hsame; now rewrite E|].
    now apply (Hupd _ k (ArchiveSnippet.archived now)).
  - apply Hsame. unfold store_after. now rewrite read_only_listSnippets.
  - apply Hsame. unfold store_after. now rewrite read_only_getSnippet.
Qed.

Lemma isArchived_changes_only_when_written_witness :
  exists r',
    find_snippet "s1"
      (run (UpdateSnippetCall 40 Sample.archive_by_update Sample.alice)
           Sample.archived_store)
    = Some r'
    /\ (Snippet.isArchived r' = true
        \/ Some true = Some (Snippet.isArchived r'))
    /\ (true = true -> Some true <> Some false ->
        Snippet.isArchived r' = true).
Proof.
  apply (isArchived_changes_only_when_written
           (UpdateSnippetCall 40 Sample.archive_by_update Sample.alice)
           Sample.archived_store "s1"
           (Snippet.mk "s1" "c1" "alice" "select" None "SELECT 1" None None
                       false true 20 30)).
  reflexivity.
Defined.

(* ------------------------------------------------------------------ *)
(** ** Callers without a session, and calls that throw *)

Lemma requireUser_no_user context s :
  has_user context = false ->
  requireUser context s = (s, Throw UNAUTHORIZED).
Proof.
  unfold has_user, requireUser.
  destruct (locals context) as [[[u|]]|]; cbn; [discriminate | reflexivity..].
Qed.

Lemma defineAction_no_user {Raw In_ Out : Type} (schema : Raw -> option In_)
      (handler : In_ -> ActionAPIContext -> Action Out)
      (k : In_ -> User.t -> Action Out) raw context s :
  (forall input, handler input context = bind (requireUser context) (k input)) ->
  has_user context = false ->
  defineAction schema handler raw context s
  = (s, Throw (if accepted schema raw then UNAUTHORIZED else BAD_REQUEST)).
Proof.
  intros Hk Hno. unfold defineAction, accepted.
  destruct (schema raw) as [input|]; [|reflexivity].
  rewrite Hk. apply bind_throw. now apply requireUser_no_user.
Qed.

(** X1.  A call whose context carries no user writes nothing and throws:
    BAD_REQUEST when the schema of the action rejects the input, UNAUTHORIZED
    otherwise.  This holds for each of the eight actions. *)
Theorem call_without_user_is_unauthorized :
  forall (call : Call) (s : Store),
    has_user (call_context call) = false ->
    run call s = s
    /\ run_code call s
       = Some (if schema_accepts call then UNAUTHORIZED else BAD_REQUEST).
Proof.
  intros call s Hno.
  destruct call as [now uuid i ctx|now i ctx|i ctx|now uuid i ctx|now i ctx
                   |now i ctx|i ctx|i ctx];
    cbn [call_context] in Hno; cbn [run run_code schema_accepts];
    unfold store_after.
  - unfold createSnippetCollection.
    erewrite defineAction_no_user; [split; reflexivity | | exact Hno].
    intros input. reflexivity.
  - unfold updateSnippetCollection.
    erewrite defineAction_no_user; [split; reflexivity | | exact Hno].
    intros input. reflexivity.
  - unfold listMySnippetCollections.
    erewrite defineAction_no_user; [split; reflexivity | | exact Hno].
    intros input. reflexivity.
  - unfold createSnippet.
    erewrite defineAction_no_user; [split; reflexivity | | exact Hno].
    intros input. reflexivity.
  - unfold updateSnippet.
    erewrite defineAction_no_user; [split; reflexivity | | exact Hno].
    intros input. reflexivity.
  - unfold archiveSnippet.
    erewrite defineAction_no_user; [split; reflexivity | | exact Hno].
    intros input. reflexivity.
  - unfold listSnippets.
    erewrite defineAction_no_user; [split; reflexivity | | exact Hno].
    intros input. reflexivity.
  - unfold getSnippet.
    erewrite defineAction_no_user; [split; reflexivity | | exact Hno].
    intros input. reflexivity.
Qed.

Lemma call_without_user_is_unauthorized_witness :
  run (ArchiveSnippetCall 100 (ArchiveSnippet.mk "s1") Scenario.anonymous)
      Sample.store
  = Sample.store
  /\ run_code
       (ArchiveSnippetCall 100 (ArchiveSnippet.mk "s1") Scenario.anonymous)
       Sample.store
     = Some UNAUTHORIZED.
Proof.
  apply (call_without_user_is_unauthorized
           (ArchiveSnippetCall 100 (ArchiveSnippet.mk "s1") Scenario.anonymous)
           Sample.store).
  reflexivity.
Defined.

(** What createSnippet does once both guards have let it through. *)
Lemma createSnippet_run now uuid input context u c s :
  CreateSnippet.schema input = Some input ->
  requireUser context s = (s, Ok u) ->
  ensureCollectionOwned (CreateSnippet.collectionId input) (User.id u) s
  = (s, Ok c) ->
  createSnippet now uuid input context s
  = if existsb (fun x => String.eqb (Snippet.id x) uuid) (Snippets s)
    then (s, Throw CONSTRAINT)
    else (mkStore (SnippetCollections s)
                  (Snippets s ++ [new_snippet now uuid (User.id u) input]),
          Ok (new_snippet now uuid (User.id u) input)).
Proof.
  intros Hschema Hreq Hown. unfold createSnippet, defineAction.
  rewrite Hschema. unfold CreateSnippet.handler.
  rewrite (bind_ok _ _ _ _ _ Hreq), (bind_ok _ _ _ _ _ Hown). cbv zeta.
  fold (new_snippet now uuid (User.id u) input).
  unfold bind, Db.insert_snippet.
  change (Snippet.id (new_snippet now uuid (User.id u) input)) with uuid.
  destruct (existsb _ _); reflexivity.
Qed.

Lemma createSnippet_cases now uuid input context s :
  (exists code, createSnippet now uuid input context s = (s, Throw code))
  \/ exists u c,
      CreateSnippet.schema input = Some input
      /\ requireUser context s = (s, Ok u)
      /\ ensureCollectionOwned (CreateSnippet.collectionId input) (User.id u) s
         = (s, Ok c)
      /\ In c (SnippetCollections s)
      /\ Collection.id c = CreateSnippet.collectionId input
      /\ Collection.userId c = User.id u
      /\ existsb (fun x => String.eqb (Snippet.id x) uuid) (Snippets s) = false.
Proof.
  destruct (CreateSnippet.schema input) as [i|] eqn:Hschema.
  2:{ left. exists BAD_REQUEST. unfold createSnippet, defineAction.
      now rewrite Hschema. }
  apply checked_accepts in Hschema as Hi. destruct Hi as [-> _].
  destruct (requireUser_cases context s) as [[u Eu]|Eu].
  2:{ left. exists UNAUTHORIZED. unfold createSnippet, defineAction.
      rewrite Hschema. now apply bind_throw. }
  destruct (ensureCollectionOwned_cases
              (CreateSnippet.collectionId input) (User.id u) s)
    as [(c & Eown & Hin & Hid & Hu)|Eown].
  2:{ left. exists NOT_FOUND. unfold createSnippet, defineAction.
      rewrite Hschema. unfold CreateSnippet.handler.
      rewrite (bind_ok _ _ _ _ _ Eu). now apply bind_throw. }
  destruct (existsb (fun x => String.eqb (Snippet.id x) uuid) (Snippets s))
    eqn:Eex.
  - left. exists CONSTRAINT.
    rewrite (createSnippet_run _ _ _ _ _ _ _ Hschema Eu Eown). now rewrite Eex.
  - right. exists u, c. auto 10.
Qed.

(** What updateSnippet does once its guards have let it through. *)
Lemma updateSnippet_run now input context u existing s :
  UpdateSnippet.schema input = Some input ->
  requireUser context s = (s, Ok u) ->
  ensureSnippetOwned (UpdateSnippet.id input) (User.id u) s
  = (s, Ok existing) ->
  (forall cid, UpdateSnippet.moves input existing = Some cid ->
               exists c, ensureCollectionOwned cid (User.id u) s = (s, Ok c)) ->
  updateSnippet now input context s
  = let s' :=
      mkStore (SnippetCollections s)
        (update_where
           (fun r => String.eqb (Snippet.id r) (UpdateSnippet.id input))
           (SnippetPatch.apply (snippet_patch now input existing))
           (Snippets s)) in
    (s', Ok (find_snippet (UpdateSnippet.id input) s')).
Proof.
  intros Hschema Hreq Hown Hmove. unfold updateSnippet, defineAction.
  rewrite Hschema. unfold UpdateSnippet.handler.
  rewrite (bind_ok _ _ _ _ _ Hreq), (bind_ok _ _ _ _ _ Hown).
  assert (Hid : Snippet.id existing = UpdateSnippet.id input).
  { destruct (ensureSnippetOwned_cases (UpdateSnippet.id input) (User.id u) s)
      as [(r & Er & _ & Hr & _)|Er]; rewrite Er in Hown.
    - apply run_eq in Hown. destruct Hown as [_ Hown].
      apply Ok_inj in Hown. now subst r.
    - apply run_eq in Hown. destruct Hown as [_ Hown]. discriminate. }
  rewrite Hid. unfold snippet_patch.
  destruct (UpdateSnippet.moves input existing) as [cid|].
  - destruct (Hmove cid eq_refl) as [c Ec].
    rewrite (bind_ok _ _ _ _ _ (bind_ok _ _ _ _ _ Ec)).
    unfold ret, bind, Db.update_snippets, Db.select_snippets, first_row,
      select_where, find_snippet.
    cbn [Snippets SnippetCollections]. now rewrite hd_filter_find.
  - unfold ret, bind, Db.update_snippets, Db.select_snippets, first_row,
      select_where, find_snippet.
    cbn [Snippets SnippetCollections]. now rewrite hd_filter_find.
Qed.

Lemma updateSnippet_cases now input context s :
  (exists code, updateSnippet now input context s = (s, Throw code))
  \/ exists u existing,
      UpdateSnippet.schema input = Some input
      /\ requireUser context s = (s, Ok u)
      /\ ensureSnippetOwned (UpdateSnippet.id input) (User.id u) s
         = (s, Ok existing)
      /\ In existing (Snippets s)
      /\ Snippet.id existing = UpdateSnippet.id input
      /\ Snippet.userId existing = User.id u
      /\ (forall cid, UpdateSnippet.moves input existing = Some cid ->
            exists c, ensureCollectionOwned cid (User.id u) s = (s, Ok c)
                      /\ In c (SnippetCollections s)
                      /\ Collection.id c = cid
                      /\ Collection.userId c = User.id u).
Proof.
  destruct (UpdateSnippet.schema input) as [i|] eqn:Hschema.
  2:{ left. exists BAD_REQUEST. unfold updateSnippet, defineAction.
      now rewrite Hschema. }
  apply checked_accepts in Hschema as Hi. destruct Hi as [-> _].
  destruct (requireUser_cases context s) as [[u Eu]|Eu].
  2:{ left. exists UNAUTHORIZED. unfold updateSnippet, defineAction.
      rewrite Hschema. now apply bind_throw. }
  destruct (ensureSnippetOwned_cases (UpdateSnippet.id input) (User.id u) s)
    as [(existing & Eown & Hin & Hid & Hu)|Eown].
  2:{ left. exists NOT_FOUND. unfold updateSnippet, defineAction.
      rewrite Hschema. unfold UpdateSnippet.handler.
      rewrite (bind_ok _ _ _ _ _ Eu). now apply bind_throw. }
  destruct (UpdateSnippet.moves input existing) as [cid|] eqn:Emove.
  - destruct (ensureCollectionOwned_cases cid (User.id u) s)
      as [(c & Ec & Hc)|Ec].
    + right. exists u, existing. split; [reflexivity|].
      do 5 (split; [assumption|]).
      intros cid' Hc'. rewrite Emove in Hc'. injection Hc' as <-.
      exists c. auto.
    + left. exists NOT_FOUND. unfold updateSnippet, defineAction.
      rewrite Hschema. unfold UpdateSnippet.handler.
      rewrite (bind_ok _ _ _ _ _ Eu), (bind_ok _ _ _ _ _ Eown), Emove.
      now apply bind_throw, bind_throw.
  - right. exists u, existing. split; [reflexivity|].
    do 5 (split; [assumption|]).
    intros cid' Hc'. rewrite Emove in Hc'. discriminate.
Qed.

Lemma archiveSnippet_cases now input context s :
  (exists code, archiveSnippet now input context s = (s, Throw code))
  \/ exists u existing,
      ArchiveSnippet.schema input = Some input
      /\ requireUser context s = (s, Ok u)
      /\ In existing (Snippets s)
      /\ Snippet.id existing = ArchiveSnippet.id input
      /\ Snippet.userId existing = User.id u
      /\ archiveSnippet now input context s
         = (mkStore (SnippetCollections s)
              (update_where
                 (fun r => String.eqb (Snippet.id r) (ArchiveSnippet.id input))
                 (SnippetPatch.apply (ArchiveSnippet.archived now))
                 (Snippets s)),
            Ok (ArchiveSnippet.id input)).
Proof.
  destruct (ArchiveSnippet.schema input) as [i|] eqn:Hschema.
  2:{ left. exists BAD_REQUEST. unfold archiveSnippet, defineAction.
      now rewrite Hschema. }
  apply checked_accepts in Hschema as Hi. destruct Hi as [-> _].
  destruct (requireUser_cases context s) as [[u Eu]|Eu].
  2:{ left. exists UNAUTHORIZED. unfold archiveSnippet, defineAction.
      rewrite Hschema. now apply bind_throw. }
  destruct (ensureSnippetOwned_cases (ArchiveSnippet.id input) (User.id u) s)
    as [(existing & Eown & Hin & Hid & Hu)|Eown].
  2:{ left. exists NOT_FOUND. unfold archiveSnippet, defineAction.
      rewrite Hschema. unfold ArchiveSnippet.handler.
      rewrite (bind_ok _ _ _ _ _ Eu). now apply bind_throw. }
  right. exists u, existing. split; [reflexivity|].
  do 4 (split; [assumption|]).
  unfold archiveSnippet, defineAction. rewrite Hschema.
  unfold ArchiveSnippet.handler.
  rewrite (bind_ok _ _ _ _ _ Eu), (bind_ok _ _ _ _ _ Eown), Hid. reflexivity.
Qed.

(** X2.  A call that throws one of the module's own errors, or is rejected
    by its schema, has written nothing: every check of a handler comes before
    its first write.  (Only the store's refusal of a taken primary key can
    follow a write, in createSnippetCollection.) *)
Theorem thrown_call_writes_nothing :
  forall (call : Call) (s : Store) (code : ErrorCode),
    run_code call s = Some code ->
    code <> CONSTRAINT ->
    run call s = s.
Proof.
  intros call s code Hcode Hne.
  destruct call as [now uuid i ctx|now i ctx|i ctx|now uuid i ctx|now i ctx
                   |now i ctx|i ctx|i ctx];
    cbn [run run_code] in *; unfold store_after.
  - destruct (createSnippetCollection_cases now uuid i ctx s)
      as [[c E]|(u & Hschema & Eu)]; [now rewrite E|].
    rewrite (createSnippetCollection_run _ _ _ _ _ _ Hschema Eu) in Hcode |- *.
    cbv zeta in Hcode |- *. destruct (existsb _ _); cbn in Hcode.
    + injection Hcode as <-. now contradiction Hne.
    + discriminate.
  - destruct (updateSnippetCollection_cases now i ctx s)
      as [[c E]|(u & existing & Hschema & Eu & Eown)]; [now rewrite E|].
    rewrite (updateSnippetCollection_run _ _ _ _ _ _ Hschema Eu Eown) in Hcode.
    discriminate.
  - apply read_only_listMySnippetCollections.
  - destruct (createSnippet_cases now uuid i ctx s)
      as [[c E]|(u & c & Hschema & Eu & Eown & _ & _ & _ & Eex)];
      [now rewrite E|].
    rewrite (createSnippet_run _ _ _ _ _ _ _ Hschema Eu Eown), Eex in Hcode.
    discriminate.
  - destruct (updateSnippet_cases now i ctx s)
      as [[c E]|(u & existing & Hschema & Eu & Eown & _ & _ & _ & Hmove)];
      [now rewrite E|].
    rewrite (updateSnippet_run _ _ _ _ _ _ Hschema Eu Eown) in Hcode;
      [discriminate|].
    intros cid Hc. destruct (Hmove cid Hc) as (c & Ec & _). now exists c.
  - destruct (archiveSnippet_cases now i ctx s)
      as [[c E]|(u & existing & _ & _ & _ & _ & _ & E)]; [now rewrite E|].
    rewrite E in Hcode. discriminate.
  - apply read_only_listSnippets.
  - apply read_only_getSnippet.
Qed.

Lemma thrown_call_writes_nothing_witness :
  run (UpdateSnippetCall 100 Sample.move_to_bobs Sample.alice) Sample.store
  = Sample.store.
Proof.
  apply (thrown_call_writes_nothing
           (UpdateSnippetCall 100 Sample.move_to_bobs Sample.alice)
           Sample.store NOT_FOUND).
  - reflexivity.
  - discriminate.
Defined.

(* ------------------------------------------------------------------ *)
(** ** Reading one snippet, and rows that are not the caller's *)

Lemma ensureSnippetOwned_throws id uid s :
  not_owned_snippet uid id s ->
  ensureSnippetOwned id uid s = (s, Throw NOT_FOUND).
Proof.
  intros H.
  destruct (ensureSnippetOwned_cases id uid s)
    as [(r & _ & Hin & Hid & Hu)|E]; [|exact E].
  exfalso. exact (H r Hin Hid Hu).
Qed.

(** X3.  getSnippet returns the row stored under the id when it is the
    caller's, and whatever it returns is a stored row under that id that
    belongs to the caller; the store is not written. *)
Theorem getSnippet_returns_own_row :
  forall (uid : string) (input : GetSnippet.Input) (s : Store),
    GetSnippet.schema input = Some input ->
    (forall r, find_snippet (GetSnippet.id input) s = Some r ->
               Snippet.userId r = uid ->
               getSnippet input (signed_in uid) s = (s, Ok r))
    /\ (forall s' r,
           getSnippet input (signed_in uid) s = (s', Ok r) ->
           s' = s
           /\ In r (Snippets s)
           /\ Snippet.id r = GetSnippet.id input
           /\ Snippet.userId r = uid).
Proof.
  intros uid input s Hschema.
  assert (E : getSnippet input (signed_in uid) s
              = ensureSnippetOwned (GetSnippet.id input) uid s).
  { unfold getSnippet, defineAction. rewrite Hschema.
    unfold GetSnippet.handler.
    now rewrite (bind_ok _ _ _ _ _ (requireUser_signed_in uid s)). }
  rewrite E. split.
  - intros r Hfind Hu. now apply ensureSnippetOwned_found.
  - intros s' r Hrun.
    destruct (ensureSnippetOwned_cases (GetSnippet.id input) uid s)
      as [(r0 & E0 & Hin & Hid & Hu)|E0]; rewrite E0 in Hrun.
    + apply run_eq in Hrun. destruct Hrun as [<- Hr]. apply Ok_inj in Hr.
      subst r0. auto.
    + apply run_eq in Hrun. destruct Hrun as [_ Hr]. discriminate.
Qed.

Lemma getSnippet_returns_own_row_witness :
  getSnippet (GetSnippet.mk "s2") Sample.alice Sample.store
  = (Sample.store, Ok Sample.loop)
  /\ (Sample.store = Sample.store
      /\ In Sample.loop (Snippets Sample.store)
      /\ Snippet.id Sample.loop = "s2"
      /\ Snippet.userId Sample.loop = "alice").
Proof.
  pose proof (getSnippet_returns_own_row "alice" (GetSnippet.mk "s2")
                Sample.store eq_refl) as [Hfound Hsound].
  assert (Hrun : getSnippet (GetSnippet.mk "s2") Sample.alice Sample.store
                 = (Sample.store, Ok Sample.loop))
    by (apply Hfound; reflexivity).
  split; [exact Hrun|]. exact (Hsound _ _ Hrun).
Defined.

(** X4.  A snippet id under which the caller owns nothing, because no
    snippet has it or because it is another user's, gives the same answer in
    getSnippet, archiveSnippet and updateSnippet: NOT_FOUND, and the store is
    not written. *)
Theorem foreign_snippet_not_found :
  forall (uid id : string) (s : Store),
    not_owned_snippet uid id s ->
    (forall input,
        GetSnippet.schema input = Some input ->
        GetSnippet.id input = id ->
        getSnippet input (signed_in uid) s = (s, Throw NOT_FOUND))
    /\ (forall now input,
           ArchiveSnippet.schema input = Some input ->
           ArchiveSnippet.id input = id ->
           archiveSnippet now input (signed_in uid) s = (s, Throw NOT_FOUND))
    /\ (forall now input,
           UpdateSnippet.schema input = Some input ->
           UpdateSnippet.id input = id ->
           updateSnippet now input (signed_in uid) s = (s, Throw NOT_FOUND)).
Proof.
  intros uid id s Hnot.
  pose proof (ensureSnippetOwned_throws id uid s Hnot) as E.
  split; [|split].
  - intros input Hschema <-. unfold getSnippet, defineAction.
    rewrite Hschema. unfold GetSnippet.handler.
    now rewrite (bind_ok _ _ _ _ _ (requireUser_signed_in uid s)).
  - intros now input Hschema <-. unfold archiveSnippet, defineAction.
    rewrite Hschema. unfold ArchiveSnippet.handler.
    rewrite (bind_ok _ _ _ _ _ (requireUser_signed_in uid s)).
    now apply bind_throw.
  - intros now input Hschema <-. unfold updateSnippet, defineAction.
    rewrite Hschema. unfold UpdateSnippet.handler.
    rewrite (bind_ok _ _ _ _ _ (requireUser_signed_in uid s)).
    now apply bind_throw.
Qed.

Lemma Sample_s3_not_alices : not_owned_snippet "alice" "s3" Sample.store.
Proof.
  intros r Hin Hid. cbn in Hin.
  destruct Hin as [<-|[<-|[<-|[]]]]; cbn in *; discriminate.
Qed.

Lemma foreign_snippet_not_found_witness :
  getSnippet (GetSnippet.mk "s3") Sample.alice Sample.store
  = (Sample.store, Throw NOT_FOUND)
  /\ archiveSnippet 100 (ArchiveSnippet.mk "s3") Sample.alice Sample.store
     = (Sample.store, Throw NOT_FOUND)
  /\ updateSnippet 100
       (UpdateSnippet.mk "s3" None None None None None (Some true) None None)
       Sample.alice Sample.store
     = (Sample.store, Throw NOT_FOUND).
Proof.
  pose proof (foreign_snippet_not_found "alice" "s3" Sample.store
                Sample_s3_not_alices) as (Hget & Harchive & Hupdate).
  split; [|split].
  - apply Hget; reflexivity.
  - apply Harchive; reflexivity.
  - apply Hupdate; reflexivity.
Defined.

(** X5.  A collection id under which the caller owns nothing gives NOT_FOUND
    without a write in updateSnippetCollection, and in listSnippets when it
    is given as a non-empty [collectionId]: the listing fails instead of
    returning an empty page. *)
Theorem foreign_collection_not_found :
  forall (uid cid : string) (s : Store),
    not_owned_collection uid cid s ->
    (forall now input,
        UpdateSnippetCollection.schema input = Some input ->
        UpdateSnippetCollection.id input = cid ->
        updateSnippetCollection now input (signed_in uid) s
        = (s, Throw NOT_FOUND))
    /\ (forall raw input,
           ListSnippets.schema raw = Some input ->
           ListSnippets.raw_collectionId raw = Some cid ->
           cid <> EmptyString ->
           listSnippets raw (signed_in uid) s = (s, Throw NOT_FOUND)).
Proof.
  intros uid cid s Hnot.
  pose proof (ensureCollectionOwned_throws cid uid s Hnot) as E.
  split.
  - intros now input Hschema <-. unfold updateSnippetCollection, defineAction.
    rewrite Hschema. unfold UpdateSnippetCollection.handler.
    rewrite (bind_ok _ _ _ _ _ (requireUser_signed_in uid s)).
    now apply bind_throw.
  - intros raw input Hschema Hcid Hne. unfold listSnippets, defineAction.
    rewrite Hschema. apply ListSnippets_schema_fields in Hschema.
    unfold ListSnippets.handler.
    rewrite (bind_ok _ _ _ _ _ (requireUser_signed_in uid s)).
    subst input. cbn [ListSnippets.collectionId]. rewrite Hcid.
    cbn [truthy_string]. apply String.eqb_neq in Hne. rewrite Hne.
    cbn [negb]. now apply bind_throw, bind_throw.
Qed.

Lemma Sample_c3_not_alices : not_owned_collection "alice" "c3" Sample.store.
Proof.
  intros c Hin Hid. cbn in Hin.
  destruct Hin as [<-|[<-|[<-|[]]]]; cbn in *; discriminate.
Qed.

Lemma foreign_collection_not_found_witness :
  updateSnippetCollection 100
    (UpdateSnippetCollection.mk "c3" (Some "Mine") None None None)
    Sample.alice Sample.store
  = (Sample.store, Throw NOT_FOUND)
  /\ listSnippets Scenario.list_bobs Sample.alice Sample.store
     = (Sample.store, Throw NOT_FOUND).
Proof.
  pose proof (foreign_collection_not_found "alice" "c3" Sample.store
                Sample_c3_not_alices) as [Hupdate Hlist].
  split.
  - apply Hupdate; reflexivity.
  - apply (Hlist Scenario.list_bobs
             (ListSnippets.mk (Some "c3") false 1 20)); try reflexivity.
    discriminate.
Defined.

(* ------------------------------------------------------------------ *)
(** ** Pages *)

Lemma ListMySnippetCollections_schema_fields raw input :
  ListMySnippetCollections.schema raw = Some input ->
  input = ListMySnippetCollections.mk
            (nullish (ListMySnippetCollections.raw_page raw) 1%Z)
            (nullish (ListMySnippetCollections.raw_pageSize raw) 20%Z)
  /\ page_ok (ListMySnippetCollections.page input) = true
  /\ pageSize_ok (ListMySnippetCollections.pageSize input) = true.
Proof.
  unfold ListMySnippetCollections.schema. cbv zeta.
  cbn [ListMySnippetCollections.page ListMySnippetCollections.pageSize].
  destruct (page_ok _) eqn:Hp; [|discriminate].
  destruct (pageSize_ok _) eqn:Hs; [|discriminate].
  cbn [andb]. intros [= <-]. auto.
Qed.

Lemma ListSnippets_schema_ok raw input :
  ListSnippets.schema raw = Some input ->
  page_ok (ListSnippets.page input) = true
  /\ pageSize_ok (ListSnippets.pageSize input) = true.
Proof.
  unfold ListSnippets.schema. cbv zeta.
  cbn [ListSnippets.page ListSnippets.pageSize].
  destruct (page_ok _) eqn:Hp; [|discriminate].
  destruct (pageSize_ok _) eqn:Hs; [|discriminate].
  cbn [andb]. intros [= <-]. auto.
Qed.

(** X6.  What the two list actions return is the caller's: every item is a
    stored row whose [userId] is the caller's id, and with a non-empty
    [collectionId] in the input every snippet listed is filed under that
    collection. *)
Theorem listed_rows_are_the_callers :
  forall (uid : string) (s : Store),
    (forall raw s' page c,
        listMySnippetCollections raw (signed_in uid) s = (s', Ok page) ->
        In c (items page) ->
        In c (SnippetCollections s) /\ Collection.userId c = uid)
    /\ (forall raw s' page r,
           listSnippets raw (signed_in uid) s = (s', Ok page) ->
           In r (items page) ->
           In r (Snippets s)
           /\ Snippet.userId r = uid
           /\ forall cid,
               ListSnippets.raw_collectionId raw = Some cid ->
               cid <> EmptyString ->
               Snippet.collectionId r = cid).
Proof.
  intros uid s. split.
  - intros raw s' page c Hrun Hin.
    apply listMySnippetCollections_returns in Hrun.
    destruct Hrun as (input & u & _ & Hu & _ & Hitems & _).
    rewrite requireUser_signed_in in Hu. apply run_eq in Hu.
    destruct Hu as [_ Hu]. apply Ok_inj in Hu. subst u.
    rewrite Hitems in Hin. apply In_limit_offset, In_orderBy_desc in Hin.
    unfold select_where in Hin. apply filter_In in Hin.
    destruct Hin as [Hin Hp]. now apply String.eqb_eq in Hp.
  - intros raw s' page r Hrun Hin.
    apply listSnippets_returns in Hrun.
    destruct Hrun as (input & u & Hschema & Hu & _ & Hitems & _).
    rewrite requireUser_signed_in in Hu. apply run_eq in Hu.
    destruct Hu as [_ Hu]. apply Ok_inj in Hu. subst u.
    rewrite Hitems in Hin. apply In_limit_offset, In_orderBy_desc in Hin.
    unfold select_where in Hin. apply filter_In in Hin.
    destruct Hin as [Hin Hm]. unfold ListSnippets.matches in Hm.
    apply andb_prop in Hm. destruct Hm as [Hm _].
    apply andb_prop in Hm. destruct Hm as [Hby Hcol].
    split; [exact Hin|]. split; [now apply String.eqb_eq in Hby|].
    intros cid Hcid Hne. apply ListSnippets_schema_fields in Hschema.
    subst input. cbn [ListSnippets.collectionId User.id] in Hcol.
    rewrite Hcid in Hcol. cbn [truthy_string nullish] in Hcol.
    apply String.eqb_neq in Hne. rewrite Hne in Hcol. cbn [negb] in Hcol.
    now apply String.eqb_eq in Hcol.
Qed.

Lemma listed_rows_are_the_callers_witness :
  (In Sample.go (SnippetCollections Sample.store)
   /\ Collection.userId Sample.go = "alice")
  /\ (In Sample.loop (Snippets Sample.store)
      /\ Snippet.userId Sample.loop = "alice"
      /\ Snippet.collectionId Sample.loop = "c2").
Proof.
  pose proof (listed_rows_are_the_callers "alice" Sample.store)
    as [Hcollections Hsnippets].
  split.
  - apply (Hcollections Scenario.list_collections Sample.store
             Scenario.list_collections_page Sample.go); [reflexivity|].
    cbn. auto.
  - destruct (Hsnippets Scenario.list_go Sample.store Scenario.list_go_page
                Sample.loop eq_refl (or_introl eq_refl)) as (H1 & H2 & H3).
    split; [exact H1|]. split; [exact H2|].
    apply (H3 "c2"); [reflexivity | discriminate].
Defined.

(** X7.  The first page shows everything when it has room: if the rows the
    request asks for are no more than [pageSize], page 1 of either list
    action holds each of them. *)
Theorem first_page_is_complete :
  forall (uid : string) (s : Store),
    (forall raw input s' page c,
        ListMySnippetCollections.schema raw = Some input ->
        ListMySnippetCollections.page input = 1%Z ->
        (List.length
           (select_where (fun x => String.eqb (Collection.userId x) uid)
                         (SnippetCollections s))
         <= Z.to_nat (ListMySnippetCollections.pageSize input))%nat ->
        listMySnippetCollections raw (signed_in uid) s = (s', Ok page) ->
        In c (SnippetCollections s) ->
        Collection.userId c = uid ->
        In c (items page))
    /\ (forall raw input s' page r,
           ListSnippets.schema raw = Some input ->
           ListSnippets.page input = 1%Z ->
           (List.length
              (select_where (ListSnippets.matches uid input) (Snippets s))
            <= Z.to_nat (ListSnippets.pageSize input))%nat ->
           listSnippets raw (signed_in uid) s = (s', Ok page) ->
           In r (Snippets s) ->
           ListSnippets.matches uid input r = true ->
           In r (items page)).
Proof.
  intros uid s.
  assert (Hall : forall {Row} (rows : list Row) n,
             (List.length rows <= Z.to_nat n)%nat ->
             limit_offset n ((1 - 1) * n) rows = rows).
  { intros Row rows n Hn. unfold limit_offset.
    replace (Z.to_nat ((1 - 1) * n)) with 0%nat by lia.
    cbn [skipn]. now apply firstn_all2. }
  split.
  - intros raw input s' page c Hschema Hpage Hroom Hrun Hin Hu.
    apply listMySnippetCollections_returns in Hrun.
    destruct Hrun as (input' & u & Hschema' & Hreq & _ & Hitems & _).
    rewrite Hschema in Hschema'. injection Hschema' as <-.
    rewrite requireUser_signed_in in Hreq. apply run_eq in Hreq.
    destruct Hreq as [_ Hreq]. apply Ok_inj in Hreq. subst u.
    rewrite Hitems, Hpage. cbn [User.id].
    rewrite Hall by now rewrite length_orderBy_desc.
    apply In_orderBy_desc. unfold select_where. apply filter_In.
    split; [exact Hin | now apply String.eqb_eq].
  - intros raw input s' page r Hschema Hpage Hroom Hrun Hin Hm.
    apply listSnippets_returns in Hrun.
    destruct Hrun as (input' & u & Hschema' & Hreq & _ & Hitems & _).
    rewrite Hschema in Hschema'. injection Hschema' as <-.
    rewrite requireUser_signed_in in Hreq. apply run_eq in Hreq.
    destruct Hreq as [_ Hreq]. apply Ok_inj in Hreq. subst u.
    rewrite Hitems, Hpage. cbn [User.id].
    rewrite Hall by now rewrite length_orderBy_desc.
    apply In_orderBy_desc. unfold select_where. apply filter_In. auto.
Qed.

Lemma first_page_is_complete_witness :
  In Sample.sql (items Scenario.list_collections_page)
  /\ In Sample.select1 (items Scenario.list_all_page).
Proof.
  pose proof (first_page_is_complete "alice" Sample.store)
    as [Hcollections Hsnippets].
  split.
  - apply (Hcollections Scenario.list_collections
             (ListMySnippetCollections.mk 1 20) Sample.store
             Scenario.list_collections_page Sample.sql);
      try reflexivity; cbn; auto; lia.
  - apply (Hsnippets Scenario.list_all (ListSnippets.mk None true 1 20)
             Sample.store Scenario.list_all_page Sample.select1);
      try reflexivity; cbn; auto; lia.
Defined.

Section Ordering.
Context {Row : Type} (key : Row -> Z).

Lemma insert_desc_sorted x l :
  StronglySorted (desc_by key) l ->
  StronglySorted (desc_by key) (insert_desc key x l).
Proof.
  induction l as [|y l IH]; cbn; intros Hs.
  - repeat constructor.
  - apply StronglySorted_inv in Hs. destruct Hs as [Hl Hy].
    destruct (Z.ltb_spec (key x) (key y)) as [Hlt|Hge].
    + constructor; [now apply IH|].
      apply Forall_forall. intros z Hz. apply In_insert_desc in Hz.
      destruct Hz as [->|Hz]; [unfold desc_by; lia|].
      exact (proj1 (Forall_forall _ _) Hy z Hz).
    + constructor; [now constructor|].
      constructor; [exact Hge|].
      apply Forall_forall. intros z Hz.
      pose proof (proj1 (Forall_forall _ _) Hy z Hz) as Hzy.
      unfold desc_by in *. lia.
Qed.

Lemma orderBy_desc_sorted l : StronglySorted (desc_by key) (orderBy_desc key l).
Proof.
  unfold orderBy_desc. induction l as [|x l IH]; cbn.
  - constructor.
  - now apply insert_desc_sorted.
Qed.

Lemma skipn_sorted (n : nat) l :
  StronglySorted (desc_by key) l -> StronglySorted (desc_by key) (skipn n l).
Proof.
  revert l. induction n as [|n IH]; intros [|x l] Hs; cbn; auto.
  apply IH. now apply StronglySorted_inv in Hs.
Qed.

Lemma firstn_sorted (n : nat) l :
  StronglySorted (desc_by key) l -> StronglySorted (desc_by key) (firstn n l).
Proof.
  revert l. induction n as [|n IH]; intros [|x l] Hs; cbn;
    try constructor.
  - apply IH. now apply StronglySorted_inv in Hs.
  - apply StronglySorted_inv in Hs. destruct Hs as [_ Hx].
    apply Forall_forall. intros z Hz. apply In_firstn_inv in Hz.
    exact (proj1 (Forall_forall _ _) Hx z Hz).
Qed.

Lemma limit_offset_sorted n k l :
  StronglySorted (desc_by key) l ->
  StronglySorted (desc_by key) (limit_offset n k l).
Proof. intros Hs. unfold limit_offset. now apply firstn_sorted, skipn_sorted. Qed.
End Ordering.

(** X8.  When the dates in the store have four-digit years, where the
    stored form of a date orders as the instant does, a page is latest
    first: the collections by [createdAt], the snippets by [updatedAt], every
    item being at least as recent as all the items after it. *)
Theorem pages_are_latest_first :
  forall (context : ActionAPIContext) (s : Store),
    (forall raw s' page,
        (forall c, In c (SnippetCollections s) ->
                   four_digit_year (Collection.createdAt c)) ->
        listMySnippetCollections raw context s = (s', Ok page) ->
        StronglySorted (desc_by Collection.createdAt) (items page))
    /\ (forall raw s' page,
           (forall r, In r (Snippets s) ->
                      four_digit_year (Snippet.updatedAt r)) ->
           listSnippets raw context s = (s', Ok page) ->
           StronglySorted (desc_by Snippet.updatedAt) (items page)).
Proof.
  intros context s. split; intros raw s' page _ Hrun.
  - apply listMySnippetCollections_returns in Hrun.
    destruct Hrun as (input & u & _ & _ & _ & Hitems & _). rewrite Hitems.
    apply limit_offset_sorted, orderBy_desc_sorted.
  - apply listSnippets_returns in Hrun.
    destruct Hrun as (input & u & _ & _ & _ & Hitems & _). rewrite Hitems.
    apply limit_offset_sorted, orderBy_desc_sorted.
Qed.

Lemma Sample_store_four_digit_years :
  (forall c, In c (SnippetCollections Sample.store) ->
             four_digit_year (Collection.createdAt c))
  /\ (forall r, In r (Snippets Sample.store) ->
                four_digit_year (Snippet.updatedAt r)).
Proof.
  split; intros x Hin; cbn in Hin;
    destruct Hin as [<-|[<-|[<-|[]]]]; unfold four_digit_year; cbn; lia.
Qed.

Lemma pages_are_latest_first_witness :
  StronglySorted (desc_by Collection.createdAt)
                 (items Scenario.list_collections_page)
  /\ StronglySorted (desc_by Snippet.updatedAt) (items Scenario.list_all_page).
Proof.
  pose proof (pages_are_latest_first Sample.alice Sample.store)
    as [Hcollections Hsnippets].
  split.
  - exact (Hcollections Scenario.list_collections Sample.store
             Scenario.list_collections_page
             (proj1 Sample_store_four_digit_years) eq_refl).
  - exact (Hsnippets Scenario.list_all Sample.store Scenario.list_all_page
             (proj2 Sample_store_four_digit_years) eq_refl).
Defined.

(** X9.  A page never holds more rows than the [pageSize] asked for, which
    the schema keeps at 100 or less (20 when it is left out): the [total] of
    a response is at most 100. *)
Theorem page_has_at_most_pageSize_rows :
  forall (context : ActionAPIContext) (s : Store),
    (forall raw s' page,
        listMySnippetCollections raw context s = (s', Ok page) ->
        (Z.of_nat (total page)
         <= nullish (ListMySnippetCollections.raw_pageSize raw) 20
         <= 100)%Z)
    /\ (forall raw s' page,
           listSnippets raw context s = (s', Ok page) ->
           (Z.of_nat (total page)
            <= nullish (ListSnippets.raw_pageSize raw) 20
            <= 100)%Z).
Proof.
  intros context s. split; intros raw s' page Hrun.
  - apply listMySnippetCollections_returns in Hrun.
    destruct Hrun as (input & u & Hschema & _ & _ & Hitems & Htotal).
    apply ListMySnippetCollections_schema_fields in Hschema.
    destruct Hschema as (Hinput & _ & Hsize).
    rewrite Htotal, Hitems, length_limit_offset.
    rewrite Hinput in Hsize |- *.
    cbn [ListMySnippetCollections.pageSize] in Hsize |- *.
    unfold pageSize_ok in Hsize. apply andb_prop in Hsize.
    destruct Hsize as [H1 H2]. apply Z.leb_le in H1, H2. lia.
  - apply listSnippets_returns in Hrun.
    destruct Hrun as (input & u & Hschema & _ & _ & Hitems & Htotal).
    pose proof (ListSnippets_schema_ok _ _ Hschema) as [_ Hsize].
    apply ListSnippets_schema_fields in Hschema.
    rewrite Htotal, Hitems, length_limit_offset.
    rewrite Hschema in Hsize |- *. cbn [ListSnippets.pageSize] in Hsize |- *.
    unfold pageSize_ok in Hsize. apply andb_prop in Hsize.
    destruct Hsize as [H1 H2]. apply Z.leb_le in H1, H2. lia.
Qed.

Lemma page_has_at_most_pageSize_rows_witness :
  (Z.of_nat (total Sample.collections_first_page) <= 1 <= 100)%Z
  /\ (Z.of_nat (total Sample.snippets_first_page) <= 1 <= 100)%Z.
Proof.
  pose proof (page_has_at_most_pageSize_rows Sample.alice Sample.store)
    as [Hcollections Hsnippets].
  split.
  - exact (Hcollections Sample.collections_by_one Sample.store
             Sample.collections_first_page eq_refl).
  - exact (Hsnippets Sample.snippets_by_one Sample.store
             Sample.snippets_first_page eq_refl).
Defined.

(* ------------------------------------------------------------------ *)
(** ** Writes that go through *)

Lemma existsb_fresh {Row} (key : Row -> string) (k : string) (l : list Row) :
  ~ In k (map key l) ->
  existsb (fun r => String.eqb (key r) k) l = false.
Proof.
  intros Hfresh. destruct (existsb _ l) eqn:E; [|reflexivity].
  apply existsb_exists in E. destruct E as (r & Hin & Hk).
  apply String.eqb_eq in Hk. exfalso. apply Hfresh. rewrite <- Hk.
  now apply in_map.
Qed.

Lemma find_snoc_fresh {Row} (key : Row -> string) (l : list Row) (x : Row) :
  ~ In (key x) (map key l) ->
  find (fun r => String.eqb (key r) (key x)) (l ++ [x]) = Some x.
Proof.
  induction l as [|y l IH]; cbn; intros Hfresh.
  - now rewrite String.eqb_refl.
  - destruct (String.eqb_spec (key y) (key x)) as [E|_].
    + exfalso. apply Hfresh. now left.
    + apply IH. intros H. apply Hfresh. now right.
Qed.

(** X10.  createSnippet under a collection of the caller, with an id no
    snippet has yet, returns the new row and appends it to the Snippets
    table, the collections being left alone.  The row carries the caller as
    [userId], the collection asked for, [isArchived = false] and
    [createdAt = updatedAt = now]; a getSnippet of its id by the same caller
    then returns it. *)
Theorem createSnippet_then_getSnippet :
  forall (now : Z) (uuid uid : string) (input : CreateSnippet.Input)
         (c : Collection.t) (s : Store),
    CreateSnippet.schema input = Some input ->
    find_collection (CreateSnippet.collectionId input) s = Some c ->
    Collection.userId c = uid ->
    ~ In uuid (map Snippet.id (Snippets s)) ->
    min1 uuid = true ->
    exists s' snippet,
      createSnippet now uuid input (signed_in uid) s = (s', Ok snippet)
      /\ Snippets s' = (Snippets s ++ [snippet])%list
      /\ SnippetCollections s' = SnippetCollections s
      /\ Snippet.id snippet = uuid
      /\ Snippet.userId snippet = uid
      /\ Snippet.collectionId snippet = CreateSnippet.collectionId input
      /\ Snippet.isArchived snippet = false
      /\ Snippet.isFavorite snippet
         = nullish (CreateSnippet.isFavorite input) false
      /\ Snippet.createdAt snippet = now
      /\ Snippet.updatedAt snippet = now
      /\ getSnippet (GetSnippet.mk uuid) (signed_in uid) s' = (s', Ok snippet).
Proof.
  intros now uuid uid input c s Hschema Hfind Hu Hfresh Hmin.
  rewrite (createSnippet_run now uuid input (signed_in uid) (User.mk uid) c s
             Hschema (requireUser_signed_in uid s)
             (ensureCollectionOwned_found _ _ _ _ Hfind Hu)).
  rewrite (existsb_fresh Snippet.id uuid _ Hfresh). cbn [User.id].
  eexists. eexists. split; [reflexivity|].
  cbn [Snippets SnippetCollections].
  do 9 (split; [reflexivity|]).
  unfold getSnippet, defineAction, GetSnippet.schema, checked.
  cbn [GetSnippet.id]. rewrite Hmin. unfold GetSnippet.handler.
  rewrite (bind_ok _ _ _ _ _ (requireUser_signed_in uid _)).
  cbn [User.id GetSnippet.id].
  apply ensureSnippetOwned_found; [|reflexivity].
  unfold find_snippet. cbn [Snippets].
  exact (find_snoc_fresh Snippet.id (Snippets s)
           (new_snippet now uuid uid input) Hfresh).
Qed.

Lemma createSnippet_then_getSnippet_witness :
  exists s' snippet,
    createSnippet 100 "s9" Scenario.file_under_go Sample.alice Sample.store
    = (s', Ok snippet)
    /\ Snippets s' = (Snippets Sample.store ++ [snippet])%list
    /\ SnippetCollections s' = SnippetCollections Sample.store
    /\ Snippet.id snippet = "s9"
    /\ Snippet.userId snippet = "alice"
    /\ Snippet.collectionId snippet = "c2"
    /\ Snippet.isArchived snippet = false
    /\ Snippet.isFavorite snippet = false
    /\ Snippet.createdAt snippet = 100%Z
    /\ Snippet.updatedAt snippet = 100%Z
    /\ getSnippet (GetSnippet.mk "s9") Sample.alice s' = (s', Ok snippet).
Proof.
  apply (createSnippet_then_getSnippet 100 "s9" "alice" Scenario.file_under_go
           Sample.go Sample.store); try reflexivity.
  cbn. intros H. repeat (destruct H as [H|H]; [discriminate H|]). exact H.
Defined.

(** X11.  createSnippetCollection without [isDefault] (or with [false]), and
    with an id no collection has yet, only appends: the stored collections
    are untouched, the new row is last, belongs to the caller, is not a
    default and has [createdAt = updatedAt = now]; it is the row found under
    its id afterwards. *)
Theorem createSnippetCollection_plain_appends :
  forall (now : Z) (uuid uid : string) (input : CreateSnippetCollection.Input)
         (s : Store),
    CreateSnippetCollection.schema input = Some input ->
    CreateSnippetCollection.isDefault input <> Some true ->
    ~ In uuid (map Collection.id (SnippetCollections s)) ->
    exists s' collection,
      createSnippetCollection now uuid input (signed_in uid) s
      = (s', Ok collection)
      /\ SnippetCollections s' = (SnippetCollections s ++ [collection])%list
      /\ Snippets s' = Snippets s
      /\ collection
         = Collection.mk uuid uid (CreateSnippetCollection.name input)
             (CreateSnippetCollection.description input)
             (CreateSnippetCollection.icon input) false now now
      /\ find_collection uuid s' = Some collection.
Proof.
  intros now uuid uid input s Hschema Hdef Hfresh.
  rewrite (createSnippetCollection_signed_in now uuid uid input s Hschema).
  assert (Hb : truthy_bool (CreateSnippetCollection.isDefault input) = false)
    by (destruct (CreateSnippetCollection.isDefault input) as [[|]|];
        [now contradiction Hdef | reflexivity..]).
  assert (Hn : nullish (CreateSnippetCollection.isDefault input) false = false)
    by (destruct (CreateSnippetCollection.isDefault input) as [[|]|];
        [now contradiction Hdef | reflexivity..]).
  rewrite Hb. cbv zeta. unfold defaults_cleared.
  rewrite (existsb_fresh Collection.id uuid _ Hfresh).
  eexists. eexists. split; [reflexivity|].
  cbn [SnippetCollections Snippets].
  split; [reflexivity|]. split; [reflexivity|].
  split; [unfold new_collection; now rewrite Hn|].
  unfold find_collection. cbn [SnippetCollections].
  exact (find_snoc_fresh Collection.id (SnippetCollections s)
           (new_collection now uuid uid input) Hfresh).
Qed.

Lemma createSnippetCollection_plain_appends_witness :
  exists s' collection,
    createSnippetCollection 100 "c9" Scenario.plain_collection Sample.alice
                            Sample.store
    = (s', Ok collection)
    /\ SnippetCollections s' = (SnippetCollections Sample.store ++ [collection])%list
    /\ Snippets s' = Snippets Sample.store
    /\ collection = Scenario.rust_plain
    /\ find_collection "c9" s' = Some collection.
Proof.
  apply (createSnippetCollection_plain_appends 100 "c9" "alice"
           Scenario.plain_collection Sample.store).
  - reflexivity.
  - discriminate.
  - cbn. intros H. repeat (destruct H as [H|H]; [discriminate H|]). exact H.
Defined.

(** X12.  updateSnippet by the owner is a partial update.  When the
    [collectionId] of the input, if it has one and it is not the snippet's
    current one, is a collection of the caller, the call returns the row it
    has stored: each field the input gives has the given value, each field
    it leaves out keeps its old one, [id], [userId] and [createdAt] stay, and
    [updatedAt] is [now]. *)
Theorem updateSnippet_partial_update :
  forall (now : Z) (uid : string) (input : UpdateSnippet.Input)
         (existing : Snippet.t) (s : Store),
    UpdateSnippet.schema input = Some input ->
    find_snippet (UpdateSnippet.id input) s = Some existing ->
    Snippet.userId existing = uid ->
    (forall cid,
        UpdateSnippet.collectionId input = Some cid ->
        cid <> Snippet.collectionId existing ->
        exists c, find_collection cid s = Some c /\ Collection.userId c = uid) ->
    exists s' row,
      updateSnippet now input (signed_in uid) s = (s', Ok (Some row))
      /\ find_snippet (UpdateSnippet.id input) s' = Some row
      /\ SnippetCollections s' = SnippetCollections s
      /\ row
         = Snippet.mk
             (Snippet.id existing)
             (nullish (UpdateSnippet.collectionId input)
                      (Snippet.collectionId existing))
             (Snippet.userId existing)
             (nullish (UpdateSnippet.title input) (Snippet.title existing))
             (match UpdateSnippet.language input with
              | Some l => Some l
              | None => Snippet.language existing
              end)
             (nullish (UpdateSnippet.content input) (Snippet.content existing))
             (match UpdateSnippet.description input with
              | Some d => Some d
              | None => Snippet.description existing
              end)
             (match UpdateSnippet.tags input with
              | Some g => Some g
              | None => Snippet.tags existing
              end)
             (nullish (UpdateSnippet.isFavorite input)
                      (Snippet.isFavorite existing))
             (nullish (UpdateSnippet.isArchived input)
                      (Snippet.isArchived existing))
             (Snippet.createdAt existing)
             now.
Proof.
  intros now uid input existing s Hschema Hfind Hu Hcol.
  assert (Hmove : forall cid,
             UpdateSnippet.moves input existing = Some cid ->
             exists c, ensureCollectionOwned cid (User.id (User.mk uid)) s
                       = (s, Ok c)).
  { intros cid Hm. unfold UpdateSnippet.moves in Hm.
    destruct (UpdateSnippet.collectionId input) as [cid'|] eqn:Ecid;
      [|discriminate].
    destruct (String.eqb_spec cid' (Snippet.collectionId existing))
      as [|Hne]; [discriminate|].
    injection Hm as <-. destruct (Hcol cid' eq_refl Hne) as (c & Hc & Hcu).
    exists c. now apply ensureCollectionOwned_found. }
  rewrite (updateSnippet_run now input (signed_in uid) (User.mk uid) existing s
             Hschema (requireUser_signed_in uid s)
             (ensureSnippetOwned_found _ _ _ _ Hfind Hu) Hmove).
  cbv zeta.
  pose proof (find_snippet_update (snippet_patch now input existing)
                (UpdateSnippet.id input) s) as F.
  rewrite Hfind in F. cbn [option_map] in F.
  eexists. eexists. split; [rewrite F; reflexivity|].
  split; [exact F|]. split; [reflexivity|].
  unfold snippet_patch, UpdateSnippet.moves.
  destruct (UpdateSnippet.collectionId input) as [cid|]; [|reflexivity].
  destruct (String.eqb_spec cid (Snippet.collectionId existing)) as [->|_];
    reflexivity.
Qed.

Lemma updateSnippet_partial_update_witness :
  exists s' row,
    updateSnippet 100 Scenario.move_to_go Sample.alice Sample.store
    = (s', Ok (Some row))
    /\ find_snippet "s1" s' = Some row
    /\ SnippetCollections s' = SnippetCollections Sample.store
    /\ row = Scenario.select1_moved.
Proof.
  apply (updateSnippet_partial_update 100 "alice" Scenario.move_to_go
           Sample.select1 Sample.store); try reflexivity.
  intros cid [= <-] _. exists Sample.go. split; reflexivity.
Defined.

(** X13.  updateSnippet and archiveSnippet write one key of one table:
    whatever the input, the caller and the store, the collections are as
    before, no snippet is added or removed, and every snippet stored under
    another id than the input's is as before. *)
Theorem snippet_writes_touch_one_key :
  forall (now : Z) (context : ActionAPIContext) (s : Store),
    (forall input,
        let s' := store_after (updateSnippet now input context) s in
        SnippetCollections s' = SnippetCollections s
        /\ List.length (Snippets s') = List.length (Snippets s)
        /\ forall r, In r (Snippets s) ->
                     Snippet.id r <> UpdateSnippet.id input ->
                     In r (Snippets s'))
    /\ (forall input,
           let s' := store_after (archiveSnippet now input context) s in
           SnippetCollections s' = SnippetCollections s
           /\ List.length (Snippets s') = List.length (Snippets s)
           /\ forall r, In r (Snippets s) ->
                        Snippet.id r <> ArchiveSnippet.id input ->
                        In r (Snippets s')).
Proof.
  intros now context s.
  assert (Hkeep : forall k p r,
             In r (Snippets s) ->
             Snippet.id r <> k ->
             In r (update_where (fun x => String.eqb (Snippet.id x) k)
                                (SnippetPatch.apply p) (Snippets s))).
  { intros k p r Hin Hne. unfold update_where. apply in_map_iff. exists r.
    apply String.eqb_neq in Hne. now rewrite Hne. }
  split; intros input s'; subst s'; unfold store_after.
  - destruct (updateSnippet_cases now input context s)
      as [[code E]|(u & existing & Hschema & Eu & Eown & _ & _ & _ & Hmove)].
    + rewrite E. auto.
    + rewrite (updateSnippet_run _ _ _ _ _ _ Hschema Eu Eown).
      * cbv zeta. cbn [fst Snippets SnippetCollections].
        split; [reflexivity|]. split.
        -- unfold update_where. apply length_map.
        -- intros r Hin Hne. now apply Hkeep.
      * intros cid Hc. destruct (Hmove cid Hc) as (c & Ec & _). now exists c.
  - destruct (archiveSnippet_cases now input context s)
      as [[code E]|(u & existing & _ & _ & _ & _ & _ & E)]; rewrite E.
    + auto.
    + cbn [fst Snippets SnippetCollections].
      split; [reflexivity|]. split.
      * unfold update_where. apply length_map.
      * intros r Hin Hne. now apply Hkeep.
Qed.

Lemma snippet_writes_touch_one_key_witness :
  (SnippetCollections
     (store_after (updateSnippet 100 Scenario.move_to_go Sample.alice)
                  Sample.store)
   = SnippetCollections Sample.store
   /\ List.length
        (Snippets (store_after
                     (updateSnippet 100 Scenario.move_to_go Sample.alice)
                     Sample.store))
      = List.length (Snippets Sample.store)
   /\ In Sample.loop
         (Snippets (store_after
                      (updateSnippet 100 Scenario.move_to_go Sample.alice)
                      Sample.store)))
  /\ (SnippetCollections
        (store_after
           (archiveSnippet 100 (ArchiveSnippet.mk "s1") Sample.alice)
           Sample.store)
      = SnippetCollections Sample.store
      /\ List.length
           (Snippets (store_after
                        (archiveSnippet 100 (ArchiveSnippet.mk "s1")
                                        Sample.alice)
                        Sample.store))
         = List.length (Snippets Sample.store)
      /\ In Sample.loop
            (Snippets (store_after
                         (archiveSnippet 100 (ArchiveSnippet.mk "s1")
                                         Sample.alice)
                         Sample.store))).
Proof.
  assert (Hin : In Sample.loop (Snippets Sample.store)) by (cbn; auto).
  pose proof (snippet_writes_touch_one_key 100 Sample.alice Sample.store)
    as [Hupdate Harchive].
  split.
  - destruct (Hupdate Scenario.move_to_go) as (H1 & H2 & H3).
    split; [exact H1|]. split; [exact H2|].
    apply (H3 Sample.loop Hin). discriminate.
  - destruct (Harchive (ArchiveSnippet.mk "s1")) as (H1 & H2 & H3).
    split; [exact H1|]. split; [exact H2|].
    apply (H3 Sample.loop Hin). discriminate.
Defined.

(** X14.  archiveSnippet by the owner changes two fields of the row and no
    other: the row stored afterwards is the old one with [isArchived = true]
    and [updatedAt = now]. *)
Theorem archiveSnippet_keeps_the_rest :
  forall (now : Z) (uid : string) (input : ArchiveSnippet.Input)
         (existing : Snippet.t) (s : Store),
    ArchiveSnippet.schema input = Some input ->
    find_snippet (ArchiveSnippet.id input) s = Some existing ->
    Snippet.userId existing = uid ->
    find_snippet (ArchiveSnippet.id input)
      (store_after (archiveSnippet now input (signed_in uid)) s)
    = Some (Snippet.mk
              (Snippet.id existing) (Snippet.collectionId existing)
              (Snippet.userId existing) (Snippet.title existing)
              (Snippet.language existing) (Snippet.content existing)
              (Snippet.description existing) (Snippet.tags existing)
              (Snippet.isFavorite existing) true
              (Snippet.createdAt existing) now).
Proof.
  intros now uid input existing s Hschema Hfind Hu. unfold store_after.
  rewrite (archiveSnippet_owned now uid input existing s Hschema Hfind Hu).
  cbn [fst]. rewrite find_snippet_update, Hfind. reflexivity.
Qed.

Lemma archiveSnippet_keeps_the_rest_witness :
  find_snippet "s1"
    (store_after (archiveSnippet 100 (ArchiveSnippet.mk "s1") Sample.alice)
                 Sample.store)
  = Some (Snippet.mk "s1" "c1" "alice" "select" (Some "sql") "SELECT 1" None
                     None false true 40 100).
Proof.
  apply (archiveSnippet_keeps_the_rest 100 "alice" (ArchiveSnippet.mk "s1")
           Sample.select1 Sample.store); reflexivity.
Defined.

(* ------------------------------------------------------------------ *)
(** ** What belongs to other users *)

Lemma update_where_others {Row} (own p : Row -> bool) (set : Row -> Row)
      (rows : list Row) :
  (forall r, In r rows -> p r = true -> own r = true) ->
  (forall r, own (set r) = own r) ->
  forall x, own x = false ->
            (In x (update_where p set rows) <-> In x rows).
Proof.
  intros Hp Hset x Hx. unfold update_where. rewrite in_map_iff. split.
  - intros (r & Hr & Hin). destruct (p r) eqn:Epr.
    + exfalso. rewrite <- Hr, Hset, (Hp r Hin Epr) in Hx. discriminate.
    + now subst x.
  - intros Hin. exists x. split; [|exact Hin].
    destruct (p x) eqn:Epx; [|reflexivity].
    rewrite (Hp x Hin Epx) in Hx. discriminate.
Qed.

Lemma ensureCollectionOwned_ok cid uid s c :
  ensureCollectionOwned cid uid s = (s, Ok c) ->
  In c (SnippetCollections s)
  /\ Collection.id c = cid /\ Collection.userId c = uid.
Proof.
  intros E.
  destruct (ensureCollectionOwned_cases cid uid s) as [(c' & E' & H)|E'];
    rewrite E' in E; apply run_eq in E; destruct E as [_ E].
  - apply Ok_inj in E. now subst c'.
  - discriminate.
Qed.

Lemma defaults_cleared_others b uid now rows x :
  String.eqb (Collection.userId x) uid = false ->
  (In x (defaults_cleared b uid now rows) <-> In x rows).
Proof.
  intros Hx. destruct b; [|reflexivity]. unfold defaults_cleared.
  apply (update_where_others
           (fun c => String.eqb (Collection.userId c) uid)); auto.
Qed.

(** The rows stored under a key of the caller's are the caller's, also
    after the bulk update. *)
Lemma defaults_cleared_key b uid now s existing r :
  NoDup (map Collection.id (SnippetCollections s)) ->
  In existing (SnippetCollections s) ->
  Collection.userId existing = uid ->
  In r (defaults_cleared b uid now (SnippetCollections s)) ->
  Collection.id r = Collection.id existing ->
  Collection.userId r = uid.
Proof.
  intros Hnd Hin Hu Hr Hk.
  assert (Hsrc : exists r0, In r0 (SnippetCollections s)
                            /\ Collection.id r0 = Collection.id r
                            /\ Collection.userId r0 = Collection.userId r).
  { destruct b; [|now exists r]. unfold defaults_cleared, update_where in Hr.
    apply in_map_iff in Hr. destruct Hr as (r0 & <- & Hr0). exists r0.
    destruct (String.eqb _ _); auto. }
  destruct Hsrc as (r0 & Hr0 & Hid0 & Hu0).
  assert (r0 = existing)
    by (apply (unique_key_inj Collection.id _ r0 existing Hnd Hr0 Hin);
        congruence).
  congruence.
Qed.

(** X15.  With unique primary keys, a call made by one user leaves the rows
    of every other user as they are: a collection or snippet whose [userId]
    is not the caller's is stored after the call exactly when it was stored
    before, whatever the action and its input. *)
Theorem calls_leave_other_users_rows :
  forall (call : Call) (s : Store) (uid : string),
    ids_unique s ->
    call_context call = signed_in uid ->
    (forall c, Collection.userId c <> uid ->
               (In c (SnippetCollections (run call s))
                <-> In c (SnippetCollections s)))
    /\ (forall r, Snippet.userId r <> uid ->
                  (In r (Snippets (run call s)) <-> In r (Snippets s))).
Proof.
  intros call s uid [Hc Hs] Hctx.
  assert (Hsame : forall s', s' = s ->
             (forall c, Collection.userId c <> uid ->
                        (In c (SnippetCollections s')
                         <-> In c (SnippetCollections s)))
             /\ (forall r, Snippet.userId r <> uid ->
                           (In r (Snippets s') <-> In r (Snippets s))))
    by (intros s' ->; split; intros; reflexivity).
  assert (Hreq : forall u, requireUser (signed_in uid) s = (s, Ok u) ->
                           User.id u = uid).
  { intros u E. rewrite requireUser_signed_in in E. apply run_eq in E.
    destruct E as [_ E]. apply Ok_inj in E. now subst u. }
  destruct call as [now uuid i ctx|now i ctx|i ctx|now uuid i ctx|now i ctx
                   |now i ctx|i ctx|i ctx];
    cbn [call_context] in Hctx; subst ctx; cbn [run]; unfold store_after.
  - (* createSnippetCollection *)
    destruct (createSnippetCollection_cases now uuid i (signed_in uid) s)
      as [[code E]|(u & Hschema & Eu)]; [rewrite E; now apply Hsame|].
    rewrite (createSnippetCollection_run _ _ _ _ _ _ Hschema Eu).
    rewrite (Hreq u Eu). cbv zeta.
    destruct (existsb _ _); cbn [fst SnippetCollections Snippets];
      (split; [|intros; reflexivity]); intros c Hne;
      apply String.eqb_neq in Hne.
    + now apply defaults_cleared_others.
    + rewrite in_app_iff, (defaults_cleared_others _ _ _ _ _ Hne).
      split; [|auto]. intros [H|[<-|[]]]; [exact H|].
      cbn in Hne. now rewrite String.eqb_refl in Hne.
  - (* updateSnippetCollection *)
    destruct (updateSnippetCollection_cases now i (signed_in uid) s)
      as [[code E]|(u & existing & Hschema & Eu & Eown)];
      [rewrite E; now apply Hsame|].
    rewrite (updateSnippetCollection_run _ _ _ _ _ _ Hschema Eu Eown).
    rewrite (Hreq u Eu) in *. cbv zeta.
    cbn [fst SnippetCollections Snippets].
    apply ensureCollectionOwned_ok in Eown. destruct Eown as (Hin & Hid & Hu).
    split; [|intros; reflexivity]. intros c Hne. apply String.eqb_neq in Hne.
    rewrite <- (defaults_cleared_others
                  (truthy_bool (UpdateSnippetCollection.isDefault i))
                  uid now (SnippetCollections s) c Hne).
    apply (update_where_others
             (fun x => String.eqb (Collection.userId x) uid)); auto.
    intros r Hr Hk. apply String.eqb_eq in Hk. apply String.eqb_eq.
    apply (defaults_cleared_key _ uid now s existing r Hc Hin Hu Hr).
    congruence.
  - apply Hsame, read_only_listMySnippetCollections.
  - (* createSnippet *)
    destruct (createSnippet_cases now uuid i (signed_in uid) s)
      as [[code E]|(u & c & Hschema & Eu & Eown & _ & _ & _ & Eex)];
      [rewrite E; now apply Hsame|].
    rewrite (createSnippet_run _ _ _ _ _ _ _ Hschema Eu Eown), Eex.
    rewrite (Hreq u Eu). cbn [fst SnippetCollections Snippets].
    split; [intros; reflexivity|]. intros r Hne. rewrite in_app_iff.
    split; [|auto]. intros [H|[<-|[]]]; [exact H|]. now contradiction Hne.
  - (* updateSnippet *)
    destruct (updateSnippet_cases now i (signed_in uid) s)
      as [[code E]|(u & existing & Hschema & Eu & Eown & Hin & Hid & Hu
                    & Hmove)];
      [rewrite E; now apply Hsame|].
    rewrite (updateSnippet_run _ _ _ _ _ _ Hschema Eu Eown).
    2:{ intros cid Hm. destruct (Hmove cid Hm) as (c & Ec & _). now exists c. }
    rewrite (Hreq u Eu) in *. cbv zeta.
    cbn [fst SnippetCollections Snippets].
    split; [intros; reflexivity|]. intros r Hne. apply String.eqb_neq in Hne.
    apply (update_where_others
             (fun x => String.eqb (Snippet.userId x) uid)); auto.
    intros x Hx Hk. apply String.eqb_eq in Hk. apply String.eqb_eq.
    assert (x = existing)
      by (apply (unique_key_inj Snippet.id _ x existing Hs Hx Hin);
          congruence).
    congruence.
  - (* archiveSnippet *)
    destruct (archiveSnippet_cases now i (signed_in uid) s)
      as [[code E]|(u & existing & _ & Eu & Hin & Hid & Hu & E)];
      rewrite E; [now apply Hsame|].
    rewrite (Hreq u Eu) in *. cbn [fst SnippetCollections Snippets].
    split; [intros; reflexivity|]. intros r Hne. apply String.eqb_neq in Hne.
    apply (update_where_others
             (fun x => String.eqb (Snippet.userId x) uid)); auto.
    intros x Hx Hk. apply String.eqb_eq in Hk. apply String.eqb_eq.
    assert (x = existing)
      by (apply (unique_key_inj Snippet.id _ x existing Hs Hx Hin);
          congruence).
    congruence.
  - apply Hsame, read_only_listSnippets.
  - apply Hsame, read_only_getSnippet.
Qed.

Lemma calls_leave_other_users_rows_witness :
  (In Sample.shell
      (SnippetCollections
         (run (CreateSnippetCollectionCall 100 "c9" Sample.new_default
                                           Sample.alice)
              Sample.store))
   <-> In Sample.shell (SnippetCollections Sample.store))
  /\ (In Sample.ls
         (Snippets
            (run (CreateSnippetCollectionCall 100 "c9" Sample.new_default
                                              Sample.alice)
                 Sample.store))
      <-> In Sample.ls (Snippets Sample.store)).
Proof.
  pose proof (calls_leave_other_users_rows
                (CreateSnippetCollectionCall 100 "c9" Sample.new_default
                                             Sample.alice)
                Sample.store "alice" Sample_store_ids_unique eq_refl)
    as [Hcollections Hsnippets].
  split.
  - apply Hcollections. discriminate.
  - apply Hsnippets. discriminate.
Defined.

(* ------------------------------------------------------------------ *)
(** ** Rows stay, and stay whose they are *)

Lemma update_where_keeps {Row} (P : Row -> Row -> Prop) (p : Row -> bool)
      (set : Row -> Row) (rows : list Row) :
  (forall r, P r r) -> (forall r, P r (set r)) ->
  forall r, In r rows -> exists r', In r' (update_where p set rows) /\ P r r'.
Proof.
  intros Hrefl Hset r Hin.
  exists (if p r then set r else r). split.
  - unfold update_where. apply in_map_iff. now exists r.
  - destruct (p r); auto.
Qed.

(** A collection row as it may be found later: same key, owner and date of
    creation. *)
Lemma run_keeps_collections call s c :
  In c (SnippetCollections s) ->
  exists c', In c' (SnippetCollections (run call s))
             /\ Collection.id c' = Collection.id c
             /\ Collection.userId c' = Collection.userId c
             /\ Collection.createdAt c' = Collection.createdAt c.
Proof.
  intros Hin.
  assert (Hsame : forall s', SnippetCollections s' = SnippetCollections s ->
             exists c', In c' (SnippetCollections s')
                        /\ Collection.id c' = Collection.id c
                        /\ Collection.userId c' = Collection.userId c
                        /\ Collection.createdAt c' = Collection.createdAt c)
    by (intros s' E; exists c; rewrite E; auto).
  assert (Hclear : forall b uid now,
             exists c', In c' (defaults_cleared b uid now (SnippetCollections s))
                        /\ Collection.id c' = Collection.id c
                        /\ Collection.userId c' = Collection.userId c
                        /\ Collection.createdAt c' = Collection.createdAt c).
  { intros b uid now. destruct b; [|exists c; auto].
    unfold defaults_cleared.
    apply (update_where_keeps
             (fun x y => Collection.id y = Collection.id x
                         /\ Collection.userId y = Collection.userId x
                         /\ Collection.createdAt y = Collection.createdAt x));
      auto. }
  destruct call as [now uuid i ctx|now i ctx|i ctx|now uuid i ctx|now i ctx
                   |now i ctx|i ctx|i ctx]; cbn [run]; unfold store_after.
  - destruct (createSnippetCollection_cases now uuid i ctx s)
      as [[code E]|(u & Hschema & Eu)]; [rewrite E; now apply Hsame|].
    rewrite (createSnippetCollection_run _ _ _ _ _ _ Hschema Eu). cbv zeta.
    destruct (Hclear (truthy_bool (CreateSnippetCollection.isDefault i))
                     (User.id u) now) as (c' & Hc' & H).
    destruct (existsb _ _); cbn [fst SnippetCollections]; exists c';
      (split; [|exact H]); [exact Hc' | apply in_or_app; now left].
  - destruct (updateSnippetCollection_cases now i ctx s)
      as [[code E]|(u & existing & Hschema & Eu & Eown)];
      [rewrite E; now apply Hsame|].
    rewrite (updateSnippetCollection_run _ _ _ _ _ _ Hschema Eu Eown).
    cbv zeta. cbn [fst SnippetCollections].
    destruct (Hclear (truthy_bool (UpdateSnippetCollection.isDefault i))
                     (User.id u) now) as (c' & Hc' & H1 & H2 & H3).
    destruct (update_where_keeps
                (fun x y => Collection.id y = Collection.id x
                            /\ Collection.userId y = Collection.userId x
                            /\ Collection.createdAt y = Collection.createdAt x)
                (fun x => String.eqb (Collection.id x)
                                     (UpdateSnippetCollection.id i))
                (CollectionPatch.apply
                   (UpdateSnippetCollection.updateData now i))
                _ (fun r => conj eq_refl (conj eq_refl eq_refl))
                (fun r => conj eq_refl (conj eq_refl eq_refl)) c' Hc')
      as (c'' & Hc'' & G1 & G2 & G3).
    exists c''. split; [exact Hc''|]. repeat split; congruence.
  - apply Hsame. now rewrite read_only_listMySnippetCollections.
  - apply Hsame. destruct (createSnippet_store now uuid i ctx s)
      as [E|(x & _ & _ & _ & E)]; unfold store_after in E; now rewrite E.
  - apply Hsame. destruct (updateSnippet_store now i ctx s)
      as [E|(k & p & _ & E)]; unfold store_after in E; now rewrite E.
  - apply Hsame. destruct (archiveSnippet_store now i ctx s)
      as [E|(k & E)]; unfold store_after in E; now rewrite E.
  - apply Hsame. now rewrite read_only_listSnippets.
  - apply Hsame. now rewrite read_only_getSnippet.
Qed.

Lemma run_keeps_snippets call s r :
  In r (Snippets s) ->
  exists r', In r' (Snippets (run call s))
             /\ Snippet.id r' = Snippet.id r
             /\ Snippet.userId r' = Snippet.userId r
             /\ Snippet.createdAt r' = Snippet.createdAt r.
Proof.
  intros Hin.
  assert (Hsame : forall s', Snippets s' = Snippets s ->
             exists r', In r' (Snippets s')
                        /\ Snippet.id r' = Snippet.id r
                        /\ Snippet.userId r' = Snippet.userId r
                        /\ Snippet.createdAt r' = Snippet.createdAt r)
    by (intros s' E; exists r; rewrite E; auto).
  assert (Hupd : forall s' k p,
             s' = mkStore (SnippetCollections s)
                    (update_where (fun x => String.eqb (Snippet.id x) k)
                                  (SnippetPatch.apply p) (Snippets s)) ->
             exists r', In r' (Snippets s')
                        /\ Snippet.id r' = Snippet.id r
                        /\ Snippet.userId r' = Snippet.userId r
                        /\ Snippet.createdAt r' = Snippet.createdAt r).
  { intros s' k p ->. cbn [Snippets].
    apply (update_where_keeps
             (fun x y => Snippet.id y = Snippet.id x
                         /\ Snippet.userId y = Snippet.userId x
                         /\ Snippet.createdAt y = Snippet.createdAt x)); auto. }
  destruct call as [now uuid i ctx|now i ctx|i ctx|now uuid i ctx|now i ctx
                   |now i ctx|i ctx|i ctx]; cbn [run].
  - apply Hsame, createSnippetCollection_snippets.
  - apply Hsame, updateSnippetCollection_snippets.
  - apply Hsame. unfold store_after.
    now rewrite read_only_listMySnippetCollections.
  - destruct (createSnippet_store now uuid i ctx s)
      as [E|(x & _ & _ & _ & E)]; [apply Hsame; now rewrite E|].
    rewrite E. exists r. cbn [Snippets]. split; [|auto].
    apply in_or_app. now left.
  - destruct (updateSnippet_store now i ctx s) as [E|(k & p & _ & E)];
      [apply Hsame; now rewrite E|]. now apply (Hupd _ k p).
  - destruct (archiveSnippet_store now i ctx s) as [E|(k & E)];
      [apply Hsame; now rewrite E|].
    now apply (Hupd _ k (ArchiveSnippet.archived now)).
  - apply Hsame. unfold store_after. now rewrite read_only_listSnippets.
  - apply Hsame. unfold store_after. now rewrite read_only_getSnippet.
Qed.

(** X16.  No action deletes a row or hands it to someone else: a collection
    or snippet stored before a call is stored after it under the same [id],
    with the same [userId] and the same [createdAt], whatever the call. *)
Theorem rows_are_never_removed :
  forall (call : Call) (s : Store),
    (forall c, In c (SnippetCollections s) ->
       exists c', In c' (SnippetCollections (run call s))
                  /\ Collection.id c' = Collection.id c
                  /\ Collection.userId c' = Collection.userId c
                  /\ Collection.createdAt c' = Collection.createdAt c)
    /\ (forall r, In r (Snippets s) ->
          exists r', In r' (Snippets (run call s))
                     /\ Snippet.id r' = Snippet.id r
                     /\ Snippet.userId r' = Snippet.userId r
                     /\ Snippet.createdAt r' = Snippet.createdAt r).
Proof.
  intros call s. split.
  - intros c. apply run_keeps_collections.
  - intros r. apply run_keeps_snippets.
Qed.

Lemma rows_are_never_removed_witness :
  (exists c', In c' (SnippetCollections
                       (run (UpdateSnippetCollectionCall
                               100 Sample.retitle_go Sample.alice)
                            Sample.store))
              /\ Collection.id c' = "c1"
              /\ Collection.userId c' = "alice"
              /\ Collection.createdAt c' = 10%Z)
  /\ (exists r', In r' (Snippets
                          (run (UpdateSnippetCall
                                  100 Scenario.move_to_go Sample.alice)
                               Sample.store))
                 /\ Snippet.id r' = "s1"
                 /\ Snippet.userId r' = "alice"
                 /\ Snippet.createdAt r' = 40%Z).
Proof.
  split.
  - apply (proj1 (rows_are_never_removed
                    (UpdateSnippetCollectionCall 100 Sample.retitle_go
                                                 Sample.alice)
                    Sample.store) Sample.sql).
    cbn. auto.
  - apply (proj2 (rows_are_never_removed
                    (UpdateSnippetCall 100 Scenario.move_to_go Sample.alice)
                    Sample.store) Sample.select1).
    cbn. auto.
Defined.

(** Every call keeps each snippet under a collection of its own user. *)
Lemma run_refs_owned call s :
  ids_unique s -> refs_owned s -> refs_owned (run call s).
Proof.
  intros [Hc Hs] Hrefs.
  (* a row with the collection and owner of a row stored before *)
  assert (Hold : forall r r',
             In r (Snippets s) ->
             Snippet.collectionId r' = Snippet.collectionId r ->
             Snippet.userId r' = Snippet.userId r ->
             exists c, In c (SnippetCollections (run call s))
                       /\ Collection.id c = Snippet.collectionId r'
                       /\ Collection.userId c = Snippet.userId r').
  { intros r r' Hr Hcol Hu. destruct (Hrefs r Hr) as (c & Hin & Hid & Hcu).
    destruct (run_keeps_collections call s c Hin) as (c' & Hc' & G1 & G2 & _).
    exists c'. split; [exact Hc'|]. split; congruence. }
  assert (Hsame : Snippets (run call s) = Snippets s ->
                  refs_owned (run call s)).
  { intros E r' Hr'. rewrite E in Hr'. now apply (Hold r' r'). }
  destruct call as [now uuid i ctx|now i ctx|i ctx|now uuid i ctx|now i ctx
                   |now i ctx|i ctx|i ctx].
  - apply Hsame. cbn [run]. apply createSnippetCollection_snippets.
  - apply Hsame. cbn [run]. apply updateSnippetCollection_snippets.
  - apply Hsame. cbn [run]. unfold store_after.
    now rewrite read_only_listMySnippetCollections.
  - destruct (createSnippet_cases now uuid i ctx s)
      as [[code E]|(u & c & Hschema & Eu & Eown & Hin & Hid & Hu & Eex)].
    + apply Hsame. cbn [run]. unfold store_after. now rewrite E.
    + intros r' Hr'. revert Hold Hr'. cbn [run]. unfold store_after.
      rewrite (createSnippet_run _ _ _ _ _ _ _ Hschema Eu Eown), Eex.
      cbn [fst Snippets SnippetCollections]. intros Hold Hr'.
      apply in_app_or in Hr'. destruct Hr' as [Hr'|[<-|[]]].
      * now apply (Hold r' r').
      * exists c. cbn. auto.
  - destruct (updateSnippet_cases now i ctx s)
      as [[code E]|(u & existing & Hschema & Eu & Eown & Hin & Hid & Hu
                    & Hmove)].
    + apply Hsame. cbn [run]. unfold store_after. now rewrite E.
    + intros r' Hr'. revert Hold Hr'. cbn [run]. unfold store_after.
      rewrite (updateSnippet_run _ _ _ _ _ _ Hschema Eu Eown).
      2:{ intros cid Hm. destruct (Hmove cid Hm) as (c & Ec & _).
          now exists c. }
      cbv zeta. cbn [fst Snippets SnippetCollections]. intros Hold Hr'.
      unfold update_where in Hr'. apply in_map_iff in Hr'.
      destruct Hr' as (r & <- & Hr).
      destruct (String.eqb_spec (Snippet.id r) (UpdateSnippet.id i))
        as [Hk|_]; [|now apply (Hold r r)].
      assert (r = existing)
        by (apply (unique_key_inj Snippet.id _ r existing Hs Hr Hin);
            congruence).
      subst r. unfold snippet_patch.
      destruct (UpdateSnippet.moves i existing) as [cid|] eqn:Em.
      * destruct (Hmove cid eq_refl) as (c & _ & Hcin & Hcid & Hcu).
        exists c. cbn. split; [exact Hcin|]. split; congruence.
      * now apply (Hold existing).
  - destruct (archiveSnippet_cases now i ctx s)
      as [[code E]|(u & existing & _ & _ & _ & _ & _ & E)].
    + apply Hsame. cbn [run]. unfold store_after. now rewrite E.
    + intros r' Hr'. revert Hold Hr'. cbn [run]. unfold store_after.
      rewrite E. cbn [fst Snippets SnippetCollections]. intros Hold Hr'.
      unfold update_where in Hr'. apply in_map_iff in Hr'.
      destruct Hr' as (r & <- & Hr).
      destruct (String.eqb _ _); now apply (Hold r).
  - apply Hsame. cbn [run]. unfold store_after.
    now rewrite read_only_listSnippets.
  - apply Hsame. cbn [run]. unfold store_after.
    now rewrite read_only_getSnippet.
Qed.

(** X17.  Every store the actions produce from the empty one, in any number
    of calls by any callers, is well formed: no two collections and no two
    snippets share an [id], no user has two default collections, and every
    snippet is filed under a stored collection that belongs to the snippet's
    own user. *)
Theorem reachable_store_is_well_formed :
  forall (s : Store),
    reachable s ->
    ids_unique s /\ single_default s /\ refs_owned s.
Proof.
  induction 1 as [|call s _ (Hids & Hone & Hrefs)].
  - split; [split; constructor|]. split.
    + intros uid. cbn. lia.
    + intros r [].
  - destruct (run_invariant call s Hids Hone) as [Hids' Hone'].
    split; [exact Hids'|]. split; [exact Hone'|].
    now apply run_refs_owned.
Qed.

Lemma reachable_store_is_well_formed_witness :
  ids_unique Sample.archived_store
  /\ single_default Sample.archived_store
  /\ refs_owned Sample.archived_store.
Proof.
  apply (reachable_store_is_well_formed Sample.archived_store).
  unfold Sample.archived_store. repeat constructor.
Defined.

(* ------------------------------------------------------------------ *)
(** ** Updating a collection without making it the default *)

(** X18.  updateSnippetCollection by the owner, when the input does not say
    [isDefault = true], writes the target row only: the other collections
    and the snippets are as before.  The row stored and returned has the
    fields of the input where it gives them and the old ones where it does
    not, the old [id], [userId] and [createdAt], and [updatedAt = now]. *)
Theorem updateSnippetCollection_plain_update :
  forall (now : Z) (uid : string) (input : UpdateSnippetCollection.Input)
         (existing : Collection.t) (s : Store),
    UpdateSnippetCollection.schema input = Some input ->
    find_collection (UpdateSnippetCollection.id input) s = Some existing ->
    Collection.userId existing = uid ->
    UpdateSnippetCollection.isDefault input <> Some true ->
    exists s' row,
      updateSnippetCollection now input (signed_in uid) s = (s', Ok (Some row))
      /\ find_collection (UpdateSnippetCollection.id input) s' = Some row
      /\ Snippets s' = Snippets s
      /\ row
         = Collection.mk
             (Collection.id existing)
             (Collection.userId existing)
             (nullish (UpdateSnippetCollection.name input)
                      (Collection.name existing))
             (match UpdateSnippetCollection.description input with
              | Some d => Some d
              | None => Collection.description existing
              end)
             (match UpdateSnippetCollection.icon input with
              | Some i => Some i
              | None => Collection.icon existing
              end)
             (nullish (UpdateSnippetCollection.isDefault input)
                      (Collection.isDefault existing))
             (Collection.createdAt existing)
             now
      /\ (forall c, In c (SnippetCollections s) ->
                    Collection.id c <> UpdateSnippetCollection.id input ->
                    In c (SnippetCollections s')).
Proof.
  intros now uid input existing s Hschema Hfind Hu Hdef.
  assert (Hb : truthy_bool (UpdateSnippetCollection.isDefault input) = false)
    by (destruct (UpdateSnippetCollection.isDefault input) as [[|]|];
        [now contradiction Hdef | reflexivity..]).
  rewrite (updateSnippetCollection_owned now uid input existing s
             Hschema Hfind Hu).
  cbv zeta. rewrite Hb.
  assert (Hfind' : find_collection (UpdateSnippetCollection.id input)
                     (mkStore (SnippetCollections s) (Snippets s))
                   = Some existing) by now destruct s.
  pose proof (find_collection_updated
                (UpdateSnippetCollection.updateData now input) false
                uid now _ _ _ _ Hfind' Hu) as F.
  eexists. eexists. split; [rewrite F; reflexivity|]. split; [exact F|].
  cbn [Snippets SnippetCollections]. split; [reflexivity|].
  split; [reflexivity|].
  intros c Hin Hne. unfold defaults_cleared, update_where.
  apply in_map_iff. exists c. apply String.eqb_neq in Hne. now rewrite Hne.
Qed.

Lemma updateSnippetCollection_plain_update_witness :
  exists s' row,
    updateSnippetCollection 100 Scenario.rename_go Sample.alice Sample.store
    = (s', Ok (Some row))
    /\ find_collection "c2" s' = Some row
    /\ Snippets s' = Snippets Sample.store
    /\ row = Collection.mk "c2" "alice" "Golang" None (Some "laptop") false
                           20 100
    /\ (forall c, In c (SnippetCollections Sample.store) ->
                  Collection.id c <> "c2" ->
                  In c (SnippetCollections s')).
Proof.
  apply (updateSnippetCollection_plain_update 100 "alice" Scenario.rename_go
           Sample.go Sample.store); try reflexivity.
  discriminate.
Defined.

Lemma filter_single {Row} (p : Row -> bool) (l : list Row) (a b : Row) :
  (List.length (filter p l) <= 1)%nat ->
  In a l -> In b l -> p a = true -> p b = true -> a = b.
Proof.
  induction l as [|x l IH]; cbn; intros Hlen Ha Hb Hpa Hpb; [contradiction|].
  destruct (p x) eqn:Hpx.
  - cbn in Hlen.
    assert (Hnone : forall z, In z l -> p z = true -> False).
    { intros z Hz Hpz.
      assert (Hzf : In z (filter p l)) by (apply filter_In; auto).
      destruct (filter p l); [contradiction | cbn in Hlen; lia]. }
    destruct Ha as [<-|Ha]; [|now destruct (Hnone a Ha Hpa)].
    destruct Hb as [<-|Hb]; [reflexivity | now destruct (Hnone b Hb Hpb)].
  - destruct Ha as [<-|Ha]; [congruence|].
    destruct Hb as [<-|Hb]; [congruence|]. now apply IH.
Qed.

(** X19.  The default can be taken away without being given to another
    collection: in a store with at most one default per user, when the owner
    updates their default collection with [isDefault = false], they have no
    default collection afterwards. *)
Theorem updateSnippetCollection_can_leave_no_default :
  forall (now : Z) (uid : string) (input : UpdateSnippetCollection.Input)
         (existing : Collection.t) (s : Store),
    single_default s ->
    UpdateSnippetCollection.schema input = Some input ->
    find_collection (UpdateSnippetCollection.id input) s = Some existing ->
    Collection.userId existing = uid ->
    Collection.isDefault existing = true ->
    UpdateSnippetCollection.isDefault input = Some false ->
    defaults_of uid
      (store_after (updateSnippetCollection now input (signed_in uid)) s)
    = [].
Proof.
  intros now uid input existing s Hone Hschema Hfind Hu Hd Hin.
  unfold store_after.
  rewrite (updateSnippetCollection_owned now uid input existing s
             Hschema Hfind Hu).
  cbv zeta. rewrite Hin. cbn [truthy_bool fst]. unfold defaults_of.
  cbn [SnippetCollections]. unfold defaults_cleared.
  apply filter_none. intros r' Hr'. unfold update_where in Hr'.
  apply in_map_iff in Hr'. destruct Hr' as (r & <- & Hr).
  destruct (String.eqb_spec (Collection.id r) (UpdateSnippetCollection.id input))
    as [Hk|Hk].
  - unfold is_default_of. cbn. rewrite Hin. cbn. apply andb_false_r.
  - destruct (is_default_of uid r) eqn:Edef; [|reflexivity]. exfalso.
    apply Hk. unfold find_collection in Hfind. apply find_some in Hfind.
    destruct Hfind as [Hex Hexid]. apply String.eqb_eq in Hexid.
    rewrite <- Hexid. f_equal.
    apply (filter_single (is_default_of uid) (SnippetCollections s) r existing
             (Hone uid) Hr Hex Edef).
    unfold is_default_of. rewrite Hd, andb_true_r. now apply String.eqb_eq.
Qed.

Lemma updateSnippetCollection_can_leave_no_default_witness :
  defaults_of "alice"
    (store_after
       (updateSnippetCollection 100 Scenario.undefault_sql Sample.alice)
       Sample.store)
  = [].
Proof.
  apply (updateSnippetCollection_can_leave_no_default 100 "alice"
           Scenario.undefault_sql Sample.sql Sample.store);
    try reflexivity.
  exact Sample_store_single_default.
Defined.

(* ------------------------------------------------------------------ *)
(** ** Archiving, then listing *)

(** X20.  Once its owner has archived a snippet, a listing that does not ask
    for archived snippets ([includeArchived] false or left out) no longer
    shows it: no item of the page has the archived snippet's id. *)
Theorem archived_snippet_leaves_the_listing :
  forall (now : Z) (uid : string) (input : ArchiveSnippet.Input)
         (existing : Snippet.t) (s : Store)
         (raw : ListSnippets.Raw) (s' : Store) (page : Page Snippet.t)
         (r : Snippet.t),
    ArchiveSnippet.schema input = Some input ->
    find_snippet (ArchiveSnippet.id input) s = Some existing ->
    Snippet.userId existing = uid ->
    ListSnippets.raw_includeArchived raw <> Some true ->
    listSnippets raw (signed_in uid)
      (store_after (archiveSnippet now input (signed_in uid)) s)
    = (s', Ok page) ->
    In r (items page) ->
    Snippet.id r <> ArchiveSnippet.id input.
Proof.
  intros now uid input existing s raw s' page r Hschema Hfind Hu Hinc Hrun Hin.
  unfold store_after in Hrun.
  rewrite (archiveSnippet_owned now uid input existing s Hschema Hfind Hu)
    in Hrun.
  cbn [fst] in Hrun. apply listSnippets_returns in Hrun.
  destruct Hrun as (parsed & u & Hparsed & _ & _ & Hitems & _).
  apply ListSnippets_schema_fields in Hparsed.
  assert (Hfalse : ListSnippets.includeArchived parsed = false).
  { subst parsed. cbn.
    destruct (ListSnippets.raw_includeArchived raw) as [[|]|];
      [now contradiction Hinc | reflexivity..]. }
  rewrite Hitems in Hin. apply In_limit_offset, In_orderBy_desc in Hin.
  unfold select_where in Hin. apply filter_In in Hin.
  destruct Hin as [Hstored Hm]. cbn [Snippets] in Hstored.
  unfold ListSnippets.matches in Hm. rewrite Hfalse in Hm.
  apply andb_prop in Hm. destruct Hm as [_ Hm]. cbn in Hm.
  unfold ListSnippets.not_archived in Hm. apply Bool.eqb_prop in Hm.
  unfold update_where in Hstored. apply in_map_iff in Hstored.
  destruct Hstored as (r0 & <- & _). intros Hid.
  destruct (String.eqb_spec (Snippet.id r0) (ArchiveSnippet.id input))
    as [_|Hne].
  - cbn in Hm. discriminate.
  - contradiction.
Qed.

Lemma archived_snippet_leaves_the_listing_witness :
  listSnippets Sample.list_default Sample.alice Scenario.archive_channel
  = (Scenario.archive_channel, Ok Sample.list_default_page)
  /\ Snippet.id Sample.select1 <> "s4".
Proof.
  assert (Hrun : listSnippets Sample.list_default Sample.alice
                   Scenario.archive_channel
                 = (Scenario.archive_channel, Ok Sample.list_default_page))
    by reflexivity.
  split; [exact Hrun|].
  apply (archived_snippet_leaves_the_listing 100 "alice"
           (ArchiveSnippet.mk "s4") Scenario.channel Scenario.two_active
           Sample.list_default Scenario.archive_channel
           Sample.list_default_page Sample.select1);
    try reflexivity.
  - discriminate.
  - cbn. auto.
Defined.
